(** * pgcenter: the statistics refresh engine

    A shallow embedding of [pgcenter.c]: the result arrays with their
    diff and sort, the sort-key navigation, the [min_age] line editor and
    its validation, the CPU percentages of the summary window, the reading
    of [~/.pgcenterrc], and one iteration of the main loop.

    Conventions.
    - C [int] and [long long] values are [Z]; unsigned 64-bit arithmetic and
      the [long long] subtraction of [diff_arrays] carry their wrap-around
      explicitly.  The [int] arithmetic on column numbers and row counts is
      left unwrapped: those are small by construction.
    - A C string is a [string].  The buffers whose size the source gives
      are modelled with it: the 255 bytes of a cell of [init_array], the
      [BUFFERSIZE_S] bytes that [cmd_readline] writes to, and the field
      that the [strncpy] of [change_min_age] fills.  The fields of
      [struct screen_s] have their sizes in [pgcenter.h]; copies into
      them are taken to fit.
    - A [char ***] array is a list of rows, each a list of cells.
    - Behaviour that C leaves undefined (a [strcpy] from [NULL] or past
      the end of a cell, the read of a local that was never assigned, an
      access past the end of an array) is the result [None].
    - [pgcenter.h] is not among the sources.  Its constants are the fields
      of the record [pgcenter_h] and every definition takes it as its first
      argument. *)

From Stdlib Require Import ZArith List String Ascii Bool Lia.
From Stdlib Require Import Permutation Sorted DecimalString Floats.
From Stdlib Require Import DecimalPos.
Import ListNotations.

Local Open Scope string_scope.
Local Open Scope list_scope.
Local Open Scope Z_scope.

(* ================================================================== *)
(** ** The C library *)

Module Libc.

Definition LLONG_MAX : Z := 2 ^ 63 - 1.
Definition LLONG_MIN : Z := - 2 ^ 63.
Definition ULLONG_MODULUS : Z := 2 ^ 64.
Definition UINT_MODULUS : Z := 2 ^ 32.

(** Unsigned 64-bit and signed 64-bit wrap-around. *)
Definition wrap_u64 (z : Z) : Z := z mod ULLONG_MODULUS.
Definition wrap_s64 (z : Z) : Z :=
  (z + 2 ^ 63) mod ULLONG_MODULUS - 2 ^ 63.

Definition code (c : ascii) : Z := Z.of_nat (nat_of_ascii c).

Definition isspace (c : ascii) : bool :=
  (code c =? 32) || ((9 <=? code c) && (code c <=? 13)).

Definition isdigit (c : ascii) : bool :=
  (48 <=? code c) && (code c <=? 57).

Fixpoint skip_spaces (s : string) : string :=
  match s with
  | String c r => if isspace c then skip_spaces r else s
  | EmptyString => s
  end.

(** The longest prefix of decimal digits, read as a number; the count of
    digits read; the rest of the input. *)
Fixpoint read_digits (acc : Z) (n : nat) (s : string) : Z * nat * string :=
  match s with
  | String c r =>
      if isdigit c then read_digits (acc * 10 + (code c - 48)) (S n) r
      else (acc, n, s)
  | EmptyString => (acc, n, s)
  end.

Definition read_sign (s : string) : bool * string :=
  match s with
  | String "-"%char r => (true, r)
  | String "+"%char r => (false, r)
  | _ => (false, s)
  end.

(** [strtoll(s, NULL, 10)]: white space, an optional sign, digits; the
    value is clamped to the range of [long long]; no digits give [0]. *)
Definition strtoll (s : string) : Z :=
  let '(neg, s1) := read_sign (skip_spaces s) in
  let '(v, _, _) := read_digits 0 0 s1 in
  let v := if neg then - v else v in
  Z.max LLONG_MIN (Z.min LLONG_MAX v).

Definition atoll (s : string) : Z := strtoll s.

(** [printf("%lli", z)] and [printf("%d", z)]. *)
Definition format_lli (z : Z) : string := NilZero.string_of_int (Z.to_int z).
Definition format_d (z : Z) : string := NilZero.string_of_int (Z.to_int z).

(** One [%u] conversion of [scanf]. *)
Inductive conversion : Type :=
| Converted (v : Z) (rest : string)
| MatchFailure
| InputFailure.

Definition scan_u (s : string) : conversion :=
  match skip_spaces s with
  | EmptyString => InputFailure
  | s1 =>
      let '(neg, s2) := read_sign s1 in
      let '(v, n, rest) := read_digits 0 0 s2 in
      match n with
      | O => MatchFailure
      | S _ =>
          let ul := if ULLONG_MODULUS <=? v then ULLONG_MODULUS - 1
                    else if neg then wrap_u64 (- v) else v in
          Converted (ul mod UINT_MODULUS) rest
      end
  end.

(** A literal character of a [scanf] format. *)
Definition scan_lit (c : ascii) (s : string) : option string :=
  match s with
  | String c' r => if Ascii.eqb c c' then Some r else None
  | EmptyString => None
  end.

(** [sscanf(s, "%u:%u:%u", &a, &b, &c)]: the returned count ([-1] is
    [EOF]) and the values stored; [None] is a variable left untouched. *)
Definition sscanf_u_u_u (s : string)
  : Z * (option Z * option Z * option Z) :=
  match scan_u s with
  | InputFailure => (-1, (None, None, None))
  | MatchFailure => (0, (None, None, None))
  | Converted a r1 =>
      match scan_lit ":"%char r1 with
      | None => (1, (Some a, None, None))
      | Some r2 =>
          match scan_u r2 with
          | Converted b r3 =>
              match scan_lit ":"%char r3 with
              | None => (2, (Some a, Some b, None))
              | Some r4 =>
                  match scan_u r4 with
                  | Converted c _ => (3, (Some a, Some b, Some c))
                  | _ => (2, (Some a, Some b, None))
                  end
              end
          | _ => (1, (Some a, None, None))
          end
      end
  end.

(** A [%[^...]] conversion: the longest non-empty run of characters that
    are not in [stop]. *)
Fixpoint read_until (stop : list ascii) (s : string) : string * string :=
  match s with
  | String c r =>
      if existsb (Ascii.eqb c) stop then (EmptyString, s)
      else let '(f, rest) := read_until stop r in (String c f, rest)
  | EmptyString => (EmptyString, s)
  end.

Definition scan_set_not (stop : list ascii) (s : string)
  : option (string * string) :=
  match read_until stop s with
  | (EmptyString, _) => None
  | (f, rest) => Some (f, rest)
  end.

(** [strncpy(dst, src, n); dst[n] = 0]. *)
Fixpoint strncpy (n : nat) (s : string) : string :=
  match n, s with
  | S n', String c r => String c (strncpy n' r)
  | _, _ => EmptyString
  end.

(** [(double) z] for a non-negative integer: round to nearest. *)
Definition to_double (z : Z) : float :=
  SF2Prim (SpecFloat.binary_normalize 53 1024 z 0 false).

End Libc.

(* ================================================================== *)
(** ** pgcenter.h *)

(** [enum context]: the views. *)
Inductive context : Type :=
| pg_stat_database
| pg_stat_replication
| pg_stat_user_tables
| pg_stat_user_indexes
| pg_statio_user_tables
| pg_tables_size
| pg_stat_activity_long
| pg_stat_user_functions.

Definition context_eqb (a b : context) : bool :=
  match a, b with
  | pg_stat_database, pg_stat_database
  | pg_stat_replication, pg_stat_replication
  | pg_stat_user_tables, pg_stat_user_tables
  | pg_stat_user_indexes, pg_stat_user_indexes
  | pg_statio_user_tables, pg_statio_user_tables
  | pg_tables_size, pg_tables_size
  | pg_stat_activity_long, pg_stat_activity_long
  | pg_stat_user_functions, pg_stat_user_functions => true
  | _, _ => false
  end.

Definition all_contexts : list context :=
  [ pg_stat_database; pg_stat_replication; pg_stat_user_tables;
    pg_stat_user_indexes; pg_statio_user_tables; pg_tables_size;
    pg_stat_activity_long; pg_stat_user_functions ].

(** [ExecStatusType] of libpq. *)
Inductive ExecStatusType : Type :=
| PGRES_EMPTY_QUERY
| PGRES_COMMAND_OK
| PGRES_TUPLES_OK
| PGRES_COPY_OUT
| PGRES_COPY_IN
| PGRES_BAD_RESPONSE
| PGRES_NONFATAL_ERROR
| PGRES_FATAL_ERROR.

Definition ExecStatusType_eqb (a b : ExecStatusType) : bool :=
  match a, b with
  | PGRES_EMPTY_QUERY, PGRES_EMPTY_QUERY
  | PGRES_COMMAND_OK, PGRES_COMMAND_OK
  | PGRES_TUPLES_OK, PGRES_TUPLES_OK
  | PGRES_COPY_OUT, PGRES_COPY_OUT
  | PGRES_COPY_IN, PGRES_COPY_IN
  | PGRES_BAD_RESPONSE, PGRES_BAD_RESPONSE
  | PGRES_NONFATAL_ERROR, PGRES_NONFATAL_ERROR
  | PGRES_FATAL_ERROR, PGRES_FATAL_ERROR => true
  | _, _ => false
  end.

(** The constants that [pgcenter.c] takes from the header. *)
Record pgcenter_h : Type := {
  MAX_CONSOLE : nat;
  TOTAL_CONTEXTS : nat;
  DEFAULT_QUERY_CONTEXT : context;
  INVALID_ORDER_KEY : Z;
  PG_TUP_OK : ExecStatusType;
  MIN_AGE_SIZE : nat;     (* sizeof(screen->pg_stat_activity_min_age) *)
  BUFFERSIZE_S : nat;     (* the size of [min_age] in [change_min_age] *)
  PG_STAT_ACTIVITY_MIN_AGE_DEFAULT : string;
  PGCENTERRC_FILE : string;
  (* index of each view in [context_list] *)
  PG_STAT_DATABASE_NUM : nat;
  PG_STAT_REPLICATION_NUM : nat;
  PG_STAT_USER_TABLES_NUM : nat;
  PG_STAT_USER_INDEXES_NUM : nat;
  PG_STATIO_USER_TABLES_NUM : nat;
  PG_TABLES_SIZE_NUM : nat;
  PG_STAT_ACTIVITY_LONG_NUM : nat;
  PG_STAT_USER_FUNCTIONS_NUM : nat;
  (* column ranges *)
  PG_STAT_DATABASE_ORDER_MIN : Z;
  PG_STAT_DATABASE_ORDER_MAX : Z;
  PG_STAT_REPLICATION_ORDER_MIN : Z;
  PG_STAT_REPLICATION_ORDER_MAX : Z;
  PG_STAT_USER_TABLES_ORDER_MIN : Z;
  PG_STAT_USER_TABLES_ORDER_MAX : Z;
  PG_STAT_USER_INDEXES_ORDER_MIN : Z;
  PG_STAT_USER_INDEXES_ORDER_MAX : Z;
  PG_STATIO_USER_TABLES_ORDER_MIN : Z;
  PG_STATIO_USER_TABLES_ORDER_MAX : Z;
  PG_TABLES_SIZE_ORDER_MIN : Z;
  PG_TABLES_SIZE_ORDER_MAX : Z;
  PG_STAT_ACTIVITY_LONG_ORDER_MIN : Z;
  PG_STAT_ACTIVITY_LONG_ORDER_MAX : Z;
  PG_STAT_USER_FUNCTIONS_ORDER_MIN : Z;
  PG_STAT_USER_FUNCTIONS_ORDER_MAX : Z;
  PG_STAT_USER_FUNCTIONS_DIFF_COL : Z;
  (* query texts *)
  PG_STAT_DATABASE_QUERY : string;
  PG_STAT_REPLICATION_QUERY : string;
  PG_STAT_USER_TABLES_QUERY : string;
  PG_STAT_USER_INDEXES_QUERY : string;
  PG_STATIO_USER_TABLES_QUERY : string;
  PG_TABLES_SIZE_QUERY : string;
  PG_STAT_ACTIVITY_LONG_QUERY_P1 : string;
  PG_STAT_ACTIVITY_LONG_QUERY_P2 : string;
  PG_STAT_ACTIVITY_LONG_QUERY_P3 : string;
  PG_STAT_USER_FUNCTIONS_QUERY_P1 : string;
  PG_STAT_USER_FUNCTIONS_QUERY_P2 : string
}.

(** [struct context_s] and [struct screen_s]. *)
Record context_s : Type := {
  ctx : context;
  order_key : Z;
  order_desc : bool
}.

Record screen_s : Type := {
  screen : Z;
  conn_used : bool;
  host : string;
  port : string;
  user : string;
  dbname : string;
  password : string;
  conninfo : string;
  log_opened : bool;
  current_context : context;
  pg_stat_activity_min_age : string;
  context_list : list context_s
}.

(* ================================================================== *)
(** ** libpq results and the arrays made from them *)

(** A result: the column names and the tuples, each tuple with one value
    per column.  A [PGresult *] is an [option]; [NULL] is [None]. *)
Record PGresult : Type := {
  fnames : list string;
  tuples : list (list string)
}.

Definition PQntuples (res : option PGresult) : Z :=
  match res with
  | Some r => Z.of_nat (List.length (tuples r))
  | None => 0
  end.

Definition PQnfields (res : option PGresult) : Z :=
  match res with
  | Some r => Z.of_nat (List.length (fnames r))
  | None => 0
  end.

(** [PQgetvalue] returns [NULL] when the row or the column is out of
    range, and on a [NULL] result. *)
Definition PQgetvalue (res : option PGresult) (i j : nat) : option string :=
  match res with
  | Some r =>
      if (j <? List.length (fnames r))%nat then
        match nth_error (tuples r) i with
        | Some row => nth_error row j
        | None => None
        end
      else None
  | None => None
  end.

Definition PQfname (res : option PGresult) (j : nat) : option string :=
  match res with
  | Some r => nth_error (fnames r) j
  | None => None
  end.

(** What [PQexec] hands back: a status and the data. *)
Record PQexec_result : Type := {
  exec_status : ExecStatusType;
  exec_data : PGresult
}.

Definition array : Type := list (list string).

Definition cell (arr : array) (i j : nat) : string :=
  nth j (nth i arr []) "".

Fixpoint set_nth {A : Type} (n : nat) (x : A) (l : list A) : list A :=
  match l, n with
  | [], _ => []
  | _ :: r, O => x :: r
  | y :: r, S n' => y :: set_nth n' x r
  end.

Definition set_cell (arr : array) (i j : nat) (v : string) : array :=
  set_nth i (set_nth j v (nth i arr [])) arr.

(** The option monad, for code that may run into undefined behaviour. *)
Definition bind {A B : Type} (m : option A) (f : A -> option B) : option B :=
  match m with
  | Some a => f a
  | None => None
  end.

Notation "x <- m ;; k" := (bind m (fun x => k))
  (at level 61, m at next level, right associativity).
Notation "' p <- m ;; k" := (bind m (fun x => match x with p => k end))
  (at level 61, p pattern, m at next level, right associativity).

Fixpoint mapM {A B : Type} (f : A -> option B) (l : list A) : option (list B) :=
  match l with
  | [] => Some []
  | a :: r => b <- f a ;; bs <- mapM f r ;; Some (b :: bs)
  end.

(** [init_array] gives every cell [malloc(sizeof(char) * 255)]. *)
Definition CELL_SIZE : nat := 255.

(** [strcpy(arr[i][j], v)] into a cell of [init_array]: the value and its
    terminating NUL have to fit, and [v] must not be [NULL]. *)
Definition strcpy_cell (v : option string) : option string :=
  match v with
  | Some t => if (String.length t <? CELL_SIZE)%nat then Some t else None
  | None => None
  end.

(** [init_array] followed by [pgrescpy]: every cell is a [strcpy] from
    [PQgetvalue]. *)
Definition pgrescpy (res : option PGresult) (n_rows n_cols : Z)
  : option array :=
  mapM (fun i => mapM (fun j => strcpy_cell (PQgetvalue res i j))
                   (seq 0 (Z.to_nat n_cols)))
       (seq 0 (Z.to_nat n_rows)).

(* ================================================================== *)
(** ** diff_arrays *)

Definition diff_range (h : pgcenter_h) (c : context) : Z * Z :=
  match c with
  | pg_stat_database =>
      (PG_STAT_DATABASE_ORDER_MIN h, PG_STAT_DATABASE_ORDER_MAX h)
  | pg_stat_replication =>
      (PG_STAT_REPLICATION_ORDER_MIN h, PG_STAT_REPLICATION_ORDER_MAX h)
  | pg_stat_user_tables =>
      (PG_STAT_USER_TABLES_ORDER_MIN h, PG_STAT_USER_TABLES_ORDER_MAX h)
  | pg_stat_user_indexes =>
      (PG_STAT_USER_INDEXES_ORDER_MIN h, PG_STAT_USER_INDEXES_ORDER_MAX h)
  | pg_statio_user_tables =>
      (PG_STATIO_USER_TABLES_ORDER_MIN h, PG_STATIO_USER_TABLES_ORDER_MAX h)
  | pg_tables_size =>
      (PG_TABLES_SIZE_ORDER_MIN h, PG_TABLES_SIZE_ORDER_MAX h)
  | pg_stat_activity_long =>
      (PG_STAT_ACTIVITY_LONG_ORDER_MIN h, PG_STAT_ACTIVITY_LONG_ORDER_MAX h)
  | pg_stat_user_functions =>
      (PG_STAT_USER_FUNCTIONS_DIFF_COL h, PG_STAT_USER_FUNCTIONS_DIFF_COL h)
  end.

(** The [else] branch of the inner loop: the difference is taken in
    [long long] and printed with ["%lli"]. *)
Definition diff_cell (p c : string) : string :=
  Libc.format_lli (Libc.wrap_s64 (Libc.atoll c - Libc.atoll p)).

(** [res_arr] is written in every cell [i < n_rows], [j < n_cols]; the
    result is the array so filled. *)
Definition diff_arrays (h : pgcenter_h) (p_arr c_arr : array)
    (c : context) (n_rows n_cols : Z) : array :=
  let '(min, max) := diff_range h c in
  map (fun i =>
         map (fun j =>
                if (Z.of_nat j <? min) || (Z.of_nat j >? max)
                then cell c_arr i j
                else diff_cell (cell p_arr i j) (cell c_arr i j))
             (seq 0 (Z.to_nat n_cols)))
      (seq 0 (Z.to_nat n_rows)).

(* ================================================================== *)
(** ** sort_array *)

(** The loop over [context_list] that picks the entry of the current view;
    [None]: no entry matched and the locals keep whatever they held. *)
Definition lookup_order (s : screen_s) : option (Z * bool) :=
  fold_left
    (fun acc e =>
       if context_eqb (current_context s) (ctx e)
       then Some (order_key e, order_desc e)
       else acc)
    (context_list s) None.

(** The three [strcpy] through [temp], for every column [x < n_cols]. *)
Definition swap_cells (arr : array) (i j : nat) (n_cols : Z) : array :=
  fold_left
    (fun a x =>
       let temp := cell a i x in
       let a := set_cell a i x (cell a j x) in
       set_cell a j x temp)
    (seq 0 (Z.to_nat n_cols)) arr.

(** The body of the inner loop. *)
Definition sort_step (desc : bool) (k : nat) (n_cols : Z) (i : nat)
    (arr : array) (j : nat) : array :=
  let arr :=
    if desc then
      if Libc.atoll (cell arr j k) >? Libc.atoll (cell arr i k)
      then swap_cells arr i j n_cols else arr
    else arr in
  if negb desc then
    if Libc.atoll (cell arr i k) >? Libc.atoll (cell arr j k)
    then swap_cells arr i j n_cols else arr
  else arr.

Definition sort_rows (desc : bool) (k : nat) (n_rows : nat) (n_cols : Z)
    (arr : array) : array :=
  fold_left
    (fun a i => fold_left (sort_step desc k n_cols i)
                  (seq (S i) (n_rows - S i)%nat) a)
    (seq 0 n_rows) arr.

(** With two rows or more the first comparison reads column [order_key]:
    a column outside the array is an access out of bounds. *)
Definition sort_array (h : pgcenter_h) (res_arr : array) (n_rows n_cols : Z)
    (s : screen_s) : option array :=
  let found := lookup_order s in
  if context_eqb (current_context s) pg_stat_user_functions then Some res_arr
  else
    '(order_key, desc) <- found ;;
    if order_key =? INVALID_ORDER_KEY h then Some res_arr
    else if (2 <=? n_rows) && ((order_key <? 0) || (n_cols <=? order_key))
    then None
    else Some (sort_rows desc (Z.to_nat order_key) (Z.to_nat n_rows)
                 n_cols res_arr).

(* ================================================================== *)
(** ** init_screens and change_sort_order *)

Definition set_context_list (s : screen_s) (cl : list context_s) : screen_s :=
  {| screen := screen s; conn_used := conn_used s; host := host s;
     port := port s; user := user s; dbname := dbname s;
     password := password s; conninfo := conninfo s;
     log_opened := log_opened s; current_context := current_context s;
     pg_stat_activity_min_age := pg_stat_activity_min_age s;
     context_list := cl |}.

Definition set_current_context (s : screen_s) (c : context) : screen_s :=
  {| screen := screen s; conn_used := conn_used s; host := host s;
     port := port s; user := user s; dbname := dbname s;
     password := password s; conninfo := conninfo s;
     log_opened := log_opened s; current_context := c;
     pg_stat_activity_min_age := pg_stat_activity_min_age s;
     context_list := context_list s |}.

Definition set_min_age (s : screen_s) (a : string) : screen_s :=
  {| screen := screen s; conn_used := conn_used s; host := host s;
     port := port s; user := user s; dbname := dbname s;
     password := password s; conninfo := conninfo s;
     log_opened := log_opened s; current_context := current_context s;
     pg_stat_activity_min_age := a;
     context_list := context_list s |}.

Definition set_order_key (e : context_s) (k : Z) : context_s :=
  {| ctx := ctx e; order_key := k; order_desc := order_desc e |}.

(** [memset(screens[i], 0, SCREEN_SIZE)] leaves every entry with the
    first enumerator, key [0] and direction [false]. *)
Definition zeroed_context_s : context_s :=
  {| ctx := pg_stat_database; order_key := 0; order_desc := false |}.

(** The three assignments to [context_list[num]]. *)
Definition init_entry (num : nat) (c : context) (key : Z)
    (cl : list context_s) : list context_s :=
  set_nth num {| ctx := c; order_key := key; order_desc := true |} cl.

Definition init_context_list (h : pgcenter_h) : list context_s :=
  let cl := repeat zeroed_context_s (TOTAL_CONTEXTS h) in
  let cl := init_entry (PG_STAT_DATABASE_NUM h) pg_stat_database
              (PG_STAT_DATABASE_ORDER_MIN h) cl in
  let cl := init_entry (PG_STAT_REPLICATION_NUM h) pg_stat_replication
              (PG_STAT_REPLICATION_ORDER_MIN h) cl in
  let cl := init_entry (PG_STAT_USER_TABLES_NUM h) pg_stat_user_tables
              (PG_STAT_USER_TABLES_ORDER_MIN h) cl in
  let cl := init_entry (PG_STAT_USER_INDEXES_NUM h) pg_stat_user_indexes
              (PG_STAT_USER_INDEXES_ORDER_MIN h) cl in
  let cl := init_entry (PG_STATIO_USER_TABLES_NUM h) pg_statio_user_tables
              (PG_STATIO_USER_TABLES_ORDER_MIN h) cl in
  let cl := init_entry (PG_TABLES_SIZE_NUM h) pg_tables_size
              (PG_TABLES_SIZE_ORDER_MIN h) cl in
  let cl := init_entry (PG_STAT_ACTIVITY_LONG_NUM h) pg_stat_activity_long
              (PG_STAT_ACTIVITY_LONG_ORDER_MIN h) cl in
  init_entry (PG_STAT_USER_FUNCTIONS_NUM h) pg_stat_user_functions
    (PG_STAT_USER_FUNCTIONS_ORDER_MIN h) cl.

Definition init_screen (h : pgcenter_h) (i : nat) : screen_s :=
  {| screen := Z.of_nat i; conn_used := false; host := ""; port := "";
     user := ""; dbname := ""; password := ""; conninfo := "";
     log_opened := false;
     current_context := DEFAULT_QUERY_CONTEXT h;
     pg_stat_activity_min_age := PG_STAT_ACTIVITY_MIN_AGE_DEFAULT h;
     context_list := init_context_list h |}.

Definition init_screens (h : pgcenter_h) : list screen_s :=
  map (init_screen h) (seq 0 (MAX_CONSOLE h)).

(** The [switch] of [change_sort_order]. *)
Definition sort_range (h : pgcenter_h) (c : context) : Z * Z :=
  match c with
  | pg_stat_database =>
      (PG_STAT_DATABASE_ORDER_MIN h, PG_STAT_DATABASE_ORDER_MAX h)
  | pg_stat_replication =>
      (PG_STAT_REPLICATION_ORDER_MIN h, PG_STAT_REPLICATION_ORDER_MAX h)
  | pg_stat_user_tables =>
      (PG_STAT_USER_TABLES_ORDER_MIN h, PG_STAT_USER_TABLES_ORDER_MAX h)
  | pg_stat_user_indexes =>
      (PG_STAT_USER_INDEXES_ORDER_MIN h, PG_STAT_USER_INDEXES_ORDER_MAX h)
  | pg_statio_user_tables =>
      (PG_STATIO_USER_TABLES_ORDER_MIN h, PG_STATIO_USER_TABLES_ORDER_MAX h)
  | pg_tables_size =>
      (PG_TABLES_SIZE_ORDER_MIN h - 3, PG_TABLES_SIZE_ORDER_MAX h)
  | pg_stat_activity_long =>
      (PG_STAT_ACTIVITY_LONG_ORDER_MIN h, PG_STAT_ACTIVITY_LONG_ORDER_MIN h)
  | pg_stat_user_functions =>
      (PG_STAT_USER_FUNCTIONS_ORDER_MIN h, PG_STAT_USER_FUNCTIONS_ORDER_MAX h)
  end.

(** [context_list] has [TOTAL_CONTEXTS] entries and the loops run over all
    of them.  The result is the screen and [*first_iter]. *)
Definition change_sort_order (h : pgcenter_h) (screens : screen_s)
    (increment : bool) (first_iter : bool) : screen_s * bool :=
  let '(min, max) := sort_range h (current_context screens) in
  let first_iter :=
    match current_context screens with
    | pg_stat_user_functions => true
    | _ => first_iter
    end in
  let cl := context_list screens in
  let cl :=
    if increment then
      map (fun e =>
             if context_eqb (current_context screens) (ctx e) then
               if order_key e + 1 >? max then set_order_key e min
               else set_order_key e (order_key e + 1)
             else e) cl
    else cl in
  let cl :=
    if negb increment then
      map (fun e =>
             if context_eqb (current_context screens) (ctx e) then
               if order_key e - 1 <? min then set_order_key e max
               else set_order_key e (order_key e - 1)
             else e) cl
    else cl in
  (set_context_list screens cl, first_iter).

(* ================================================================== *)
(** ** prepare_query and do_query *)

Definition prepare_query (h : pgcenter_h) (s : screen_s) : string :=
  match current_context s with
  | pg_stat_database => PG_STAT_DATABASE_QUERY h
  | pg_stat_replication => PG_STAT_REPLICATION_QUERY h
  | pg_stat_user_tables => PG_STAT_USER_TABLES_QUERY h
  | pg_stat_user_indexes => PG_STAT_USER_INDEXES_QUERY h
  | pg_statio_user_tables => PG_STATIO_USER_TABLES_QUERY h
  | pg_tables_size => PG_TABLES_SIZE_QUERY h
  | pg_stat_activity_long =>
      (PG_STAT_ACTIVITY_LONG_QUERY_P1 h ++ pg_stat_activity_min_age s
       ++ PG_STAT_ACTIVITY_LONG_QUERY_P2 h ++ pg_stat_activity_min_age s
       ++ PG_STAT_ACTIVITY_LONG_QUERY_P3 h)%string
  | pg_stat_user_functions =>
      let tmp :=
        Libc.format_d
          (order_key (nth (PG_STAT_USER_FUNCTIONS_NUM h) (context_list s)
                        zeroed_context_s) + 1) in
      (PG_STAT_USER_FUNCTIONS_QUERY_P1 h ++ tmp
       ++ PG_STAT_USER_FUNCTIONS_QUERY_P2 h)%string
  end.

(** What the program shows. *)
Inductive event : Type :=
| Stdout (s : string)
| Stderr (s : string)
| Wprintw (s : string)                         (* on the command window *)
| PrintData (names : list (option string))
            (highlight : option (Z * bool)) (rows : array)
| Usleep (us : Z)
| Sleep (s : Z).

Definition do_query (h : pgcenter_h) (r : PQexec_result)
  : option PGresult * list event :=
  if negb (ExecStatusType_eqb (exec_status r) (PG_TUP_OK h))
  then (None, [Stdout "We didn't get any data."])
  else (Some (exec_data r), []).

(** [print_data]: the header from [PQfname], the entry picked for the
    highlight, and the array as handed over. *)
Definition print_data (res : option PGresult) (arr : array)
    (n_rows n_cols : Z) (s : screen_s) : event :=
  PrintData (map (PQfname res) (seq 0 (Z.to_nat n_cols)))
            (lookup_order s)
            (map (fun i => map (cell arr i) (seq 0 (Z.to_nat n_cols)))
                 (seq 0 (Z.to_nat n_rows))).

(* ================================================================== *)
(** ** cmd_readline and change_min_age *)

(** Key codes of ncurses. *)
Definition KEY_BACKSPACE : Z := 263.
Definition KEY_DC : Z := 330.

(** [str[i] = ch]: the key code is narrowed to a [char]. *)
Definition char_of_key (ch : Z) : ascii :=
  ascii_of_nat (Z.to_nat (ch mod 256)).

(** The bytes of a buffer read as a C string: up to the first NUL. *)
Fixpoint c_string (s : string) : string :=
  match s with
  | String c r => if Ascii.eqb c Ascii.zero then EmptyString else String c (c_string r)
  | EmptyString => EmptyString
  end.

Fixpoint remove_last (s : string) : string :=
  match s with
  | EmptyString => EmptyString
  | String c EmptyString => EmptyString
  | String c r => String c (remove_last r)
  end.

Definition append_char (s : string) (c : ascii) : string :=
  (s ++ String c EmptyString)%string.

(** [str] points to [size] bytes and [typed] holds [str[0..i-1]]: a
    write to [str[i]] with [i] not below [size] is past the buffer,
    [None].  [keys] are the keys that [wgetch] will hand over, in order;
    when they run out [wgetch] returns [ERR], the loop ends and neither
    [*with_esc] nor the end of [str] was written, which the caller then
    reads: [None].
    The result is [*with_esc], [str], what was printed, the keys left. *)
Fixpoint cmd_readline (size : nat) (keys : list Z) (typed : string)
  : option (bool * string * list event * list Z) :=
  match keys with
  | [] => None
  | ch :: rest =>
      if ch =? 27 then
        if (0 <? size)%nat then
          Some (true, "", [Wprintw "Do nothing. Operation canceled. "], rest)
        else None
      else if ch =? 10 then
        if (String.length typed <? size)%nat then
          Some (false, c_string typed, [], rest)
        else None
      else if (ch =? KEY_BACKSPACE) || (ch =? KEY_DC) || (ch =? 127) then
        cmd_readline size rest (remove_last typed)
      else
        if (String.length typed <? size)%nat then
          cmd_readline size rest (append_char typed (char_of_key ch))
        else None
  end.

(** [v > bound] on a local that [sscanf] may have left unassigned. *)
Definition exceeds (v : option Z) (bound : Z) : option bool :=
  x <- v ;; Some (x >? bound).

(** The test
    [sscanf(...) == 0 || (hour > 23 || min > 59 || sec > 59)],
    evaluated left to right with the short cut of [||]. *)
Definition min_age_rejected (min_age : string) : option bool :=
  let '(n, (hour, min, sec)) := Libc.sscanf_u_u_u min_age in
  if n =? 0 then Some true
  else
    bh <- exceeds hour 23 ;;
    if bh : bool then Some true
    else
      bm <- exceeds min 59 ;;
      if bm : bool then Some true
      else exceeds sec 59.

Definition change_min_age (h : pgcenter_h) (s : screen_s) (keys : list Z)
  : option (screen_s * list event * list Z) :=
  let prompt := Wprintw "Enter new min age, format: HH:MM:SS[.NN]: " in
  '(with_esc, min_age, ev, rest) <- cmd_readline (BUFFERSIZE_S h) keys "" ;;
  if negb (String.length min_age =? 0)%nat && negb with_esc then
    rejected <- min_age_rejected min_age ;;
    if rejected : bool then
      Some (s, prompt :: ev
               ++ [Wprintw "Nothing to do. Failed read or invalid value."],
            rest)
    else
      Some (set_min_age s (Libc.strncpy (MIN_AGE_SIZE h - 1) min_age),
            prompt :: ev, rest)
  else if (String.length min_age =? 0)%nat && negb with_esc then
    Some (s, prompt :: ev
             ++ [Wprintw ("Nothing to do. Leave min age "
                          ++ pg_stat_activity_min_age s)%string],
          rest)
  else Some (s, prompt :: ev, rest).

(* ================================================================== *)
(** ** CPU statistics *)

Record stats_cpu_struct : Type := {
  cpu_user : Z;
  cpu_nice : Z;
  cpu_sys : Z;
  cpu_idle : Z;
  cpu_iowait : Z;
  cpu_steal : Z;
  cpu_hardirq : Z;
  cpu_softirq : Z;
  cpu_guest : Z;
  cpu_guest_nice : Z
}.

Definition zeroed_stats_cpu : stats_cpu_struct :=
  {| cpu_user := 0; cpu_nice := 0; cpu_sys := 0; cpu_idle := 0;
     cpu_iowait := 0; cpu_steal := 0; cpu_hardirq := 0; cpu_softirq := 0;
     cpu_guest := 0; cpu_guest_nice := 0 |}.

(** Sums of [unsigned long long] wrap around. *)
Definition uadd (a b : Z) : Z := Libc.wrap_u64 (a + b).

(** The value stored in [*uptime] by [read_cpu_stat]. *)
Definition cpu_total (c : stats_cpu_struct) : Z :=
  uadd (uadd (uadd (uadd (uadd (uadd (uadd (uadd (uadd
    (cpu_user c) (cpu_nice c)) (cpu_sys c)) (cpu_idle c)) (cpu_iowait c))
    (cpu_steal c)) (cpu_hardirq c)) (cpu_softirq c)) (cpu_guest c))
    (cpu_guest_nice c).

Definition get_interval (prev_uptime curr_uptime : Z) : Z :=
  let itv := Libc.wrap_u64 (curr_uptime - prev_uptime) in
  if itv =? 0 then 1 else itv.

(** Modelled from the spec: the macro [SP_VALUE] of [pgcenter.h] is
    missing from the sources; the spec gives
    [pct = 100 * (curr.X - prev.X) / interval], computed in [double]. *)
Definition SP_VALUE (m n p : Z) : float :=
  (100 * Libc.to_double (Libc.wrap_u64 (n - m)) / Libc.to_double p)%float.

Definition ll_sp_value (value1 value2 itv : Z) : float :=
  if value2 <? value1 then 0%float
  else SP_VALUE value1 value2 itv.

(** The eight numbers of the ["%cpu:"] line, in the order printed. *)
Record cpu_line : Type := {
  pct_us : float;
  pct_sy : float;
  pct_ni : float;
  pct_id : float;
  pct_wa : float;
  pct_hi : float;
  pct_si : float;
  pct_st : float
}.

(** [st_cpu] is the pair of samples; [curr] selects the current one. *)
Definition sample (st_cpu : stats_cpu_struct * stats_cpu_struct)
    (i : bool) : stats_cpu_struct :=
  if i then snd st_cpu else fst st_cpu.

Definition write_cpu_stat_raw
    (st_cpu : stats_cpu_struct * stats_cpu_struct) (curr : bool) (itv : Z)
  : cpu_line :=
  let p := sample st_cpu (negb curr) in
  let c := sample st_cpu curr in
  {| pct_us := ll_sp_value (cpu_user p) (cpu_user c) itv;
     pct_sy := ll_sp_value
                 (uadd (uadd (cpu_sys p) (cpu_softirq p)) (cpu_hardirq p))
                 (uadd (uadd (cpu_sys c) (cpu_softirq c)) (cpu_hardirq c))
                 itv;
     pct_ni := ll_sp_value (cpu_nice p) (cpu_nice c) itv;
     pct_id := if cpu_idle c <? cpu_idle p then 0%float
               else ll_sp_value (cpu_idle p) (cpu_idle c) itv;
     pct_wa := ll_sp_value (cpu_iowait p) (cpu_iowait c) itv;
     pct_hi := ll_sp_value (cpu_hardirq p) (cpu_hardirq c) itv;
     pct_si := ll_sp_value (cpu_softirq p) (cpu_softirq c) itv;
     pct_st := ll_sp_value (cpu_steal p) (cpu_steal c) itv |}.

(** The statics of [print_cpu_usage] and the two samples. *)
Record cpu_state : Type := {
  st_cpu : stats_cpu_struct * stats_cpu_struct;
  uptime : Z * Z;
  curr : bool
}.

Definition initial_cpu_state : cpu_state :=
  {| st_cpu := (zeroed_stats_cpu, zeroed_stats_cpu);
     uptime := (0, 0);
     curr := true |}.

Definition store {A : Type} (p : A * A) (i : bool) (x : A) : A * A :=
  if i then (fst p, x) else (x, snd p).

Definition pick {A : Type} (p : A * A) (i : bool) : A :=
  if i then snd p else fst p.

(** [print_cpu_usage]; [line] is the ["cpu "] line of [/proc/stat] as
    [read_cpu_stat] parses it.  [uptime0] and the per-processor lines only
    feed an interval that is never printed, and are left out. *)
Definition print_cpu_usage (s : cpu_state) (line : stats_cpu_struct)
  : cpu_state * cpu_line :=
  let st := store (st_cpu s) (curr s) line in
  let up := store (uptime s) (curr s) (cpu_total line) in
  let itv := get_interval (pick up (negb (curr s))) (pick up (curr s)) in
  ({| st_cpu := st; uptime := up; curr := xorb (curr s) true |},
   write_cpu_stat_raw st (curr s) itv).

(* ================================================================== *)
(** ** create_pgcenterrc_conn *)

Definition S_IRWXG : Z := 56.   (* 0070 *)
Definition S_IRWXO : Z := 7.    (* 0007 *)

Inductive rc_status : Type :=
| PGCENTERRC_READ_OK
| PGCENTERRC_READ_ERR.

(** The file as the function sees it: the mode from [stat] and the lines
    [fgets] delivers, [None] when [fopen] fails. *)
Record rc_file : Type := {
  st_mode : Z;
  rc_lines : option (list string)
}.

Definition set_conn (s : screen_s) (ho po db us pw : string) (i : Z)
  : screen_s :=
  {| screen := i; conn_used := true; host := ho; port := po; user := us;
     dbname := db; password := pw; conninfo := conninfo s;
     log_opened := log_opened s; current_context := current_context s;
     pg_stat_activity_min_age := pg_stat_activity_min_age s;
     context_list := context_list s |}.

(** [sscanf(strbuf, "%[^:]:%[^:]:%[^:]:%[^:]:%[^:\n]", host, port, dbname,
    user, password)]: a field that does not convert ends the scan and
    leaves the later fields as they were. *)
Definition scan_conn_line (line : string) (s : screen_s) (i : Z) : screen_s :=
  let colon := [":"%char] in
  let last := [":"%char; "010"%char] in
  match Libc.scan_set_not colon line with
  | None => set_conn s (host s) (port s) (dbname s) (user s) (password s) i
  | Some (ho, r) =>
    match bind (Libc.scan_lit ":"%char r) (Libc.scan_set_not colon) with
    | None => set_conn s ho (port s) (dbname s) (user s) (password s) i
    | Some (po, r) =>
      match bind (Libc.scan_lit ":"%char r) (Libc.scan_set_not colon) with
      | None => set_conn s ho po (dbname s) (user s) (password s) i
      | Some (db, r) =>
        match bind (Libc.scan_lit ":"%char r) (Libc.scan_set_not colon) with
        | None => set_conn s ho po db (user s) (password s) i
        | Some (us, r) =>
          match bind (Libc.scan_lit ":"%char r) (Libc.scan_set_not last) with
          | None => set_conn s ho po db us (password s) i
          | Some (pw, _) => set_conn s ho po db us pw i
          end
        end
      end
    end
  end.

(** The [while (fgets ...)] loop; [screens[i]] past the end of the array
    is [None]. *)
Fixpoint read_conn_lines (lines : list string) (screens : list screen_s)
    (i : nat) : option (list screen_s) :=
  match lines with
  | [] => Some screens
  | line :: rest =>
      s <- nth_error screens i ;;
      read_conn_lines rest
        (set_nth i (scan_conn_line line s (Z.of_nat i)) screens) (S i)
  end.

(** [file] is [None] when [access(path, F_OK)] fails. *)
Definition create_pgcenterrc_conn (h : pgcenter_h) (pw_dir : string)
    (file : option rc_file) (screens : list screen_s) (pos : nat)
  : option (rc_status * list screen_s * list event) :=
  let pgcenterrc_path := (pw_dir ++ "/" ++ PGCENTERRC_FILE h)%string in
  match file with
  | None => Some (PGCENTERRC_READ_ERR, screens, [])
  | Some f =>
      if negb (Z.land (st_mode f) (Z.lor S_IRWXG S_IRWXO) =? 0) then
        Some (PGCENTERRC_READ_ERR, screens,
              [Stderr ("WARNING: " ++ pgcenterrc_path
                       ++ " has wrong permissions.")%string])
      else
        match rc_lines f with
        | Some lines =>
            screens' <- read_conn_lines lines screens pos ;;
            Some (PGCENTERRC_READ_OK, screens', [])
        | None =>
            Some (PGCENTERRC_READ_ERR, screens,
                  [Stdout ("WARNING: failed to open " ++ pgcenterrc_path
                           ++ ". Try use defaults.")%string])
        end
  end.

(* ================================================================== *)
(** ** main: one turn of the loop *)

(** The variables of [main] that live across iterations.  [n_prev_rows]
    has no initialiser: [None] until its first assignment.  [p_res] has
    none either, but is always assigned before it is read. *)
Record main_state : Type := {
  screens : list screen_s;
  first_iter : bool;
  console_no : Z;
  console_index : Z;
  p_res : option PGresult;
  n_prev_rows : option Z
}.

Definition initial_state (scr : list screen_s) : main_state :=
  {| screens := scr; first_iter := true; console_no := 1;
     console_index := 0; p_res := None; n_prev_rows := None |}.

Definition current_screen (st : main_state) : option screen_s :=
  nth_error (screens st) (Z.to_nat (console_index st)).

Definition set_current_screen (st : main_state) (s : screen_s)
    (fi : bool) : main_state :=
  {| screens := set_nth (Z.to_nat (console_index st)) s (screens st);
     first_iter := fi; console_no := console_no st;
     console_index := console_index st; p_res := p_res st;
     n_prev_rows := n_prev_rows st |}.

Definition set_console (st : main_state) (index : Z) : main_state :=
  {| screens := screens st; first_iter := first_iter st;
     console_no := index + 1; console_index := index;
     p_res := p_res st; n_prev_rows := n_prev_rows st |}.

Definition set_baseline (st : main_state) (fi : bool)
    (res : option PGresult) (rows : option Z) : main_state :=
  {| screens := screens st; first_iter := fi;
     console_no := console_no st; console_index := console_index st;
     p_res := res; n_prev_rows := rows |}.

Definition switch_conn (scr : list screen_s) (ch console_index console_no : Z)
  : option (Z * list event) :=
  s <- nth_error scr (Z.to_nat (ch - 48 - 1)) ;;
  if conn_used s then
    Some (ch - 48 - 1,
          [Wprintw ("Switch to another pgbouncer connection (console "
                    ++ Libc.format_d (ch - 48) ++ ")")%string])
  else
    Some (console_index,
          [Wprintw ("Do not switch because no connection associated "
                    ++ "(stay on console "
                    ++ Libc.format_d console_no ++ ")")%string]).

(** [getch] in no-delay mode: [ERR] when no key is waiting. *)
Definition ERR : Z := -1.

Definition getch (keys : list Z) : Z * list Z :=
  match keys with
  | [] => (ERR, [])
  | ch :: rest => (ch, rest)
  end.

Definition is_key (ch : Z) (c : ascii) : bool := ch =? Libc.code c.

(** The view keys: the message, the new view, [*first_iter = true]. *)
Definition show_view (st : main_state) (msg : string) (c : context)
    (keys : list Z) : option (main_state * list event * list Z) :=
  s <- current_screen st ;;
  Some (set_current_screen st (set_current_context s c) true,
        [Wprintw msg], keys).

Definition arrow (h : pgcenter_h) (st : main_state) (increment : bool)
    (keys : list Z) : option (main_state * list event * list Z) :=
  s <- current_screen st ;;
  let '(s', fi) := change_sort_order h s increment (first_iter st) in
  Some (set_current_screen st s' fi, [], keys).

(** The [switch (ch)] of the main loop; [keys] are the keys waiting after
    [ch]. *)
Definition main_key (h : pgcenter_h) (st : main_state) (ch : Z)
    (keys : list Z) : option (main_state * list event * list Z) :=
  if (Libc.code "1" <=? ch) && (ch <=? Libc.code "8") then
    '(index, ev) <- switch_conn (screens st) ch (console_index st)
                      (console_no st) ;;
    Some (set_console st index, ev, keys)
  else if ch =? 27 then
    let '(_, keys) := getch keys in
    let '(c, keys) := getch keys in
    if is_key c "C" then arrow h st true keys
    else if is_key c "D" then arrow h st false keys
    else Some (st, [], keys)
  else if is_key ch "d" then
    show_view st "Show pg_stat_database" pg_stat_database keys
  else if is_key ch "r" then
    show_view st "Show pg_stat_replication" pg_stat_replication keys
  else if is_key ch "t" then
    show_view st "Show pg_stat_user_tables" pg_stat_user_tables keys
  else if is_key ch "i" then
    show_view st "Show pg_stat_user_indexes" pg_stat_user_indexes keys
  else if is_key ch "y" then
    show_view st "Show pg_statio_user_tables" pg_statio_user_tables keys
  else if is_key ch "s" then
    show_view st "Show relations sizes" pg_tables_size keys
  else if is_key ch "l" then
    s <- current_screen st ;;
    show_view st
      ("Show long transactions (transactions and queries threshold: "
       ++ pg_stat_activity_min_age s ++ ")")%string
      pg_stat_activity_long keys
  else if is_key ch "m" then
    s <- current_screen st ;;
    if context_eqb (current_context s) pg_stat_activity_long then
      '(s', ev, keys) <- change_min_age h s keys ;;
      Some (set_current_screen st s' true, ev, keys)
    else Some (st, [Wprintw "Not allowed here."], keys)
  else if is_key ch "f" then
    show_view st "Show pg_stat_user_functions" pg_stat_user_functions keys
  else Some (st, [Wprintw "Unknown command - try 'h' for help."], keys).

(** The [else] branch of the main loop, from [prepare_query] on (the
    summary window above it does not touch the variables of [main_state]).
    [server i q] is what [PQexec(conns[i], q)] returns. *)
Definition main_refresh (h : pgcenter_h) (st : main_state)
    (server : Z -> string -> PQexec_result)
  : option (main_state * list event) :=
  s <- current_screen st ;;
  let query := prepare_query h s in
  let '(c_res, ev) := do_query h (server (console_index st) query) in
  let n_rows := PQntuples c_res in
  let n_cols := PQnfields c_res in
  if first_iter st then
    Some (set_baseline st false c_res (n_prev_rows st),
          ev ++ [Usleep 10000])
  else
    prev <- n_prev_rows st ;;
    if prev <? n_rows then
      Some (set_baseline st (first_iter st) c_res (Some n_rows),
            ev ++ [Usleep 10000])
    else
      p_arr <- pgrescpy (p_res st) n_rows n_cols ;;
      c_arr <- pgrescpy c_res n_rows n_cols ;;
      let r_arr :=
        diff_arrays h p_arr c_arr (current_context s) n_rows n_cols in
      r_arr <- sort_array h r_arr n_rows n_cols s ;;
      Some (set_baseline st (first_iter st) c_res (Some n_rows),
            ev ++ [print_data c_res r_arr n_rows n_cols s; Sleep 1]).

(** One iteration: a waiting key is handled, otherwise the data are
    refreshed. *)
Definition main_iteration (h : pgcenter_h) (st : main_state)
    (keys : list Z) (server : Z -> string -> PQexec_result)
  : option (main_state * list event * list Z) :=
  match keys with
  | ch :: rest => main_key h st ch rest
  | [] => '(st', ev) <- main_refresh h st server ;; Some (st', ev, [])
  end.

(** Whether a turn of the loop drew the data window. *)
Definition is_PrintData (e : event) : bool :=
  match e with
  | PrintData _ _ _ => true
  | _ => false
  end.

Definition renders (ev : list event) : bool := existsb is_PrintData ev.

(* ================================================================== *)
(** ** Reading the header constants *)

(** The index and the initial sort key that [init_screens] gives a view. *)
Definition context_num (h : pgcenter_h) (c : context) : nat :=
  match c with
  | pg_stat_database => PG_STAT_DATABASE_NUM h
  | pg_stat_replication => PG_STAT_REPLICATION_NUM h
  | pg_stat_user_tables => PG_STAT_USER_TABLES_NUM h
  | pg_stat_user_indexes => PG_STAT_USER_INDEXES_NUM h
  | pg_statio_user_tables => PG_STATIO_USER_TABLES_NUM h
  | pg_tables_size => PG_TABLES_SIZE_NUM h
  | pg_stat_activity_long => PG_STAT_ACTIVITY_LONG_NUM h
  | pg_stat_user_functions => PG_STAT_USER_FUNCTIONS_NUM h
  end.

Definition initial_order_key (h : pgcenter_h) (c : context) : Z :=
  match c with
  | pg_stat_database => PG_STAT_DATABASE_ORDER_MIN h
  | pg_stat_replication => PG_STAT_REPLICATION_ORDER_MIN h
  | pg_stat_user_tables => PG_STAT_USER_TABLES_ORDER_MIN h
  | pg_stat_user_indexes => PG_STAT_USER_INDEXES_ORDER_MIN h
  | pg_statio_user_tables => PG_STATIO_USER_TABLES_ORDER_MIN h
  | pg_tables_size => PG_TABLES_SIZE_ORDER_MIN h
  | pg_stat_activity_long => PG_STAT_ACTIVITY_LONG_ORDER_MIN h
  | pg_stat_user_functions => PG_STAT_USER_FUNCTIONS_ORDER_MIN h
  end.

Fixpoint distinct (l : list nat) : bool :=
  match l with
  | [] => true
  | n :: r => negb (existsb (Nat.eqb n) r) && distinct r
  end.

(** The eight [*_NUM] constants index [context_list] one to one. *)
Definition nums_ok (h : pgcenter_h) : bool :=
  let nums := map (context_num h) all_contexts in
  distinct nums
  && forallb (fun n => (n <? TOTAL_CONTEXTS h)%nat) nums
  && forallb (fun m => existsb (Nat.eqb m) nums) (seq 0 (TOTAL_CONTEXTS h)).

(** A header to evaluate the definitions with. *)
Definition example_h : pgcenter_h :=
  {| MAX_CONSOLE := 8; TOTAL_CONTEXTS := 8;
     DEFAULT_QUERY_CONTEXT := pg_stat_database;
     INVALID_ORDER_KEY := -1;
     PG_TUP_OK := PGRES_TUPLES_OK;
     MIN_AGE_SIZE := 16;
     BUFFERSIZE_S := 16;
     PG_STAT_ACTIVITY_MIN_AGE_DEFAULT := "00:00:00";
     PGCENTERRC_FILE := ".pgcenterrc";
     PG_STAT_DATABASE_NUM := 0; PG_STAT_REPLICATION_NUM := 1;
     PG_STAT_USER_TABLES_NUM := 2; PG_STAT_USER_INDEXES_NUM := 3;
     PG_STATIO_USER_TABLES_NUM := 4; PG_TABLES_SIZE_NUM := 5;
     PG_STAT_ACTIVITY_LONG_NUM := 6; PG_STAT_USER_FUNCTIONS_NUM := 7;
     PG_STAT_DATABASE_ORDER_MIN := 1; PG_STAT_DATABASE_ORDER_MAX := 5;
     PG_STAT_REPLICATION_ORDER_MIN := 6; PG_STAT_REPLICATION_ORDER_MAX := 9;
     PG_STAT_USER_TABLES_ORDER_MIN := 1; PG_STAT_USER_TABLES_ORDER_MAX := 8;
     PG_STAT_USER_INDEXES_ORDER_MIN := 1; PG_STAT_USER_INDEXES_ORDER_MAX := 3;
     PG_STATIO_USER_TABLES_ORDER_MIN := 1;
     PG_STATIO_USER_TABLES_ORDER_MAX := 8;
     PG_TABLES_SIZE_ORDER_MIN := 4; PG_TABLES_SIZE_ORDER_MAX := 6;
     PG_STAT_ACTIVITY_LONG_ORDER_MIN := -1;
     PG_STAT_ACTIVITY_LONG_ORDER_MAX := -1;
     PG_STAT_USER_FUNCTIONS_ORDER_MIN := 1;
     PG_STAT_USER_FUNCTIONS_ORDER_MAX := 4;
     PG_STAT_USER_FUNCTIONS_DIFF_COL := 4;
     PG_STAT_DATABASE_QUERY := "SELECT d";
     PG_STAT_REPLICATION_QUERY := "SELECT r";
     PG_STAT_USER_TABLES_QUERY := "SELECT t";
     PG_STAT_USER_INDEXES_QUERY := "SELECT i";
     PG_STATIO_USER_TABLES_QUERY := "SELECT y";
     PG_TABLES_SIZE_QUERY := "SELECT s";
     PG_STAT_ACTIVITY_LONG_QUERY_P1 := "SELECT l WHERE a > '";
     PG_STAT_ACTIVITY_LONG_QUERY_P2 := "' OR b > '";
     PG_STAT_ACTIVITY_LONG_QUERY_P3 := "'";
     PG_STAT_USER_FUNCTIONS_QUERY_P1 := "SELECT f ORDER BY ";
     PG_STAT_USER_FUNCTIONS_QUERY_P2 := " DESC" |}.

(** An array of [n_rows] rows of [n_cols] cells each. *)
Definition shape (arr : array) (n_rows n_cols : Z) : Prop :=
  List.length arr = Z.to_nat n_rows
  /\ Forall (fun row => List.length row = Z.to_nat n_cols) arr.

(** A result as libpq builds it: one value per column in every tuple. *)
Definition well_formed (r : PGresult) : Prop :=
  Forall (fun row => List.length row = List.length (fnames r)) (tuples r).

(** A string in which [atoll] finds no number: after the white space and
    the sign, the next character is not a digit. *)
Definition unparsable (s : string) : bool :=
  match snd (Libc.read_sign (Libc.skip_spaces s)) with
  | String c _ => negb (Libc.isdigit c)
  | EmptyString => true
  end.

(** When [sort_array] runs without reading an unassigned local or a
    column that is not there. *)
Definition sort_defined (h : pgcenter_h) (s : screen_s) (n_rows n_cols : Z)
  : Prop :=
  current_context s = pg_stat_user_functions
  \/ exists k d,
       lookup_order s = Some (k, d)
       /\ (k = INVALID_ORDER_KEY h \/ n_rows < 2 \/ 0 <= k < n_cols).

(** [server] answers the query of screen [s] on console [i] with the
    tuples of [r]. *)
Definition answers (h : pgcenter_h) (server : Z -> string -> PQexec_result)
    (i : Z) (s : screen_s) (r : PGresult) : Prop :=
  server i (prepare_query h s)
  = {| exec_status := PG_TUP_OK h; exec_data := r |}.

Definition no_data : string := "We didn't get any data.".

(** Values to evaluate the main loop with. *)
Definition two_rows : PGresult :=
  {| fnames := ["datname"; "commits"];
     tuples := [["a"; "10"]; ["b"; "20"]] |}.

Definition three_rows : PGresult :=
  {| fnames := ["datname"; "commits"];
     tuples := [["a"; "12"]; ["b"; "50"]; ["c"; "7"]] |}.

Definition three_rows_later : PGresult :=
  {| fnames := ["datname"; "commits"];
     tuples := [["a"; "15"]; ["b"; "90"]; ["c"; "8"]] |}.

Definition one_wide_row : PGresult :=
  {| fnames := ["relname"; "seq_scan"; "idx_scan"];
     tuples := [["t"; "4"; "11"]] |}.

Definition steady_server (r : PGresult) : Z -> string -> PQexec_result :=
  fun _ _ => {| exec_status := PGRES_TUPLES_OK; exec_data := r |}.

Definition failing_server : Z -> string -> PQexec_result :=
  fun _ _ => {| exec_status := PGRES_FATAL_ERROR;
                exec_data := {| fnames := []; tuples := [] |} |}.

(** The program a few turns after its start: console 1, the databases
    view, [two_rows] as the baseline. *)
Definition settled_state : main_state :=
  {| screens := init_screens example_h; first_iter := false;
     console_no := 1; console_index := 0;
     p_res := Some two_rows; n_prev_rows := Some 2 |}.

(** Two consoles with a connection each, read from a connection file. *)
Definition two_consoles : list screen_s :=
  match read_conn_lines
          ["alpha:5432:db:u:secret" ++ String "010"%char EmptyString;
           "beta:5433:db:u:secret" ++ String "010"%char EmptyString]%string
          (init_screens example_h) 0 with
  | Some scr => scr
  | None => []
  end.

Definition on_first_console : main_state :=
  {| screens := two_consoles; first_iter := false;
     console_no := 1; console_index := 0;
     p_res := Some two_rows; n_prev_rows := Some 2 |}.

Definition other_console_row : PGresult :=
  {| fnames := ["datname"; "commits"]; tuples := [["x"; "100"]] |}.

(** Console 1 answers with [two_rows], console 2 with one row. *)
Definition per_console_server : Z -> string -> PQexec_result :=
  fun i _ =>
    {| exec_status := PGRES_TUPLES_OK;
       exec_data := if i =? 0 then two_rows else other_console_row |}.

(** Connection files: one line, mode 0600 and mode 0644 on a regular
    file. *)
Definition rc_line : string :=
  "127.0.0.1:5432:db:u:secret" ++ String "010"%char EmptyString.

Definition rc_private : rc_file :=
  {| st_mode := 33152; rc_lines := Some [rc_line] |}.   (* 0100600 *)

Definition rc_world_readable : rc_file :=
  {| st_mode := 33188; rc_lines := Some [rc_line] |}.   (* 0100644 *)

(** A group or other permission bit: bits 0 to 5 of the mode. *)
Definition group_other_bit (mode : Z) : Prop :=
  exists b, 0 <= b < 6 /\ Z.testbit mode b = true.

(** What [ll_sp_value] gives for a pair of values and an interval. *)
Definition clamped (value1 value2 itv : Z) (pct : float) : Prop :=
  (value2 < value1 -> pct = 0%float)
  /\ (value1 <= value2 -> pct = SP_VALUE value1 value2 itv).

(** The time that [write_cpu_stat_raw] counts as system time. *)
Definition sys_time (c : stats_cpu_struct) : Z :=
  uadd (uadd (cpu_sys c) (cpu_softirq c)) (cpu_hardirq c).

(** Two samples: the [sys] counter goes back from 100 to 90 while
    [softirq] advances by 50. *)
Definition sample_before : stats_cpu_struct :=
  {| cpu_user := 0; cpu_nice := 0; cpu_sys := 100; cpu_idle := 1000;
     cpu_iowait := 0; cpu_steal := 0; cpu_hardirq := 0; cpu_softirq := 0;
     cpu_guest := 0; cpu_guest_nice := 0 |}.

Definition sample_after : stats_cpu_struct :=
  {| cpu_user := 0; cpu_nice := 0; cpu_sys := 90; cpu_idle := 1060;
     cpu_iowait := 0; cpu_steal := 0; cpu_hardirq := 0; cpu_softirq := 50;
     cpu_guest := 0; cpu_guest_nice := 0 |}.

(** Scenario S4 of the spec: [user] goes from 100 to 90. *)
Definition user_before : stats_cpu_struct :=
  {| cpu_user := 100; cpu_nice := 0; cpu_sys := 10; cpu_idle := 1000;
     cpu_iowait := 0; cpu_steal := 0; cpu_hardirq := 0; cpu_softirq := 0;
     cpu_guest := 0; cpu_guest_nice := 0 |}.

Definition user_after : stats_cpu_struct :=
  {| cpu_user := 90; cpu_nice := 0; cpu_sys := 20; cpu_idle := 1100;
     cpu_iowait := 0; cpu_steal := 0; cpu_hardirq := 0; cpu_softirq := 0;
     cpu_guest := 0; cpu_guest_nice := 0 |}.

(** The keys that type [s]. *)
Definition keys_of (s : string) : list Z :=
  map Libc.code (list_ascii_of_string s).

Definition min_age_prompt : event :=
  Wprintw "Enter new min age, format: HH:MM:SS[.NN]: ".

Definition min_age_refused : event :=
  Wprintw "Nothing to do. Failed read or invalid value.".

(** The format of the spec, in its words: [HH:MM:SS[.nn]], two digits for
    each of hour, minute and second, hour below 24, minute and second
    below 60, and possibly a point and a fraction in digits. *)
Definition two_digits (a b : ascii) : option Z :=
  if Libc.isdigit a && Libc.isdigit b
  then Some (10 * (Libc.code a - 48) + (Libc.code b - 48))
  else None.

Fixpoint all_digits (s : string) : bool :=
  match s with
  | String c r => Libc.isdigit c && all_digits r
  | EmptyString => true
  end.

Definition spec_valid_min_age (s : string) : bool :=
  match s with
  | String h1 (String h2 (String ":" (String m1 (String m2
      (String ":" (String s1 (String s2 rest))))))) =>
      match two_digits h1 h2, two_digits m1 m2, two_digits s1 s2 with
      | Some hh, Some mm, Some ss =>
          (hh <? 24) && (mm <? 60) && (ss <? 60)
          && match rest with
             | EmptyString => true
             | String "." frac => all_digits frac
             | _ => false
             end
      | _, _, _ => false
      end
  | _ => false
  end.

(** The sort key of the active view, as [sort_array] and [print_data]
    look it up. *)
Definition current_order_key (s : screen_s) : option Z :=
  match lookup_order s with
  | Some (k, _) => Some k
  | None => None
  end.

(** An arrow key on a screen: right for [true], left for [false]. *)
Definition press (h : pgcenter_h) (increment : bool) (s : screen_s)
  : screen_s :=
  fst (change_sort_order h s increment false).

(** What one arrow key does to a key [k] within [[min, max]]. *)
Definition next_key (min max : Z) (increment : bool) (k : Z) : Z :=
  if increment then (if k + 1 >? max then min else k + 1)
  else (if k - 1 <? min then max else k - 1).

(** The entry that [init_screens] writes for a view. *)
Definition initial_entry (h : pgcenter_h) (c : context) : context_s :=
  {| ctx := c; order_key := initial_order_key h c; order_desc := true |}.

(** The number a row is compared by: [atoll] of its cell in column [k]. *)
Definition row_key (k : nat) (row : list string) : Z :=
  Libc.atoll (nth k row "").

(** The order asked for: larger numbers first when [desc], smaller first
    otherwise. *)
Definition in_order (desc : bool) (k : nat) (r1 r2 : list string) : Prop :=
  if desc then row_key k r2 <= row_key k r1
  else row_key k r1 <= row_key k r2.

(** The same loops over whole rows: entries [i] and [j] change places when
    the one at [j] ranks higher. *)
Definition swap {A : Type} (d : A) (l : list A) (i j : nat) : list A :=
  set_nth j (nth i l d) (set_nth i (nth j l d) l).

Definition exchange_step {A : Type} (rank : A -> Z) (d : A) (i : nat)
    (l : list A) (j : nat) : list A :=
  if rank (nth j l d) >? rank (nth i l d) then swap d l i j else l.

Definition exchange_inner {A : Type} (rank : A -> Z) (d : A) (n : nat)
    (l : list A) (i : nat) : list A :=
  fold_left (exchange_step rank d i) (seq (S i) (n - S i)) l.

Definition exchange_sort {A : Type} (rank : A -> Z) (d : A) (n : nat)
    (l : list A) : list A :=
  fold_left (exchange_inner rank d n) (seq 0 n) l.

Definition row_rank (desc : bool) (k : nat) (row : list string) : Z :=
  if desc then row_key k row else - row_key k row.

(** A user-functions screen with two rows that are not in descending
    order of column 1. *)
Definition functions_screen : screen_s :=
  set_current_context (init_screen example_h 0) pg_stat_user_functions.

Definition functions_rows : array := [["f"; "1"]; ["g"; "2"]].

Definition unsorted_rows : array := [["a"; "5"]; ["b"; "30"]; ["c"; "12"]].

(** The key that selects a view in the [switch] of the main loop. *)
Definition view_key (c : context) : ascii :=
  match c with
  | pg_stat_database => "d"
  | pg_stat_replication => "r"
  | pg_stat_user_tables => "t"
  | pg_stat_user_indexes => "i"
  | pg_statio_user_tables => "y"
  | pg_tables_size => "s"
  | pg_stat_activity_long => "l"
  | pg_stat_user_functions => "f"
  end%char.

(** The message that goes with a view key. *)
Definition view_message (c : context) (s : screen_s) : string :=
  match c with
  | pg_stat_database => "Show pg_stat_database"
  | pg_stat_replication => "Show pg_stat_replication"
  | pg_stat_user_tables => "Show pg_stat_user_tables"
  | pg_stat_user_indexes => "Show pg_stat_user_indexes"
  | pg_statio_user_tables => "Show pg_statio_user_tables"
  | pg_tables_size => "Show relations sizes"
  | pg_stat_activity_long =>
      ("Show long transactions (transactions and queries threshold: "
       ++ pg_stat_activity_min_age s ++ ")")%string
  | pg_stat_user_functions => "Show pg_stat_user_functions"
  end.

(** A key that [cmd_readline] stores: not Escape, not Enter, none of the
    erasing keys, and not one that is stored as NUL. *)
Definition plain_key (ch : Z) : bool :=
  negb (ch =? 27) && negb (ch =? 10)
  && negb ((ch =? KEY_BACKSPACE) || (ch =? KEY_DC) || (ch =? 127))
  && negb (ch mod 256 =? 0).

Definition plain_text (t : string) : bool :=
  forallb (fun c => plain_key (Libc.code c)) (list_ascii_of_string t).

(** Keys among which the entry does not end. *)
Definition no_end_key (keys : list Z) : bool :=
  forallb (fun ch => negb (ch =? 27) && negb (ch =? 10)) keys.

Definition erasing_key (ch : Z) : bool :=
  (ch =? KEY_BACKSPACE) || (ch =? KEY_DC) || (ch =? 127).

Definition cancelled : event := Wprintw "Do nothing. Operation canceled. ".

(** Arrow keys one after the other: right for [true], left for [false]. *)
Definition arrows (h : pgcenter_h) (bs : list bool) (s : screen_s)
  : screen_s :=
  fold_left (fun s b => press h b s) bs s.

(** ** calculate_width and the characters print_data writes *)

Definition strlen (s : string) : Z := Z.of_nat (String.length s).

(** [struct colAttrs]. *)
Record colAttrs : Type := {
  name : string;
  width : Z
}.

(** The inner loop of [calculate_width] and the [+ 2]. *)
Definition column_width (colname : string) (arr : array) (n_rows : Z)
    (col : nat) : Z :=
  fold_left
    (fun width row =>
       let val_len := strlen (cell arr row col) in
       if val_len >=? width then val_len else width)
    (seq 0 (Z.to_nat n_rows)) (strlen colname)
  + 2.

(** A [NULL] from [PQfname] is copied by [strcpy]: [None]. *)
Definition calculate_width (res : option PGresult) (arr : array)
    (n_rows n_cols : Z) : option (list colAttrs) :=
  mapM (fun col =>
          colname <- PQfname res col ;;
          Some {| name := colname;
                  width := column_width colname arr n_rows col |})
       (seq 0 (Z.to_nat n_cols)).

Fixpoint spaces (n : nat) : string :=
  match n with
  | O => EmptyString
  | S n' => String " " (spaces n')
  end.

(** [wprintw(window, "%-*s", w, s)]: [s], then spaces up to [w]
    characters. *)
Definition left_justified (w : Z) (s : string) : string :=
  (s ++ spaces (Z.to_nat (w - strlen s)))%string.

Definition join (l : list string) : string :=
  fold_right String.append EmptyString l.

Definition newline : string := String "010"%char EmptyString.

(** The lines that [print_data] writes, the header first; the bold and
    reverse attributes of the header are left out. *)
Definition print_data_text (res : option PGresult) (arr : array)
    (n_rows n_cols : Z) : option (list string) :=
  columns <- calculate_width res arr n_rows n_cols ;;
  let w x := width (nth x columns {| name := ""; width := 0 |}) in
  header <- mapM (fun j => colname <- PQfname res j ;;
                           Some (left_justified (w j) colname))
              (seq 0 (Z.to_nat n_cols)) ;;
  let rows :=
    map (fun i =>
           (join (map (fun j => left_justified (w j) (cell arr i j))
                    (seq 0 (Z.to_nat n_cols)))
            ++ newline)%string)
        (seq 0 (Z.to_nat n_rows)) in
  Some ((join header ++ newline)%string :: rows).

(** The sum of the widths of the columns. *)
Definition total_width (columns : list colAttrs) : Z :=
  fold_right (fun c acc => width c + acc) 0 columns.

(** ** prepare_conninfo *)

Definition set_conninfo (s : screen_s) (ci : string) : screen_s :=
  {| screen := screen s; conn_used := conn_used s; host := host s;
     port := port s; user := user s; dbname := dbname s;
     password := password s; conninfo := ci;
     log_opened := log_opened s; current_context := current_context s;
     pg_stat_activity_min_age := pg_stat_activity_min_age s;
     context_list := context_list s |}.

(** The [strcat]s on one screen. *)
Definition screen_conninfo (s : screen_s) : string :=
  let ci := (conninfo s ++ "host=" ++ host s ++ " port=" ++ port s
             ++ " user=" ++ user s ++ " dbname=" ++ dbname s)%string in
  if negb (String.length (password s) =? 0)%nat
  then (ci ++ " password=" ++ password s)%string
  else ci.

(** The array has [MAX_CONSOLE] screens and the loop visits them all. *)
Definition prepare_conninfo (screens : list screen_s) : list screen_s :=
  map (fun s => if conn_used s then set_conninfo s (screen_conninfo s)
                else s)
      screens.

(** A field of a line of the connection file: a C string that is not
    empty and has none of the characters that end the field. *)
Definition field_ok (stop : list ascii) (f : string) : bool :=
  negb (String.length f =? 0)%nat
  && forallb (fun c => negb (existsb (Ascii.eqb c) (Ascii.zero :: stop)))
       (list_ascii_of_string f).

(** A line of the connection file with its five fields. *)
Definition conn_line (ho po db us pw : string) : string :=
  (ho ++ ":" ++ po ++ ":" ++ db ++ ":" ++ us ++ ":" ++ pw ++ newline)%string.

(** The same line without the password. *)
Definition conn_line_no_password (ho po db us : string) : string :=
  (ho ++ ":" ++ po ++ ":" ++ db ++ ":" ++ us ++ newline)%string.

(** ** create_initial_conn *)

Inductive trivalue : Type := TRI_DEFAULT | TRI_NO | TRI_YES.

(** What the function takes from outside [pgcenter.c]: the two default
    strings of the header, the login name in [pw->pw_name] and the line
    that [password_prompt] hands back. *)
Record conn_env : Type := {
  DEFAULT_HOST : string;
  DEFAULT_PORT : string;
  pw_name : string;
  typed_password : string
}.

Definition set_host (s : screen_s) (v : string) : screen_s :=
  {| screen := screen s; conn_used := conn_used s; host := v;
     port := port s; user := user s; dbname := dbname s;
     password := password s; conninfo := conninfo s;
     log_opened := log_opened s; current_context := current_context s;
     pg_stat_activity_min_age := pg_stat_activity_min_age s;
     context_list := context_list s |}.

Definition set_port (s : screen_s) (v : string) : screen_s :=
  {| screen := screen s; conn_used := conn_used s; host := host s;
     port := v; user := user s; dbname := dbname s;
     password := password s; conninfo := conninfo s;
     log_opened := log_opened s; current_context := current_context s;
     pg_stat_activity_min_age := pg_stat_activity_min_age s;
     context_list := context_list s |}.

Definition set_user (s : screen_s) (v : string) : screen_s :=
  {| screen := screen s; conn_used := conn_used s; host := host s;
     port := port s; user := v; dbname := dbname s;
     password := password s; conninfo := conninfo s;
     log_opened := log_opened s; current_context := current_context s;
     pg_stat_activity_min_age := pg_stat_activity_min_age s;
     context_list := context_list s |}.

Definition set_dbname (s : screen_s) (v : string) : screen_s :=
  {| screen := screen s; conn_used := conn_used s; host := host s;
     port := port s; user := user s; dbname := v;
     password := password s; conninfo := conninfo s;
     log_opened := log_opened s; current_context := current_context s;
     pg_stat_activity_min_age := pg_stat_activity_min_age s;
     context_list := context_list s |}.

Definition set_password (s : screen_s) (v : string) : screen_s :=
  {| screen := screen s; conn_used := conn_used s; host := host s;
     port := port s; user := user s; dbname := dbname s;
     password := v; conninfo := conninfo s;
     log_opened := log_opened s; current_context := current_context s;
     pg_stat_activity_min_age := pg_stat_activity_min_age s;
     context_list := context_list s |}.

Definition set_conn_used (s : screen_s) : screen_s :=
  {| screen := screen s; conn_used := true; host := host s;
     port := port s; user := user s; dbname := dbname s;
     password := password s; conninfo := conninfo s;
     log_opened := log_opened s; current_context := current_context s;
     pg_stat_activity_min_age := pg_stat_activity_min_age s;
     context_list := context_list s |}.

(** The [switch] on what [getopt_long] returns, with [optarg]; [None] is
    the [default] branch, which ends the program. *)
Definition take_option (param : ascii) (optarg : string)
    (st : screen_s * trivalue) : option (screen_s * trivalue) :=
  let '(s, prompt_password) := st in
  if Ascii.eqb param "h" then Some (set_host s optarg, prompt_password)
  else if Ascii.eqb param "p" then Some (set_port s optarg, prompt_password)
  else if Ascii.eqb param "U" then Some (set_user s optarg, prompt_password)
  else if Ascii.eqb param "d" then
    Some (set_dbname s optarg, prompt_password)
  else if Ascii.eqb param "w" then Some (s, TRI_NO)
  else if Ascii.eqb param "W" then Some (s, TRI_YES)
  else None.

Fixpoint take_options (opts : list (ascii * string))
    (st : screen_s * trivalue) : option (screen_s * trivalue) :=
  match opts with
  | [] => Some st
  | (param, optarg) :: rest =>
      st' <- take_option param optarg st ;;
      take_options rest st'
  end.

Definition dquote : string := String "034"%char EmptyString.

Definition extra_argument (argv0 arg : string) : event :=
  Stderr (argv0 ++ ": warning: extra command-line argument " ++ dquote
          ++ arg ++ dquote ++ " ignored" ++ newline)%string.

(** The loop over the arguments that are left after the options; [args]
    is [argv] from [optind] on, so [argc - optind] is its length. *)
Fixpoint take_arguments (argv0 : string) (args : list string)
    (s : screen_s) : screen_s * list event :=
  match args with
  | [] => (s, [])
  | arg :: rest =>
      let left := Z.of_nat (List.length args) in
      let '(s', ev) :=
        if (1 <? left) && (strlen (user s) =? 0)
           && (strlen (dbname s) =? 0)
        then (set_user s arg, [])
        else if (1 <=? left) && (strlen (dbname s) =? 0)
        then (set_dbname s arg, [])
        else (s, [extra_argument argv0 arg]) in
      let '(s'', ev') := take_arguments argv0 rest s' in
      (s'', ev ++ ev')
  end.

(** The five [if]s after the loops and the last assignment. *)
Definition fill_defaults (e : conn_env) (prompt_password : trivalue)
    (s : screen_s) : screen_s :=
  let s := if strlen (host s) =? 0 then set_host s (DEFAULT_HOST e) else s in
  let s := if strlen (port s) =? 0 then set_port s (DEFAULT_PORT e) else s in
  let s := if strlen (user s) =? 0 then set_user s (pw_name e) else s in
  let s := match prompt_password with
           | TRI_YES => set_password s (typed_password e)
           | _ => s
           end in
  let s := if negb (strlen (user s) =? 0) && (strlen (dbname s) =? 0)
           then set_dbname s (user s) else s in
  set_conn_used s.

Inductive startup : Type :=
| Exited (ev : list event)
| Started (s : screen_s) (ev : list event).

(** The function from its options loop on, for [screens[0]]: [opts] is
    what [getopt_long] returns call after call and [args] what it leaves
    from [optind] on.  The tests of [argv[1]] for the help and the version
    come before and are not part of this. *)
Definition create_initial_conn (e : conn_env) (argv0 : string)
    (opts : list (ascii * string)) (args : list string) (s : screen_s)
  : startup :=
  match take_options opts (s, TRI_DEFAULT) with
  | None =>
      Exited [Stderr ("Try " ++ dquote ++ argv0 ++ " --help" ++ dquote
                      ++ " for more information." ++ newline)%string]
  | Some (s, prompt_password) =>
      let '(s, ev) := take_arguments argv0 args s in
      Started (fill_defaults e prompt_password s) ev
  end.

(** A command line without options: [pgcenter a b c]. *)
Definition example_env : conn_env :=
  {| DEFAULT_HOST := "/tmp"; DEFAULT_PORT := "5432"; pw_name := "postgres";
     typed_password := "" |}.

(** ** print_postgres_activity *)

(** [atoi]: glibc's [(int) strtol(s, NULL, 10)], a 64-bit [long] narrowed
    to a 32-bit [int]. *)
Definition wrap_s32 (z : Z) : Z := (z + 2 ^ 31) mod 2 ^ 32 - 2 ^ 31.

Definition atoi (s : string) : Z := wrap_s32 (Libc.strtoll s).

(** [%3i]: the number, with spaces before it up to three characters. *)
Definition format_3i (z : Z) : string :=
  let d := Libc.format_d z in
  (spaces (3 - String.length d) ++ d)%string.

(** [atoi(PQgetvalue(do_query(conn, query), 0, 0))]: [PQgetvalue] answers
    [NULL] for no result, no row or no column, and [atoi] reads through
    it. *)
Definition count_of (h : pgcenter_h) (r : PQexec_result) : option Z :=
  v <- PQgetvalue (fst (do_query h r)) 0 0 ;;
  Some (atoi v).

(** The answers of the server to the six count queries, in the order of
    the calls, and the line printed on the summary window.  What
    [do_query] writes for a refused query comes just before the read
    through [NULL] and is not kept. *)
Definition print_postgres_activity (h : pgcenter_h)
    (total idle idle_in_t active waiting others : PQexec_result)
  : option string :=
  t_count <- count_of h total ;;
  i_count <- count_of h idle ;;
  it_count <- count_of h idle_in_t ;;
  a_count <- count_of h active ;;
  w_count <- count_of h waiting ;;
  o_count <- count_of h others ;;
  Some ("activity:" ++ format_3i t_count ++ " total,"
        ++ format_3i i_count ++ " idle,"
        ++ format_3i it_count ++ " idle_in_tnx,"
        ++ format_3i a_count ++ " active,"
        ++ format_3i w_count ++ " waiting,"
        ++ format_3i o_count ++ " others")%string.

(** An answer that [print_postgres_activity] can use: accepted by
    [do_query], with a value in its first row and column. *)
Definition has_count (h : pgcenter_h) (r : PQexec_result) : bool :=
  ExecStatusType_eqb (exec_status r) (PG_TUP_OK h)
  && match nth_error (tuples (exec_data r)) 0 with
     | Some row =>
         match row, fnames (exec_data r) with
         | _ :: _, _ :: _ => true
         | _, _ => false
         end
     | None => false
     end.

(** The answer to a count query: one row with the count. *)
Definition count_answer (n : string) : PQexec_result :=
  {| exec_status := PGRES_TUPLES_OK;
     exec_data := {| fnames := ["count"]; tuples := [[n]] |} |}.

(** ** The turn that diffs, sorts and draws *)

(** Values that a cell of [init_array] has room for. *)
Definition cells_fit (arr : array) : Prop :=
  Forall (Forall (fun v => (String.length v < CELL_SIZE)%nat)) arr.

(** What [sort_array] makes of [rows] with the order key [k] and the
    direction [d]: the same rows, left as they are on the user-functions
    view and with the key [INVALID_ORDER_KEY], and otherwise in the order
    asked for. *)
Definition sort_result (h : pgcenter_h) (s : screen_s) (k : Z) (d : bool)
    (rows sorted : array) : Prop :=
  Permutation rows sorted
  /\ (current_context s = pg_stat_user_functions
      \/ k = INVALID_ORDER_KEY h -> sorted = rows)
  /\ (current_context s <> pg_stat_user_functions ->
      k <> INVALID_ORDER_KEY h ->
      StronglySorted (in_order d (Z.to_nat k)) sorted).

(** Two consoles, the second one on the user-tables view, the first one
    active with [two_rows] as the baseline; a server that answers the
    user-tables query with one row of three columns and any other query
    with [two_rows]. *)
Definition tables_on_second : list screen_s :=
  match nth_error two_consoles 1 with
  | Some s => set_nth 1 (set_current_context s pg_stat_user_tables)
                two_consoles
  | None => two_consoles
  end.

Definition before_switch : main_state :=
  {| screens := tables_on_second; first_iter := false;
     console_no := 1; console_index := 0;
     p_res := Some two_rows; n_prev_rows := Some 2 |}.

Definition view_server : Z -> string -> PQexec_result :=
  fun _ query =>
    {| exec_status := PGRES_TUPLES_OK;
       exec_data := if String.eqb query
                         (PG_STAT_USER_TABLES_QUERY example_h)
                    then one_wide_row else two_rows |}.

(** An answer of two rows to set against [three_rows]. *)
Definition two_rows_later : PGresult :=
  {| fnames := ["datname"; "commits"];
     tuples := [["a"; "13"]; ["b"; "60"]] |}.

(** A result with a value of 255 characters. *)
Definition long_value : string :=
  string_of_list_ascii (repeat "x"%char 255).

Definition long_row : PGresult :=
  {| fnames := ["datname"; "commits"]; tuples := [[long_value; "1"]] |}.

(** [three_rows_later] with such a value in its second row. *)
Definition three_rows_long : PGresult :=
  {| fnames := ["datname"; "commits"];
     tuples := [["a"; "15"]; [long_value; "90"]; ["c"; "8"]] |}.


(* ================================================================== *)
(** * Properties *)

(** ** Lists read and written by index *)

Section ListFacts.
Context {A : Type}.

Lemma set_nth_length (n : nat) (x : A) (l : list A) :
  List.length (set_nth n x l) = List.length l.
Proof.
  revert n; induction l as [|y l IH]; intros [|n]; simpl; auto.
Qed.

Lemma nth_set_nth (n m : nat) (x d : A) (l : list A) :
  nth m (set_nth n x l) d =
  if (m =? n)%nat && (n <? List.length l)%nat then x else nth m l d.
Proof.
  revert n m; induction l as [|y l IH]; intros [|n] [|m]; simpl; auto;
    try (destruct (m =? n)%nat; reflexivity).
Qed.

Lemma nth_error_set_nth (n m : nat) (x : A) (l : list A) :
  nth_error (set_nth n x l) m =
  if (m =? n)%nat && (n <? List.length l)%nat then Some x
  else nth_error l m.
Proof.
  revert n m; induction l as [|y l IH]; intros [|n] [|m]; simpl; auto;
    try (destruct (m =? n)%nat; reflexivity).
Qed.

Lemma set_nth_same (n : nat) (l : list A) (d : A) :
  set_nth n (nth n l d) l = l.
Proof.
  revert n; induction l as [|y l IH]; intros [|n]; simpl; auto.
  now rewrite IH.
Qed.

Lemma nth_map_seq {B : Type} (f : nat -> B) (n i : nat) (d : B) :
  (i < n)%nat -> nth i (map f (seq 0 n)) d = f i.
Proof.
  intros Hi.
  rewrite (nth_indep _ d (f 0%nat)) by now rewrite length_map, length_seq.
  rewrite map_nth, seq_nth by assumption. reflexivity.
Qed.

Lemma map_nth_seq_id (l : list A) (d : A) :
  map (fun i => nth i l d) (seq 0 (List.length l)) = l.
Proof.
  apply (nth_ext _ _ d d).
  - now rewrite length_map, length_seq.
  - intros n Hn. rewrite length_map, length_seq in Hn.
    now rewrite nth_map_seq.
Qed.

Lemma mapM_nth_error_seq (pre l : list A) :
  mapM (fun i => nth_error (pre ++ l) i)
       (seq (List.length pre) (List.length l)) = Some l.
Proof.
  revert pre; induction l as [|x l IH]; intros pre; simpl; [reflexivity|].
  rewrite nth_error_app2, Nat.sub_diag by lia. simpl.
  specialize (IH (pre ++ [x])).
  rewrite <- app_assoc, length_app in IH. simpl in IH.
  rewrite Nat.add_1_r in IH. rewrite IH. reflexivity.
Qed.

Lemma mapM_ext {B : Type} (f g : A -> option B) (l : list A) :
  (forall a, In a l -> f a = g a) -> mapM f l = mapM g l.
Proof.
  induction l as [|a l IH]; intros H; simpl; [reflexivity|].
  rewrite (H a) by now left.
  rewrite IH; [reflexivity|]. intros b Hb; apply H; now right.
Qed.

End ListFacts.

(** ** Arrays and results *)

Lemma shape_nth (arr : array) (n_rows n_cols : Z) (i : nat) :
  shape arr n_rows n_cols -> (i < Z.to_nat n_rows)%nat ->
  List.length (nth i arr []) = Z.to_nat n_cols.
Proof.
  intros [Hlen Hrows] Hi.
  rewrite Forall_forall in Hrows. apply Hrows, nth_In. lia.
Qed.

Lemma array_ext (a b : array) (n_rows n_cols : Z) :
  shape a n_rows n_cols -> shape b n_rows n_cols ->
  (forall i j, (i < Z.to_nat n_rows)%nat -> (j < Z.to_nat n_cols)%nat ->
               cell a i j = cell b i j) ->
  a = b.
Proof.
  intros Ha Hb Hcell.
  apply (nth_ext _ _ [] []).
  - destruct Ha, Hb; congruence.
  - intros i Hi. destruct Ha as [Hla Hfa]. rewrite Hla in Hi.
    apply (nth_ext _ _ "" "").
    + rewrite (shape_nth a n_rows n_cols), (shape_nth b n_rows n_cols);
        auto; split; auto.
    + intros j Hj.
      rewrite (shape_nth a n_rows n_cols) in Hj by (auto; split; auto).
      apply Hcell; assumption.
Qed.

(** A well-formed result copied in full is its list of tuples. *)
Lemma mapM_nth_error_all {A : Type} (l : list A) :
  mapM (fun i => nth_error l i) (seq 0 (List.length l)) = Some l.
Proof. exact (mapM_nth_error_seq [] l). Qed.

Lemma well_formed_shape (r : PGresult) :
  well_formed r ->
  shape (tuples r) (PQntuples (Some r)) (PQnfields (Some r)).
Proof.
  intros Hwf. unfold shape, PQntuples, PQnfields.
  rewrite !Nat2Z.id. split; [reflexivity|exact Hwf].
Qed.

(** ** atoll *)

Lemma atoll_range (s : string) :
  Libc.LLONG_MIN <= Libc.atoll s <= Libc.LLONG_MAX.
Proof.
  unfold Libc.atoll, Libc.strtoll.
  destruct (Libc.read_sign _) as [neg s1].
  destruct (Libc.read_digits 0 0 s1) as [[v n] rest].
  unfold Libc.LLONG_MIN, Libc.LLONG_MAX. lia.
Qed.

Lemma atoll_unparsable (s : string) :
  unparsable s = true -> Libc.atoll s = 0.
Proof.
  unfold unparsable, Libc.atoll, Libc.strtoll.
  destruct (Libc.read_sign _) as [neg s1]. simpl.
  destruct s1 as [|c r]; simpl.
  - intros _. destruct neg; reflexivity.
  - intros H. apply negb_true_iff in H. rewrite H.
    destruct neg; reflexivity.
Qed.

Lemma wrap_s64_exact (z : Z) :
  Libc.LLONG_MIN <= z <= Libc.LLONG_MAX -> Libc.wrap_s64 z = z.
Proof.
  unfold Libc.wrap_s64, Libc.LLONG_MIN, Libc.LLONG_MAX, Libc.ULLONG_MODULUS.
  intros H. rewrite Z.mod_small; lia.
Qed.

(** ** diff_arrays *)

Lemma diff_arrays_cell (h : pgcenter_h) (p_arr c_arr : array) (c : context)
    (n_rows n_cols : Z) (i j : nat) :
  (i < Z.to_nat n_rows)%nat -> (j < Z.to_nat n_cols)%nat ->
  cell (diff_arrays h p_arr c_arr c n_rows n_cols) i j =
  if (Z.of_nat j <? fst (diff_range h c))
     || (Z.of_nat j >? snd (diff_range h c))
  then cell c_arr i j
  else diff_cell (cell p_arr i j) (cell c_arr i j).
Proof.
  intros Hi Hj. unfold diff_arrays.
  destruct (diff_range h c) as [mn mx]. simpl fst; simpl snd.
  unfold cell at 1.
  rewrite (nth_map_seq _ _ _ _ Hi), (nth_map_seq _ _ _ _ Hj).
  reflexivity.
Qed.

Lemma diff_arrays_shape (h : pgcenter_h) (p_arr c_arr : array) (c : context)
    (n_rows n_cols : Z) :
  shape (diff_arrays h p_arr c_arr c n_rows n_cols) n_rows n_cols.
Proof.
  unfold diff_arrays, shape. destruct (diff_range h c) as [mn mx].
  rewrite length_map, length_seq. split; [reflexivity|].
  apply Forall_forall. intros row Hrow.
  apply in_map_iff in Hrow. destruct Hrow as [i [<- _]].
  now rewrite length_map, length_seq.
Qed.

(** C5.  For previous and current arrays of [n_rows] by [n_cols] cells and
    the diff range [[min, max]] of the view, [diff_arrays] fills an array
    of the same shape (it has a result on every input) in which a cell of
    a column inside the range is the ["%lli"] print of the [long long]
    difference of the [atoll] of the current and of the previous cell, and
    a cell of a column outside the range is the current cell.  [atoll]
    stays within the signed 64-bit range and the difference is the exact
    one whenever it fits; a cell without a number counts as [0]; with an
    empty range the result is the current array. *)
Theorem diff_arrays_correct (h : pgcenter_h) (p_arr c_arr : array)
    (c : context) (n_rows n_cols : Z) :
  shape p_arr n_rows n_cols ->
  shape c_arr n_rows n_cols ->
  let min := fst (diff_range h c) in
  let max := snd (diff_range h c) in
  let res := diff_arrays h p_arr c_arr c n_rows n_cols in
  shape res n_rows n_cols
  /\ (forall i j, (i < Z.to_nat n_rows)%nat -> (j < Z.to_nat n_cols)%nat ->
        (min <= Z.of_nat j <= max ->
           cell res i j =
           Libc.format_lli
             (Libc.wrap_s64
                (Libc.atoll (cell c_arr i j) - Libc.atoll (cell p_arr i j))))
        /\ (~ (min <= Z.of_nat j <= max) -> cell res i j = cell c_arr i j))
  /\ (forall s, Libc.LLONG_MIN <= Libc.atoll s <= Libc.LLONG_MAX)
  /\ (forall a b,
        Libc.LLONG_MIN <= Libc.atoll a - Libc.atoll b <= Libc.LLONG_MAX ->
        Libc.wrap_s64 (Libc.atoll a - Libc.atoll b)
        = Libc.atoll a - Libc.atoll b)
  /\ (forall s, unparsable s = true -> Libc.atoll s = 0)
  /\ (max < min \/ max < 0 -> res = c_arr).
Proof.
  intros Hp Hc min max res.
  split; [apply diff_arrays_shape|].
  split.
  { intros i j Hi Hj. subst res. rewrite diff_arrays_cell by assumption.
    fold min max. split; intros Hin.
    - destruct (Z.ltb_spec (Z.of_nat j) min); [lia|].
      destruct (Z.gtb_spec (Z.of_nat j) max); [lia|]. reflexivity.
    - destruct (Z.ltb_spec (Z.of_nat j) min); [reflexivity|].
      destruct (Z.gtb_spec (Z.of_nat j) max); [reflexivity|lia]. }
  split; [exact atoll_range|].
  split; [intros a b; apply wrap_s64_exact|].
  split; [exact atoll_unparsable|].
  intros Hempty. apply (array_ext _ _ n_rows n_cols).
  - apply diff_arrays_shape.
  - exact Hc.
  - intros i j Hi Hj. subst res. rewrite diff_arrays_cell by assumption.
    fold min max.
    destruct (Z.ltb_spec (Z.of_nat j) min); [reflexivity|].
    destruct (Z.gtb_spec (Z.of_nat j) max); [reflexivity|lia].
Qed.

(** C5, at one row of the databases view. *)
Lemma diff_arrays_correct_witness :
  shape [["db"; "10"; "x"]] 1 3
  /\ shape [["db"; "25"; "y"]] 1 3
  /\ cell (diff_arrays example_h [["db"; "10"; "x"]] [["db"; "25"; "y"]]
             pg_stat_database 1 3) 0 1 = "15".
Proof.
  assert (Hp : shape [["db"; "10"; "x"]] 1 3)
    by (split; [reflexivity | repeat constructor]).
  assert (Hc : shape [["db"; "25"; "y"]] 1 3)
    by (split; [reflexivity | repeat constructor]).
  split; [exact Hp|]. split; [exact Hc|].
  destruct (diff_arrays_correct example_h _ _ pg_stat_database 1 3 Hp Hc)
    as (_ & Hcell & _).
  destruct (Hcell 0%nat 1%nat) as [Hin _]; [simpl; lia | simpl; lia |].
  rewrite Hin by (simpl; lia). reflexivity.
Defined.

(** ** One turn of the main loop *)

Lemma ExecStatusType_eqb_eq (a b : ExecStatusType) :
  ExecStatusType_eqb a b = true <-> a = b.
Proof.
  split.
  - destruct a, b; simpl; intros H; try reflexivity; discriminate H.
  - intros <-. destruct a; reflexivity.
Qed.

Lemma do_query_ok (h : pgcenter_h) (r : PGresult) :
  do_query h {| exec_status := PG_TUP_OK h; exec_data := r |}
  = (Some r, []).
Proof.
  unfold do_query. simpl.
  replace (ExecStatusType_eqb (PG_TUP_OK h) (PG_TUP_OK h)) with true;
    [reflexivity|].
  symmetry. now apply ExecStatusType_eqb_eq.
Qed.

Lemma do_query_failed (h : pgcenter_h) (r : PQexec_result) :
  exec_status r <> PG_TUP_OK h ->
  do_query h r = (None, [Stdout no_data]).
Proof.
  intros Hne. unfold do_query.
  destruct (ExecStatusType_eqb (exec_status r) (PG_TUP_OK h)) eqn:E.
  - apply ExecStatusType_eqb_eq in E. contradiction.
  - reflexivity.
Qed.

Lemma context_eqb_eq (a b : context) : context_eqb a b = true <-> a = b.
Proof.
  split.
  - destruct a, b; simpl; intros H; try reflexivity; discriminate H.
  - intros <-. destruct a; reflexivity.
Qed.

Lemma sort_array_defined (h : pgcenter_h) (arr : array) (n_rows n_cols : Z)
    (s : screen_s) :
  sort_defined h s n_rows n_cols ->
  exists sorted, sort_array h arr n_rows n_cols s = Some sorted.
Proof.
  unfold sort_defined, sort_array. intros [Hf | (k & d & Hl & Hk)].
  - rewrite Hf. simpl. eauto.
  - destruct (context_eqb _ _); [eauto|].
    rewrite Hl. simpl.
    destruct (Z.eqb_spec k (INVALID_ORDER_KEY h)); [eauto|].
    destruct Hk as [Hk | [Hk | Hk]]; [contradiction | |].
    + destruct (Z.leb_spec 2 n_rows); [lia|]. simpl. eauto.
    + destruct (Z.ltb_spec k 0); [lia|].
      destruct (Z.leb_spec n_cols k); [lia|].
      rewrite andb_false_r. eauto.
Qed.

(** A turn that finds [first_iter] false and the query answered leaves the
    answer as the baseline, with its row count. *)
Lemma main_refresh_settled (h : pgcenter_h) (st st' : main_state)
    (s : screen_s) (server : Z -> string -> PQexec_result) (r : PGresult)
    (ev : list event) :
  first_iter st = false ->
  current_screen st = Some s ->
  answers h server (console_index st) s r ->
  main_refresh h st server = Some (st', ev) ->
  st' = set_baseline st false (Some r) (Some (PQntuples (Some r))).
Proof.
  intros Hfi Hs Hans. unfold main_refresh, answers in *.
  rewrite Hs. simpl. rewrite Hans, do_query_ok, Hfi.
  destruct (n_prev_rows st) as [prev|]; simpl; [|discriminate].
  destruct (prev <? _).
  - intros H; inversion H; reflexivity.
  - destruct (pgrescpy (p_res st) _ _); simpl; [|discriminate].
    destruct (pgrescpy (Some r) _ _); simpl; [|discriminate].
    destruct (sort_array _ _ _ _ _); simpl; [|discriminate].
    intros H; inversion H; reflexivity.
Qed.

(** C1, as the claim states it, fails: with [two_rows] as the baseline and
    a query that fails, the turn draws the data window (an empty table) and
    replaces the baseline by the null result with row count [0]. *)
Lemma query_failure_counterexample :
  exec_status (failing_server 0 (prepare_query example_h
                                   (init_screen example_h 0)))
    <> PG_TUP_OK example_h
  /\ exists st' ev,
       main_refresh example_h settled_state failing_server = Some (st', ev)
       /\ renders ev = true
       /\ p_res settled_state = Some two_rows
       /\ p_res st' = None
       /\ n_prev_rows settled_state = Some 2
       /\ n_prev_rows st' = Some 0.
Proof.
  split; [discriminate|].
  eexists _, _. split; [vm_compute; reflexivity|].
  repeat split; reflexivity.
Qed.

(** C1, amended.  When the query of the active view fails, the program
    prints "We didn't get any data." and the turn goes on with the null
    result, of no row and no column.  With [first_iter] set, the null
    result becomes the previous snapshot, [first_iter] is cleared and
    nothing is drawn.  Otherwise, the stored row count being at least [0],
    the diff and the sort run over no row, an empty table is drawn, and the
    baseline becomes the null result with row count [0]. *)
Theorem query_failure (h : pgcenter_h) (st : main_state) (s : screen_s)
    (server : Z -> string -> PQexec_result) :
  current_screen st = Some s ->
  exec_status (server (console_index st) (prepare_query h s))
    <> PG_TUP_OK h ->
  (first_iter st = true ->
   exists st',
     main_refresh h st server
     = Some (st', [Stdout no_data; Usleep 10000])
     /\ p_res st' = None /\ first_iter st' = false)
  /\ (first_iter st = false ->
      forall prev, n_prev_rows st = Some prev -> 0 <= prev ->
      sort_defined h s 0 0 ->
      main_refresh h st server
      = Some (set_baseline st false None (Some 0),
              [Stdout no_data; PrintData [] (lookup_order s) []; Sleep 1])).
Proof.
  intros Hs Hfail. unfold main_refresh. rewrite Hs. cbn [bind].
  rewrite (do_query_failed h _ Hfail). split.
  - intros ->. eexists. split; [reflexivity|]. split; reflexivity.
  - intros Hfi prev Hprev Hge Hsort. rewrite Hfi, Hprev. cbn [bind].
    change (PQntuples None) with 0. change (PQnfields None) with 0.
    destruct (Z.ltb_spec prev 0); [lia|].
    change (pgrescpy (p_res st) 0 0) with (Some (@nil (list string))).
    change (pgrescpy None 0 0) with (Some (@nil (list string))).
    cbn [bind].
    replace (diff_arrays h [] [] (current_context s) 0 0) with (@nil (list string))
      by (unfold diff_arrays; destruct (diff_range h _); reflexivity).
    assert (Hsorted : sort_array h [] 0 0 s = Some []).
    { unfold sort_defined, sort_array in *.
      destruct Hsort as [Hf | (k & d & Hl & _)].
      - rewrite Hf. reflexivity.
      - destruct (context_eqb _ _); [reflexivity|].
        rewrite Hl. cbn [bind].
        destruct (k =? INVALID_ORDER_KEY h); reflexivity. }
    rewrite Hsorted. reflexivity.
Qed.

Lemma query_failure_witness :
  current_screen settled_state = Some (init_screen example_h 0)
  /\ main_refresh example_h settled_state failing_server
     = Some (set_baseline settled_state false None (Some 0),
             [Stdout no_data;
              PrintData [] (lookup_order (init_screen example_h 0)) [];
              Sleep 1]).
Proof.
  split; [reflexivity|].
  refine (proj2 (query_failure example_h settled_state
                   (init_screen example_h 0) failing_server
                   eq_refl _) eq_refl 2 eq_refl _ _).
  - discriminate.
  - lia.
  - right. exists 1, true. split; [reflexivity|]. right; left; lia.
Defined.

(** C3, on the code: at the start of the program the first turn takes the
    answer as the previous snapshot, clears [first_iter] and draws nothing,
    but leaves [n_prev_rows] unassigned, and the next turn reads it.  And
    a first turn after a change of view keeps the row count of the old
    view: here [10], so that growth from one row to three goes unnoticed
    and the previous snapshot is read past its end. *)
Theorem first_turn_keeps_row_count :
  (exists st1 ev1,
     main_refresh example_h (initial_state (init_screens example_h))
       (steady_server two_rows)
     = Some (st1, ev1)
     /\ p_res st1 = Some two_rows
     /\ first_iter st1 = false
     /\ renders ev1 = false
     /\ n_prev_rows st1 = None
     /\ main_refresh example_h st1 (steady_server two_rows) = None)
  /\ (let st :=
        {| screens := init_screens example_h; first_iter := true;
           console_no := 1; console_index := 0;
           p_res := Some two_rows; n_prev_rows := Some 10 |} in
      exists st1 ev1,
        main_refresh example_h st (steady_server one_wide_row)
        = Some (st1, ev1)
        /\ p_res st1 = Some one_wide_row
        /\ n_prev_rows st1 = Some 10
        /\ main_refresh example_h st1 (steady_server three_rows) = None).
Proof.
  split.
  - eexists _, _. split; [vm_compute; reflexivity|].
    repeat split; reflexivity.
  - eexists _, _. split; [vm_compute; reflexivity|].
    repeat split; reflexivity.
Qed.

(** ** The connection file *)

Lemma testbit_rwx_mask (b : Z) :
  Z.testbit (Z.lor S_IRWXG S_IRWXO) b = ((0 <=? b) && (b <? 6)).
Proof.
  change (Z.lor S_IRWXG S_IRWXO) with 63.
  destruct (Z.leb_spec 0 b) as [Hb|Hb]; cbn [andb].
  - destruct (Z.ltb_spec b 6) as [Hlt|Hge].
    + assert (H : b = 0 \/ b = 1 \/ b = 2 \/ b = 3 \/ b = 4 \/ b = 5) by lia.
      destruct H as [->|[->|[->|[->|[->| ->]]]]]; reflexivity.
    + apply Z.bits_above_log2; [lia|]. change (Z.log2 63) with 5. lia.
  - apply Z.testbit_neg_r. lia.
Qed.

Lemma rwx_mask_clear (mode : Z) :
  Z.land mode (Z.lor S_IRWXG S_IRWXO) = 0 <-> ~ group_other_bit mode.
Proof.
  unfold group_other_bit. split.
  - intros H (b & Hb & Hbit).
    assert (Hl : Z.testbit (Z.land mode (Z.lor S_IRWXG S_IRWXO)) b = true).
    { rewrite Z.land_spec, Hbit, testbit_rwx_mask.
      destruct (Z.leb_spec 0 b); [|lia].
      destruct (Z.ltb_spec b 6); [reflexivity|lia]. }
    rewrite H, Z.bits_0 in Hl. discriminate.
  - intros H. apply Z.bits_inj'. intros b Hb.
    rewrite Z.land_spec, testbit_rwx_mask, Z.bits_0.
    destruct (Z.leb_spec 0 b); [|lia].
    destruct (Z.ltb_spec b 6); cbn [andb].
    + destruct (Z.testbit mode b) eqn:E; [|reflexivity].
      exfalso. apply H. exists b. split; [lia|exact E].
    + apply andb_false_r.
Qed.

(** C10.  The connection file is read into the screens only when its mode
    has no group and no other permission bit; when one of these bits is
    set the file is left unread, the screens stay as they were and a
    warning goes to [stderr]; a file with the permission bits [0600] that
    opens is read, line by line. *)
Theorem pgcenterrc_permissions (h : pgcenter_h) (pw_dir : string)
    (f : rc_file) (scr : list screen_s) (pos : nat) :
  (forall scr' ev,
      create_pgcenterrc_conn h pw_dir (Some f) scr pos
      = Some (PGCENTERRC_READ_OK, scr', ev) ->
      ~ group_other_bit (st_mode f))
  /\ (group_other_bit (st_mode f) ->
      create_pgcenterrc_conn h pw_dir (Some f) scr pos
      = Some (PGCENTERRC_READ_ERR, scr,
              [Stderr ("WARNING: " ++ (pw_dir ++ "/" ++ PGCENTERRC_FILE h)
                       ++ " has wrong permissions.")%string]))
  /\ (Z.land (st_mode f) 511 = 384 ->
      forall lines, rc_lines f = Some lines ->
      create_pgcenterrc_conn h pw_dir (Some f) scr pos
      = (scr' <- read_conn_lines lines scr pos ;;
         Some (PGCENTERRC_READ_OK, scr', []))).
Proof.
  unfold create_pgcenterrc_conn.
  destruct (Z.eqb_spec (Z.land (st_mode f) (Z.lor S_IRWXG S_IRWXO)) 0)
    as [Hclear|Hset]; cbn [negb].
  - pose proof (proj1 (rwx_mask_clear _) Hclear) as Hnone.
    split; [intros; exact Hnone|].
    split; [intros Hbit; contradiction|].
    intros _ lines ->. reflexivity.
  - split.
    { intros scr' ev H. discriminate H. }
    split; [reflexivity|].
    intros H600. exfalso. apply Hset. apply rwx_mask_clear.
    intros (b & Hb & Hbit).
    assert (Hl : Z.testbit (Z.land (st_mode f) 511) b = true).
    { rewrite Z.land_spec, Hbit.
      assert (H : b = 0 \/ b = 1 \/ b = 2 \/ b = 3 \/ b = 4 \/ b = 5) by lia.
      destruct H as [->|[->|[->|[->|[->| ->]]]]]; reflexivity. }
    rewrite H600 in Hl.
    assert (H : b = 0 \/ b = 1 \/ b = 2 \/ b = 3 \/ b = 4 \/ b = 5) by lia.
    destruct H as [->|[->|[->|[->|[->| ->]]]]]; discriminate Hl.
Qed.

Lemma pgcenterrc_permissions_witness :
  group_other_bit (st_mode rc_world_readable)
  /\ create_pgcenterrc_conn example_h "/home/u" (Some rc_world_readable)
       (init_screens example_h) 0
     = Some (PGCENTERRC_READ_ERR, init_screens example_h,
             [Stderr "WARNING: /home/u/.pgcenterrc has wrong permissions."])
  /\ Z.land (st_mode rc_private) 511 = 384
  /\ create_pgcenterrc_conn example_h "/home/u" (Some rc_private)
       (init_screens example_h) 0
     = Some (PGCENTERRC_READ_OK,
             set_conn (init_screen example_h 0) "127.0.0.1" "5432" "db"
               "u" "secret" 0 :: map (init_screen example_h) (seq 1 7),
             [])
  /\ ~ group_other_bit (st_mode rc_private).
Proof.
  assert (Hbit : group_other_bit (st_mode rc_world_readable))
    by (exists 2; split; [lia|reflexivity]).
  split; [exact Hbit|].
  split.
  { exact (proj1 (proj2 (pgcenterrc_permissions example_h "/home/u"
                           rc_world_readable (init_screens example_h) 0))
             Hbit). }
  split; [reflexivity|].
  assert (Hread :
      create_pgcenterrc_conn example_h "/home/u" (Some rc_private)
        (init_screens example_h) 0
      = Some (PGCENTERRC_READ_OK,
              set_conn (init_screen example_h 0) "127.0.0.1" "5432" "db"
                "u" "secret" 0 :: map (init_screen example_h) (seq 1 7),
              [])).
  { rewrite (proj2 (proj2 (pgcenterrc_permissions example_h "/home/u"
                             rc_private (init_screens example_h) 0))
               eq_refl [rc_line] eq_refl).
    vm_compute. reflexivity. }
  split; [exact Hread|].
  exact (proj1 (pgcenterrc_permissions example_h "/home/u" rc_private
                  (init_screens example_h) 0) _ _ Hread).
Defined.

(** ** CPU percentages *)

Lemma ll_sp_value_clamped (value1 value2 itv : Z) :
  clamped value1 value2 itv (ll_sp_value value1 value2 itv).
Proof.
  unfold clamped, ll_sp_value.
  destruct (Z.ltb_spec value2 value1); split; intros; auto; lia.
Qed.

Lemma get_interval_spec (prev_uptime curr_uptime : Z) :
  0 <= prev_uptime < Libc.ULLONG_MODULUS ->
  0 <= curr_uptime < Libc.ULLONG_MODULUS ->
  1 <= get_interval prev_uptime curr_uptime
  /\ (curr_uptime = prev_uptime -> get_interval prev_uptime curr_uptime = 1)
  /\ (prev_uptime < curr_uptime ->
      get_interval prev_uptime curr_uptime = curr_uptime - prev_uptime).
Proof.
  intros Hp Hc. unfold get_interval, Libc.wrap_u64.
  assert (Hm : 0 < Libc.ULLONG_MODULUS) by reflexivity.
  pose proof (Z.mod_pos_bound (curr_uptime - prev_uptime) _ Hm) as Hb.
  split.
  { destruct (Z.eqb_spec
                ((curr_uptime - prev_uptime) mod Libc.ULLONG_MODULUS) 0); lia. }
  split.
  - intros ->. rewrite Z.sub_diag. reflexivity.
  - intros Hlt. rewrite Z.mod_small by lia.
    destruct (Z.eqb_spec (curr_uptime - prev_uptime) 0); lia.
Qed.

(** C7, as the claim states it, fails for the system time: the [sys]
    counter goes back from 100 to 90, and the percentage printed is 40. *)
Lemma cpu_regression_counterexample :
  let s1 := fst (print_cpu_usage initial_cpu_state sample_before) in
  let line := snd (print_cpu_usage s1 sample_after) in
  cpu_sys sample_after < cpu_sys sample_before
  /\ pct_sy line = 40%float
  /\ PrimFloat.eqb (pct_sy line) 0%float = false.
Proof.
  split; [reflexivity|]. split; vm_compute; reflexivity.
Qed.

(** C7, amended.  Each of the eight percentages printed is exactly [0.0]
    when the value compared for the current sample is smaller than the one
    for the previous sample, and [100 * (curr - prev) / interval]
    otherwise.  The value compared is the counter itself for user, nice,
    idle, iowait, hardirq, softirq and steal; for the system time it is the
    sum [sys + softirq + hardirq].  The interval is the difference of the
    two totals, and [1] when the totals are equal. *)
Theorem cpu_percentages (s : cpu_state) (read : stats_cpu_struct) :
  let st := store (st_cpu s) (curr s) read in
  let p := sample st (negb (curr s)) in
  let c := sample st (curr s) in
  let itv := get_interval (pick (uptime s) (negb (curr s))) (cpu_total read) in
  let line := snd (print_cpu_usage s read) in
  c = read
  /\ clamped (cpu_user p) (cpu_user c) itv (pct_us line)
  /\ clamped (sys_time p) (sys_time c) itv (pct_sy line)
  /\ clamped (cpu_nice p) (cpu_nice c) itv (pct_ni line)
  /\ clamped (cpu_idle p) (cpu_idle c) itv (pct_id line)
  /\ clamped (cpu_iowait p) (cpu_iowait c) itv (pct_wa line)
  /\ clamped (cpu_hardirq p) (cpu_hardirq c) itv (pct_hi line)
  /\ clamped (cpu_softirq p) (cpu_softirq c) itv (pct_si line)
  /\ clamped (cpu_steal p) (cpu_steal c) itv (pct_st line)
  /\ (forall m n d, 0 <= m <= n -> n < Libc.ULLONG_MODULUS ->
        SP_VALUE m n d
        = (100 * Libc.to_double (n - m) / Libc.to_double d)%float)
  /\ (forall a b, 0 <= a < Libc.ULLONG_MODULUS ->
        0 <= b < Libc.ULLONG_MODULUS ->
        1 <= get_interval a b
        /\ (b = a -> get_interval a b = 1)
        /\ (a < b -> get_interval a b = b - a)).
Proof.
  intros st p c itv line.
  assert (Hline : line = write_cpu_stat_raw st (curr s) itv).
  { subst line itv st. unfold print_cpu_usage. cbn [snd].
    destruct (curr s); reflexivity. }
  split; [subst c st; destruct (curr s); reflexivity|].
  rewrite Hline. unfold write_cpu_stat_raw.
  cbn [pct_us pct_sy pct_ni pct_id pct_wa pct_hi pct_si pct_st].
  fold p c.
  repeat (split; [apply ll_sp_value_clamped|]).
  split.
  { unfold clamped.
    destruct (Z.ltb_spec (cpu_idle c) (cpu_idle p)); split; intros;
      try reflexivity; try lia.
    apply ll_sp_value_clamped. assumption. }
  repeat (split; [apply ll_sp_value_clamped|]).
  split.
  - intros m n d Hmn Hn. unfold SP_VALUE, Libc.wrap_u64.
    rewrite Z.mod_small by lia. reflexivity.
  - intros a b. apply get_interval_spec.
Qed.

Lemma cpu_percentages_witness :
  let s1 := fst (print_cpu_usage initial_cpu_state user_before) in
  let line := snd (print_cpu_usage s1 user_after) in
  cpu_user user_after < cpu_user user_before
  /\ pct_us line = 0%float
  /\ cpu_idle user_before <= cpu_idle user_after
  /\ pct_id line = SP_VALUE 1000 1100 100.
Proof.
  intros s1 line.
  destruct (cpu_percentages s1 user_after)
    as (_ & [Hus _] & _ & _ & [_ Hid] & _).
  split; [reflexivity|]. split; [apply Hus; reflexivity|].
  split; [discriminate|]. apply Hid. discriminate.
Defined.

(** ** The minimum age *)

Lemma length_zero_empty (s : string) :
  (String.length s =? 0)%nat = true <-> s = "".
Proof.
  destruct s; simpl; split; intros H; try reflexivity; discriminate H.
Qed.

Lemma char_of_key_code (c : ascii) : char_of_key (Libc.code c) = c.
Proof.
  unfold char_of_key, Libc.code.
  pose proof (nat_ascii_bounded c) as Hb.
  rewrite Z.mod_small by lia.
  rewrite Nat2Z.id. apply ascii_nat_embedding.
Qed.

Lemma append_assoc_char (a : string) (c : ascii) (t : string) :
  (append_char a c ++ t)%string = (a ++ String c t)%string.
Proof.
  unfold append_char. induction a as [|x a IH]; simpl; [reflexivity|].
  now rewrite IH.
Qed.

Lemma append_empty_r (a : string) : (a ++ "")%string = a.
Proof. induction a as [|x a IH]; simpl; [reflexivity|]. now rewrite IH. Qed.

Lemma length_append_char (a : string) (c : ascii) :
  String.length (append_char a c) = S (String.length a).
Proof.
  unfold append_char. induction a as [|x a IH]; [reflexivity|].
  cbn [append String.length]. now rewrite IH.
Qed.

(** A key that is stored, with room left for it. *)
Lemma cmd_readline_plain_key (size : nat) (ch : Z) (keys : list Z)
    (typed : string) :
  plain_key ch = true ->
  cmd_readline size (ch :: keys) typed
  = if (String.length typed <? size)%nat
    then cmd_readline size keys (append_char typed (char_of_key ch))
    else None.
Proof.
  unfold plain_key. intros H.
  apply andb_true_iff in H. destruct H as [H _].
  apply andb_true_iff in H. destruct H as [H Hb].
  apply andb_true_iff in H. destruct H as [H27 H10].
  apply negb_true_iff in H27, H10, Hb.
  cbn [cmd_readline]. rewrite H27, H10, Hb. reflexivity.
Qed.

(** A text that is stored, with room left for all of it. *)
Lemma cmd_readline_plain (size : nat) (t : string) :
  plain_text t = true ->
  forall keys typed,
    (String.length typed + String.length t <= size)%nat ->
    cmd_readline size (keys_of t ++ keys) typed
    = cmd_readline size keys (typed ++ t)%string.
Proof.
  unfold plain_text, keys_of.
  induction t as [|c t IH]; cbn [list_ascii_of_string forallb map app];
    intros H keys typed Hlen.
  - now rewrite append_empty_r.
  - apply andb_true_iff in H. destruct H as [Hc Ht].
    cbn [String.length] in Hlen.
    rewrite cmd_readline_plain_key by exact Hc.
    destruct (Nat.ltb_spec (String.length typed) size); [|lia].
    rewrite IH; [|exact Ht|rewrite length_append_char; lia].
    now rewrite char_of_key_code, append_assoc_char.
Qed.

(** A text that does not leave room for the end of the string: the
    write that has no room comes before Enter or with it. *)
Lemma cmd_readline_full (size : nat) (t : string) :
  plain_text t = true ->
  forall rest typed,
    (size <= String.length typed + String.length t)%nat ->
    cmd_readline size (keys_of t ++ 10 :: rest) typed = None.
Proof.
  unfold plain_text, keys_of.
  induction t as [|c t IH]; cbn [list_ascii_of_string forallb map app];
    intros H rest typed Hlen.
  - cbn [String.length] in Hlen. cbn [cmd_readline Z.eqb].
    destruct (Nat.ltb_spec (String.length typed) size); [lia|reflexivity].
  - apply andb_true_iff in H. destruct H as [Hc Ht].
    cbn [String.length] in Hlen.
    rewrite cmd_readline_plain_key by exact Hc.
    destruct (Nat.ltb_spec (String.length typed) size); [|reflexivity].
    apply IH; [exact Ht|]. rewrite length_append_char. lia.
Qed.

Lemma c_string_plain (t : string) : plain_text t = true -> c_string t = t.
Proof.
  unfold plain_text.
  induction t as [|c t IH]; cbn [list_ascii_of_string forallb c_string];
    intros H; [reflexivity|].
  apply andb_true_iff in H. destruct H as [Hc Ht].
  rewrite IH by exact Ht.
  destruct (Ascii.eqb_spec c Ascii.zero) as [->|Hne]; [|reflexivity].
  discriminate Hc.
Qed.

(** A text typed and committed, the buffer having room for it and for the
    end of the string. *)
Lemma cmd_readline_enter (size : nat) (t : string) (rest : list Z) :
  plain_text t = true ->
  (String.length t < size)%nat ->
  cmd_readline size (keys_of t ++ 10 :: rest) "" = Some (false, t, [], rest).
Proof.
  intros Ht Hlen.
  rewrite cmd_readline_plain by (try exact Ht; cbn [String.length]; lia).
  cbn [cmd_readline Z.eqb append].
  destruct (Nat.ltb_spec (String.length t) size); [|lia].
  rewrite c_string_plain by exact Ht. reflexivity.
Qed.

Lemma strncpy_short (n : nat) (t : string) :
  (String.length t <= n)%nat -> Libc.strncpy n t = t.
Proof.
  revert n. induction t as [|c t IH]; intros n Hn.
  - destruct n; reflexivity.
  - destruct n as [|n]; cbn [String.length] in Hn; [lia|].
    cbn [Libc.strncpy]. rewrite IH by lia. reflexivity.
Qed.

Lemma read_digits_count (s : string) (acc : Z) (n : nat) :
  (n <= snd (fst (Libc.read_digits acc n s)))%nat.
Proof.
  revert acc n. induction s as [|x s IH]; intros acc n;
    cbn [Libc.read_digits]; [cbn; lia|].
  destruct (Libc.isdigit x); [|cbn; lia].
  specialize (IH (acc * 10 + (Libc.code x - 48)) (S n)). lia.
Qed.

Lemma scan_u_match_failure (text : string) :
  Libc.scan_u text = Libc.MatchFailure
  <-> Libc.skip_spaces text <> "" /\ unparsable text = true.
Proof.
  unfold Libc.scan_u, unparsable.
  destruct (Libc.skip_spaces text) as [|c r] eqn:Hsk.
  - split; [discriminate|]. intros [H _]. contradiction.
  - destruct (Libc.read_sign (String c r)) as [neg s2]. cbn [snd].
    destruct s2 as [|x s2]; cbn [Libc.read_digits].
    + split; [intros _; split; [discriminate|reflexivity]|reflexivity].
    + destruct (Libc.isdigit x) eqn:Ex; cbn [negb].
      * pose proof (read_digits_count s2 (0 * 10 + (Libc.code x - 48)) 1)
          as Hd.
        destruct (Libc.read_digits _ 1 s2) as [[v n] rest].
        cbn [fst snd] in Hd. destruct n as [|n]; [lia|].
        split; [discriminate|]. intros [_ H]. discriminate H.
      * split; [intros _; split; [discriminate|reflexivity]|reflexivity].
Qed.

(** [sscanf] returns [0] when the text holds more than white space and,
    after the white space and a sign, does not go on with a digit. *)
Lemma sscanf_nothing_read (text : string) :
  fst (Libc.sscanf_u_u_u text) = 0
  <-> Libc.skip_spaces text <> "" /\ unparsable text = true.
Proof.
  rewrite <- scan_u_match_failure. unfold Libc.sscanf_u_u_u.
  destruct (Libc.scan_u text) as [a r1| |].
  - split; [|discriminate].
    destruct (Libc.scan_lit ":" r1) as [r2|]; [|discriminate].
    destruct (Libc.scan_u r2) as [b r3| |]; try discriminate.
    destruct (Libc.scan_lit ":" r3) as [r4|]; [|discriminate].
    destruct (Libc.scan_u r4); discriminate.
  - split; reflexivity.
  - split; discriminate.
Qed.

(** What [change_min_age] does with a text typed and committed. *)
Lemma change_min_age_typed (h : pgcenter_h) (s : screen_s) (t : string)
    (rest : list Z) (rejected : bool) :
  plain_text t = true ->
  (String.length t < BUFFERSIZE_S h)%nat ->
  t <> "" ->
  min_age_rejected t = Some rejected ->
  change_min_age h s (keys_of t ++ 10 :: rest)
  = if rejected
    then Some (s, [min_age_prompt; min_age_refused], rest)
    else Some (set_min_age s (Libc.strncpy (MIN_AGE_SIZE h - 1) t),
               [min_age_prompt], rest).
Proof.
  intros Ht Hlen Hne Hrej. unfold change_min_age.
  rewrite (cmd_readline_enter _ t rest Ht Hlen). cbn [bind].
  destruct (String.length t =? 0)%nat eqn:E.
  - apply length_zero_empty in E. contradiction.
  - cbn [negb andb]. rewrite Hrej. cbn [bind].
    destruct rejected; reflexivity.
Qed.

(** C8, as the claim states it, fails: a text that goes on after the
    seconds is not of the form [HH:MM:SS[.nn]] and is taken all the same;
    and a text with fewer than three fields is not refused on the count
    that [sscanf] returns: the test goes on to read [min], which was never
    assigned. *)
Lemma min_age_validation_counterexample :
  spec_valid_min_age "00:00:00abc" = false
  /\ change_min_age example_h (init_screen example_h 0)
       (keys_of "00:00:00abc" ++ [10])
     = Some (set_min_age (init_screen example_h 0) "00:00:00abc",
             [min_age_prompt], [])
  /\ spec_valid_min_age "12" = false
  /\ Libc.sscanf_u_u_u "12" = (1, (Some 12, None, None))
  /\ min_age_rejected "12" = None.
Proof.
  repeat split; vm_compute; reflexivity.
Qed.

(** C8, amended.  The text of a commit, typed into the [BUFFERSIZE_S]
    bytes of [min_age] without running past them, is checked by reading
    three unsigned numbers separated by colons from its start.  When
    [sscanf] reads nothing and returns [0] (the text holds more than white
    space and, after the white space and a sign, does not go on with a
    digit), or when three numbers are read and the hour is above 23 or the
    minute or the second above 59, a status message is shown and the old
    value is kept.  When three are read and are within these bounds, the
    text as typed, with whatever follows the seconds, is stored up to the
    size of the field less one: all of it when it is shorter than the
    field.  An empty commit keeps the old value and says so.  So
    [00:00:00], [23:59:59] and [01:02:03.99] are taken, and [24:00:00],
    [00:60:00] and [abc] are refused. *)
Theorem min_age_commit (h : pgcenter_h) (s : screen_s) (keys rest : list Z)
    (text : string) (ev : list event) :
  cmd_readline (BUFFERSIZE_S h) keys "" = Some (false, text, ev, rest) ->
  (text = "" ->
   change_min_age h s keys
   = Some (s, min_age_prompt :: ev
              ++ [Wprintw ("Nothing to do. Leave min age "
                           ++ pg_stat_activity_min_age s)%string], rest))
  /\ (Libc.skip_spaces text <> "" -> unparsable text = true ->
      fst (Libc.sscanf_u_u_u text) = 0
      /\ change_min_age h s keys
         = Some (s, min_age_prompt :: ev ++ [min_age_refused], rest))
  /\ (forall hh mm ss,
        text <> "" ->
        Libc.sscanf_u_u_u text = (3, (Some hh, Some mm, Some ss)) ->
        (hh > 23 \/ mm > 59 \/ ss > 59 ->
         change_min_age h s keys
         = Some (s, min_age_prompt :: ev ++ [min_age_refused], rest))
        /\ (hh <= 23 /\ mm <= 59 /\ ss <= 59 ->
            change_min_age h s keys
            = Some (set_min_age s
                      (Libc.strncpy (MIN_AGE_SIZE h - 1) text),
                    min_age_prompt :: ev, rest)
            /\ ((String.length text < MIN_AGE_SIZE h)%nat ->
                Libc.strncpy (MIN_AGE_SIZE h - 1) text = text)))
  /\ (forall t more,
        In t ["00:00:00"; "23:59:59"; "01:02:03.99"] ->
        (String.length t < BUFFERSIZE_S h)%nat ->
        change_min_age h s (keys_of t ++ 10 :: more)
        = Some (set_min_age s (Libc.strncpy (MIN_AGE_SIZE h - 1) t),
                [min_age_prompt], more)
        /\ ((String.length t < MIN_AGE_SIZE h)%nat ->
            Libc.strncpy (MIN_AGE_SIZE h - 1) t = t))
  /\ (forall t more,
        In t ["24:00:00"; "00:60:00"; "abc"] ->
        (String.length t < BUFFERSIZE_S h)%nat ->
        change_min_age h s (keys_of t ++ 10 :: more)
        = Some (s, [min_age_prompt; min_age_refused], more)).
Proof.
  intros Hline.
  assert (Hnonempty : text <> "" -> (String.length text =? 0)%nat = false).
  { intros Hne. destruct (String.length text =? 0)%nat eqn:E;
      [|reflexivity]. apply length_zero_empty in E. contradiction. }
  split.
  { intros ->. unfold change_min_age. rewrite Hline. reflexivity. }
  split.
  { intros Hsk Hun.
    assert (H0 : fst (Libc.sscanf_u_u_u text) = 0)
      by (apply sscanf_nothing_read; split; assumption).
    split; [exact H0|].
    assert (Hne : text <> "") by (intros ->; apply Hsk; reflexivity).
    unfold change_min_age. rewrite Hline. cbn [bind].
    rewrite (Hnonempty Hne). cbn [negb andb]. unfold min_age_rejected.
    destruct (Libc.sscanf_u_u_u text) as [n [[a b] c]].
    cbn [fst] in H0. subst n. reflexivity. }
  split.
  { intros hh mm ss Hne Hscan.
    unfold change_min_age. rewrite Hline. cbn [bind].
    rewrite (Hnonempty Hne). cbn [negb andb].
    unfold min_age_rejected. rewrite Hscan.
    cbn [Z.eqb exceeds bind].
    split.
    - intros Hout.
      destruct (Z.gtb_spec hh 23); [reflexivity|].
      destruct (Z.gtb_spec mm 59); [reflexivity|].
      destruct (Z.gtb_spec ss 59); [reflexivity|lia].
    - intros (Hh & Hm & Hs). split.
      + destruct (Z.gtb_spec hh 23); [lia|].
        destruct (Z.gtb_spec mm 59); [lia|].
        destruct (Z.gtb_spec ss 59); [lia|reflexivity].
      + intros Hlen. apply strncpy_short. lia. }
  split.
  - intros t more Ht Hbuf.
    split; [|intros Hfield; apply strncpy_short; lia].
    rewrite (change_min_age_typed h s t more false); cbn [In] in Ht.
    + reflexivity.
    + repeat (destruct Ht as [<- | Ht]; [reflexivity|]). contradiction.
    + exact Hbuf.
    + repeat (destruct Ht as [<- | Ht]; [discriminate|]). contradiction.
    + repeat (destruct Ht as [<- | Ht]; [vm_compute; reflexivity|]).
      contradiction.
  - intros t more Ht Hbuf.
    rewrite (change_min_age_typed h s t more true); cbn [In] in Ht.
    + reflexivity.
    + repeat (destruct Ht as [<- | Ht]; [reflexivity|]). contradiction.
    + exact Hbuf.
    + repeat (destruct Ht as [<- | Ht]; [discriminate|]). contradiction.
    + repeat (destruct Ht as [<- | Ht]; [vm_compute; reflexivity|]).
      contradiction.
Qed.

Lemma min_age_commit_witness :
  cmd_readline (BUFFERSIZE_S example_h) (keys_of "01:02:03.99" ++ [10]) ""
    = Some (false, "01:02:03.99", [], [])
  /\ Libc.sscanf_u_u_u "01:02:03.99" = (3, (Some 1, Some 2, Some 3))
  /\ change_min_age example_h (init_screen example_h 0)
       (keys_of "01:02:03.99" ++ [10])
     = Some (set_min_age (init_screen example_h 0) "01:02:03.99",
             [min_age_prompt], [])
  /\ change_min_age example_h (init_screen example_h 0) (keys_of "" ++ [10])
     = Some (init_screen example_h 0,
             [min_age_prompt;
              Wprintw "Nothing to do. Leave min age 00:00:00"], [])
  /\ change_min_age example_h (init_screen example_h 0)
       (keys_of "abc" ++ [10])
     = Some (init_screen example_h 0,
             [min_age_prompt; min_age_refused], [])
  /\ change_min_age example_h (init_screen example_h 0)
       (keys_of "24:00:00" ++ [10])
     = Some (init_screen example_h 0,
             [min_age_prompt; min_age_refused], []).
Proof.
  assert (Hline : cmd_readline (BUFFERSIZE_S example_h)
                    (keys_of "01:02:03.99" ++ [10]) ""
                  = Some (false, "01:02:03.99", [], []))
    by (vm_compute; reflexivity).
  assert (Hscan : Libc.sscanf_u_u_u "01:02:03.99"
                  = (3, (Some 1, Some 2, Some 3)))
    by (vm_compute; reflexivity).
  split; [exact Hline|]. split; [exact Hscan|].
  split.
  { destruct (min_age_commit example_h (init_screen example_h 0) _ _ _ _
                Hline) as (_ & _ & H3 & _).
    destruct (H3 1 2 3 ltac:(discriminate) Hscan) as [_ Hok].
    destruct Hok as [Hok Hcut]; [lia|].
    rewrite Hok, Hcut; [reflexivity|vm_compute; lia]. }
  split.
  { assert (Hempty : cmd_readline (BUFFERSIZE_S example_h)
                       (keys_of "" ++ [10]) ""
                     = Some (false, "", [], []))
      by (vm_compute; reflexivity).
    destruct (min_age_commit example_h (init_screen example_h 0) _ _ _ _
                Hempty) as (H1 & _).
    rewrite (H1 eq_refl). vm_compute. reflexivity. }
  split.
  { assert (Habc : cmd_readline (BUFFERSIZE_S example_h)
                     (keys_of "abc" ++ [10]) ""
                   = Some (false, "abc", [], []))
      by (vm_compute; reflexivity).
    destruct (min_age_commit example_h (init_screen example_h 0) _ _ _ _
                Habc) as (_ & H2 & _).
    destruct H2 as [_ H2]; [vm_compute; discriminate|
                            vm_compute; reflexivity|].
    rewrite H2. reflexivity. }
  destruct (min_age_commit example_h (init_screen example_h 0) _ _ _ _
              Hline) as (_ & _ & _ & _ & Hrej).
  apply (Hrej "24:00:00" []); [cbn [In]; auto|vm_compute; lia].
Defined.

(** ** The sort key *)

(** Writes by index, the last one to an index staying. *)
Section Writes.
Context {K A : Type} (num : K -> nat) (entry : K -> A).

Let write (l : list A) (c : K) : list A := set_nth (num c) (entry c) l.

Lemma writes_length (cs : list K) (l0 : list A) :
  List.length (fold_left write cs l0) = List.length l0.
Proof.
  revert l0; induction cs as [|c cs IH]; intros l0; simpl; [reflexivity|].
  rewrite IH. apply set_nth_length.
Qed.

Lemma writes_origin (cs : list K) (l0 : list A) (m : nat) (x : A) :
  nth_error (fold_left write cs l0) m = Some x ->
  (nth_error l0 m = Some x /\ ~ In m (map num cs))
  \/ (exists c, In c cs /\ x = entry c).
Proof.
  revert l0; induction cs as [|c cs IH]; intros l0; simpl.
  - intros H. left. split; [exact H|tauto].
  - intros H. destruct (IH _ H) as [[Hl Hn] | (c' & Hc' & ->)].
    + unfold write in Hl. rewrite nth_error_set_nth in Hl.
      destruct (Nat.eqb_spec m (num c)) as [->|Hne]; cbn [andb] in Hl.
      * destruct (Nat.ltb_spec (num c) (List.length l0)) as [Hlt|Hge].
        -- right. exists c. split; [now left|]. congruence.
        -- apply nth_error_None in Hge. congruence.
      * left. split; [exact Hl|]. intros [E|E]; [congruence|tauto].
    + right. exists c'. split; [now right|reflexivity].
Qed.

End Writes.

Section WritesLast.
Context {K A : Type} (num : K -> nat) (entry : K -> A).

Let write (l : list A) (c : K) : list A := set_nth (num c) (entry c) l.

Lemma writes_untouched (cs : list K) (l0 : list A) (m : nat) :
  ~ In m (map num cs) ->
  nth_error (fold_left write cs l0) m = nth_error l0 m.
Proof.
  revert l0; induction cs as [|c cs IH]; intros l0 Hn; simpl;
    [reflexivity|].
  rewrite IH by (intros E; apply Hn; now right).
  unfold write. rewrite nth_error_set_nth.
  destruct (Nat.eqb_spec m (num c)) as [->|Hne]; [|reflexivity].
  exfalso. apply Hn. now left.
Qed.

Lemma writes_last (cs : list K) (l0 : list A) (c : K) :
  NoDup (map num cs) -> In c cs -> (num c < List.length l0)%nat ->
  nth_error (fold_left write cs l0) (num c) = Some (entry c).
Proof.
  revert l0; induction cs as [|c0 cs IH]; intros l0 Hnd Hin Hlt;
    [contradiction|].
  simpl in Hnd. inversion Hnd as [|? ? Hfresh Hnd']; subst.
  destruct Hin as [->|Hin]; simpl.
  - rewrite writes_untouched by exact Hfresh.
    unfold write. rewrite nth_error_set_nth, Nat.eqb_refl.
    destruct (Nat.ltb_spec (num c) (List.length l0)); [reflexivity|lia].
  - apply IH; try assumption. unfold write. now rewrite set_nth_length.
Qed.

End WritesLast.

Lemma distinct_NoDup (l : list nat) : distinct l = true -> NoDup l.
Proof.
  induction l as [|n l IH]; simpl; intros H; [constructor|].
  apply andb_true_iff in H. destruct H as [Hn Hd].
  constructor; [|auto].
  intros Hin. apply negb_true_iff in Hn.
  assert (existsb (Nat.eqb n) l = true); [|congruence].
  apply existsb_exists. exists n. split; [exact Hin|apply Nat.eqb_refl].
Qed.

Lemma init_context_list_writes (h : pgcenter_h) :
  init_context_list h
  = fold_left (fun l c => set_nth (context_num h c) (initial_entry h c) l)
      all_contexts (repeat zeroed_context_s (TOTAL_CONTEXTS h)).
Proof. reflexivity. Qed.

(** With the indices in order, [init_screens] leaves one entry for every
    view and nothing else. *)
Lemma init_context_list_entries (h : pgcenter_h) :
  nums_ok h = true ->
  (forall e, In e (init_context_list h) -> exists c, e = initial_entry h c)
  /\ (forall c, In (initial_entry h c) (init_context_list h)).
Proof.
  unfold nums_ok. intros Hok.
  apply andb_true_iff in Hok. destruct Hok as [Hok Hcover].
  apply andb_true_iff in Hok. destruct Hok as [Hdistinct Hbound].
  apply distinct_NoDup in Hdistinct.
  rewrite forallb_forall in Hbound, Hcover.
  rewrite init_context_list_writes. split.
  - intros e Hin. apply In_nth_error in Hin. destruct Hin as [m Hm].
    destruct (writes_origin (context_num h) (initial_entry h) _ _ _ _ Hm)
      as [[Hzero Hfree] | (c & _ & ->)]; [|eauto].
    exfalso. apply Hfree.
    assert (Hlt : (m < TOTAL_CONTEXTS h)%nat).
    { rewrite <- (repeat_length zeroed_context_s).
      apply nth_error_Some. congruence. }
    specialize (Hcover m (proj2 (in_seq _ _ _) (conj (Nat.le_0_l m) Hlt))).
    apply existsb_exists in Hcover. destruct Hcover as (n & Hn & E).
    apply Nat.eqb_eq in E. subst n. exact Hn.
  - intros c. apply (nth_error_In _ (context_num h c)).
    apply (writes_last (context_num h) (initial_entry h)).
    + exact Hdistinct.
    + destruct c; simpl; tauto.
    + rewrite repeat_length. apply Nat.ltb_lt, Hbound.
      apply in_map. destruct c; simpl; tauto.
Qed.

(** The lookup finds the last entry of the current view. *)
Lemma lookup_order_found (s : screen_s) :
  (exists e, In e (context_list s) /\ ctx e = current_context s) ->
  exists e, In e (context_list s) /\ ctx e = current_context s
            /\ lookup_order s = Some (order_key e, order_desc e).
Proof.
  unfold lookup_order. generalize (current_context s) as c.
  generalize (@None (Z * bool)) as acc.
  induction (context_list s) as [|e l IH] using rev_ind; intros acc c.
  - intros (e & [] & _).
  - intros (e0 & Hin & Hctx). rewrite fold_left_app. simpl.
    destruct (context_eqb c (ctx e)) eqn:E.
    + apply context_eqb_eq in E. exists e. split; [|auto].
      apply in_or_app. right. now left.
    + apply in_app_or in Hin. destruct Hin as [Hin | [<- | []]].
      * destruct (IH acc c) as (e' & Hin' & Hc' & Hl'); [eauto|].
        exists e'. split; [apply in_or_app; now left|auto].
      * rewrite Hctx in E.
        assert (context_eqb c c = true) by now apply context_eqb_eq.
        congruence.
Qed.

Lemma lookup_order_init (h : pgcenter_h) (i : nat) (c : context) :
  nums_ok h = true ->
  lookup_order (set_current_context (init_screen h i) c)
  = Some (initial_order_key h c, true).
Proof.
  intros Hok. destruct (init_context_list_entries h Hok) as [Hall Hex].
  destruct (lookup_order_found (set_current_context (init_screen h i) c))
    as (e & Hin & Hctx & ->).
  - exists (initial_entry h c). split; [apply Hex|reflexivity].
  - destruct (Hall e Hin) as (c' & ->). simpl in Hctx. subst c'.
    reflexivity.
Qed.

Lemma press_current_context (h : pgcenter_h) (increment : bool)
    (s : screen_s) :
  current_context (press h increment s) = current_context s.
Proof.
  unfold press, change_sort_order.
  destruct (sort_range h (current_context s)). reflexivity.
Qed.

Lemma press_context_list (h : pgcenter_h) (increment : bool) (s : screen_s) :
  context_list (press h increment s)
  = map (fun e =>
           if context_eqb (current_context s) (ctx e)
           then set_order_key e
                  (next_key (fst (sort_range h (current_context s)))
                     (snd (sort_range h (current_context s)))
                     increment (order_key e))
           else e)
        (context_list s).
Proof.
  unfold press, change_sort_order, next_key.
  destruct (sort_range h (current_context s)) as [mn mx].
  destruct increment; cbn [negb fst snd context_list set_context_list];
    apply map_ext; intros e;
    destruct (context_eqb _ _); try reflexivity;
    match goal with |- context [if ?b then _ else _] =>
      destruct b; reflexivity end.
Qed.

Lemma lookup_fold_map (c : context) (nk : Z -> Z) (l : list context_s)
    (acc : option (Z * bool)) :
  let lift (o : option (Z * bool)) :=
    match o with
    | Some (k, d) => Some (nk k, d)
    | None => None
    end in
  fold_left
    (fun acc e =>
       if context_eqb c (ctx e) then Some (order_key e, order_desc e)
       else acc)
    (map (fun e => if context_eqb c (ctx e)
                   then set_order_key e (nk (order_key e)) else e) l)
    (lift acc)
  = lift (fold_left
            (fun acc e =>
               if context_eqb c (ctx e)
               then Some (order_key e, order_desc e) else acc)
            l acc).
Proof.
  intros lift. revert acc.
  induction l as [|e l IH]; intros acc; simpl; [reflexivity|].
  destruct (context_eqb c (ctx e)) eqn:E; simpl; rewrite ?E.
  - apply (IH (Some (order_key e, order_desc e))).
  - apply IH.
Qed.

Lemma lookup_order_press (h : pgcenter_h) (increment : bool) (s : screen_s) :
  lookup_order (press h increment s)
  = match lookup_order s with
    | Some (k, d) =>
        Some (next_key (fst (sort_range h (current_context s)))
                (snd (sort_range h (current_context s))) increment k, d)
    | None => None
    end.
Proof.
  unfold lookup_order.
  rewrite press_current_context, press_context_list.
  exact (lookup_fold_map (current_context s) _ (context_list s) None).
Qed.

Lemma lookup_order_presses (h : pgcenter_h) (increment : bool)
    (s : screen_s) (k0 : Z) (d : bool) (n : nat) :
  lookup_order s = Some (k0, d) ->
  lookup_order (Nat.iter n (press h increment) s)
  = Some (Nat.iter n (next_key (fst (sort_range h (current_context s)))
                        (snd (sort_range h (current_context s)))
                        increment) k0, d)
  /\ current_context (Nat.iter n (press h increment) s) = current_context s.
Proof.
  intros H0. induction n as [|n [IHl IHc]]; simpl; [auto|].
  rewrite lookup_order_press, press_current_context, IHl, IHc. auto.
Qed.

(** The key after [n] arrows, in closed form. *)
Lemma next_key_iter (min max : Z) (increment : bool) (k0 : Z) (n : nat) :
  min <= k0 <= max ->
  Nat.iter n (next_key min max increment) k0
  = min + (k0 - min + (if increment then 1 else -1) * Z.of_nat n)
          mod (max - min + 1).
Proof.
  intros Hk. induction n as [|n IH].
  - simpl. rewrite Z.mul_0_r, Z.add_0_r, Z.mod_small; lia.
  - rewrite Nat2Z.inj_succ, Nat.iter_succ, IH.
    set (a := k0 - min + (if increment then 1 else -1) * Z.of_nat n).
    assert (Hm : 0 < max - min + 1) by lia.
    pose proof (Z.mod_pos_bound a _ Hm) as Hr.
    unfold next_key. destruct increment.
    + replace (k0 - min + 1 * Z.succ (Z.of_nat n)) with (a + 1)
        by (subst a; lia).
      rewrite <- (Z.add_mod_idemp_l a 1) by lia.
      destruct (Z.gtb_spec (min + a mod (max - min + 1) + 1) max).
      * replace (a mod (max - min + 1) + 1) with (max - min + 1) by lia.
        rewrite Z.mod_same by lia. lia.
      * rewrite (Z.mod_small (a mod (max - min + 1) + 1)) by lia. lia.
    + replace (k0 - min + -1 * Z.succ (Z.of_nat n)) with (a - 1)
        by (subst a; lia).
      rewrite <- (Zminus_mod_idemp_l a 1).
      destruct (Z.ltb_spec (min + a mod (max - min + 1) - 1) min).
      * replace (a mod (max - min + 1) - 1) with (-1) by lia.
        replace (-1) with (max - min + -1 * (max - min + 1)) by lia.
        rewrite Z.mod_add by lia. rewrite Z.mod_small by lia. lia.
      * rewrite (Z.mod_small (a mod (max - min + 1) - 1)) by lia. lia.
Qed.

Lemma sort_range_initial (h : pgcenter_h) (c : context) :
  fst (sort_range h c) <= initial_order_key h c.
Proof. destruct c; simpl; lia. Qed.

(** C2.  For every view whose range of sort columns [[sort_min, sort_max]]
    holds the initial key, the right arrow pressed again and again from
    the initial key keeps the key within the range, reaches every column
    of the range, comes back to the initial key after
    [sort_max - sort_min + 1] presses and not before; and so does the left
    arrow. *)
Theorem sort_wraparound (h : pgcenter_h) (i : nat) (c : context)
    (increment : bool) :
  nums_ok h = true ->
  initial_order_key h c <= snd (sort_range h c) ->
  let s0 := set_current_context (init_screen h i) c in
  let min := fst (sort_range h c) in
  let max := snd (sort_range h c) in
  let n := Z.to_nat (max - min + 1) in
  let key k := current_order_key (Nat.iter k (press h increment) s0) in
  key 0%nat = Some (initial_order_key h c)
  /\ (forall k, exists v, key k = Some v /\ min <= v <= max)
  /\ (forall col, min <= col <= max ->
        exists k, (k < n)%nat /\ key k = Some col)
  /\ key n = key 0%nat
  /\ (forall k, (0 < k < n)%nat -> key k <> key 0%nat).
Proof.
  intros Hok Hmax s0 min max n key.
  pose proof (sort_range_initial h c) as Hmin. fold min in Hmin.
  fold max in Hmax.
  set (k0 := initial_order_key h c) in *.
  set (sigma := if increment then 1 else -1).
  set (N := max - min + 1).
  assert (HN : 0 < N) by (subst N; lia).
  assert (Hkey : forall k,
             key k = Some (min + (k0 - min + sigma * Z.of_nat k) mod N)).
  { intros k. subst key. cbv beta. unfold current_order_key.
    destruct (lookup_order_presses h increment s0 k0 true k
                (lookup_order_init h i c Hok)) as [-> _].
    change (current_context s0) with c. fold min max.
    rewrite next_key_iter by lia. reflexivity. }
  assert (Hn : Z.of_nat n = N) by (subst n N; lia).
  assert (H0 : key 0%nat = Some k0).
  { rewrite Hkey. rewrite Z.mul_0_r, Z.add_0_r, Z.mod_small by lia.
    f_equal. lia. }
  split; [exact H0|].
  split.
  { intros k. eexists. split; [apply Hkey|].
    pose proof (Z.mod_pos_bound (k0 - min + sigma * Z.of_nat k) N HN).
    lia. }
  split.
  { intros col Hcol.
    exists (Z.to_nat ((sigma * (col - k0)) mod N)).
    pose proof (Z.mod_pos_bound (sigma * (col - k0)) N HN) as Hb.
    split; [lia|].
    rewrite Hkey, Z2Nat.id by lia. f_equal.
    assert (E : (k0 - min + sigma * ((sigma * (col - k0)) mod N)) mod N
                = (col - min) mod N).
    { subst sigma. destruct increment.
      - rewrite !Z.mul_1_l, Z.add_mod_idemp_r by lia. f_equal. lia.
      - replace (k0 - min + -1 * ((-1 * (col - k0)) mod N))
          with (k0 - min - (k0 - col) mod N)
          by (replace (-1 * (col - k0)) with (k0 - col) by lia; lia).
        rewrite Zminus_mod_idemp_r. f_equal. lia. }
    rewrite E, Z.mod_small by lia. lia. }
  split.
  { rewrite H0, Hkey, Hn. rewrite Z.mod_add by lia.
    rewrite Z.mod_small by lia. f_equal. lia. }
  intros k Hk. rewrite H0, Hkey. intros E. inversion E as [E'].
  assert (Hmod : (k0 - min + sigma * Z.of_nat k) mod N = k0 - min) by lia.
  clear E E'.
  assert (Hk' : 0 < Z.of_nat k < N) by lia.
  subst sigma. destruct increment.
  - destruct (Z_lt_ge_dec (k0 - min + 1 * Z.of_nat k) N).
    + rewrite Z.mod_small in Hmod by lia. lia.
    + replace (k0 - min + 1 * Z.of_nat k)
        with (k0 - min + Z.of_nat k - N + 1 * N) in Hmod by lia.
      rewrite Z.mod_add, Z.mod_small in Hmod by lia. lia.
  - destruct (Z_lt_ge_dec (k0 - min + -1 * Z.of_nat k) 0).
    + replace (k0 - min + -1 * Z.of_nat k)
        with (k0 - min - Z.of_nat k + N + (-1) * N) in Hmod by lia.
      rewrite Z.mod_add, Z.mod_small in Hmod by lia. lia.
    + rewrite Z.mod_small in Hmod by lia. lia.
Qed.

Lemma sort_wraparound_witness :
  nums_ok example_h = true
  /\ initial_order_key example_h pg_tables_size
     <= snd (sort_range example_h pg_tables_size)
  /\ current_order_key
       (Nat.iter 6 (press example_h true)
          (set_current_context (init_screen example_h 0) pg_tables_size))
     = current_order_key
         (set_current_context (init_screen example_h 0) pg_tables_size)
  /\ exists k, (k < 6)%nat
       /\ current_order_key
            (Nat.iter k (press example_h false)
               (set_current_context (init_screen example_h 0)
                  pg_stat_database))
          = Some 3.
Proof.
  split; [reflexivity|]. split; [discriminate|].
  split.
  - exact (proj1 (proj2 (proj2 (proj2
             (sort_wraparound example_h 0 pg_tables_size true
                eq_refl ltac:(discriminate)))))).
  - destruct (proj1 (proj2 (proj2
             (sort_wraparound example_h 0 pg_stat_database false
                eq_refl ltac:(discriminate)))) 3 ltac:(simpl; lia))
      as (k & Hk & Hkey).
    exists k. split; [simpl in Hk; lia|exact Hkey].
Defined.

(** ** sort_array *)

Section Exchange.
Context {A : Type} (rank : A -> Z) (d : A).

Lemma swap_length (l : list A) (i j : nat) :
  List.length (swap d l i j) = List.length l.
Proof. unfold swap. now rewrite !set_nth_length. Qed.

Lemma nth_swap (l : list A) (i j p : nat) :
  (i < List.length l)%nat -> (j < List.length l)%nat ->
  nth p (swap d l i j) d
  = if (p =? j)%nat then nth i l d
    else if (p =? i)%nat then nth j l d else nth p l d.
Proof.
  intros Hi Hj. unfold swap.
  rewrite !nth_set_nth, set_nth_length.
  destruct (Nat.ltb_spec j (List.length l)); [|lia].
  destruct (Nat.ltb_spec i (List.length l)); [|lia].
  rewrite !andb_true_r. reflexivity.
Qed.

Lemma swap_Permutation (l : list A) (i j : nat) :
  (i < List.length l)%nat -> (j < List.length l)%nat ->
  Permutation l (swap d l i j).
Proof.
  intros Hi Hj. apply Permutation_nth_error.
  split; [symmetry; apply swap_length|].
  exists (fun p => if (p =? j)%nat then i
                   else if (p =? i)%nat then j else p).
  split.
  - intros p q.
    destruct (Nat.eqb_spec p j), (Nat.eqb_spec p i),
      (Nat.eqb_spec q j), (Nat.eqb_spec q i); lia.
  - intros p. unfold swap.
    rewrite !nth_error_set_nth, set_nth_length.
    destruct (Nat.ltb_spec j (List.length l)); [|lia].
    destruct (Nat.ltb_spec i (List.length l)); [|lia].
    rewrite !andb_true_r.
    destruct (Nat.eqb_spec p j);
      [symmetry; apply nth_error_nth'; assumption|].
    destruct (Nat.eqb_spec p i);
      [symmetry; apply nth_error_nth'; assumption|reflexivity].
Qed.

Lemma exchange_inner_prefix (l : list A) (i m : nat) :
  (S i + m <= List.length l)%nat ->
  let l' := fold_left (exchange_step rank d i) (seq (S i) m) l in
  List.length l' = List.length l
  /\ Permutation l l'
  /\ (forall p, (p < i)%nat -> nth p l' d = nth p l d)
  /\ (forall q, (i < q < S i + m)%nat ->
        rank (nth q l' d) <= rank (nth i l' d))
  /\ (forall q, (i <= q < List.length l)%nat ->
        exists q', (i <= q' < List.length l)%nat
                   /\ nth q l' d = nth q' l d).
Proof.
  induction m as [|m IH]; intros Hm; cbn zeta.
  - simpl. split; [reflexivity|]. split; [apply Permutation_refl|].
    split; [reflexivity|]. split; [intros q Hq; lia|].
    intros q Hq. exists q. auto.
  - rewrite seq_S, fold_left_app. cbn [fold_left].
    destruct IH as (Hlen & Hperm & Hlow & Htop & Hfrom); [lia|].
    set (l' := fold_left (exchange_step rank d i) (seq (S i) m) l) in *.
    set (j := (S i + m)%nat).
    assert (Hi : (i < List.length l')%nat) by lia.
    assert (Hj : (j < List.length l')%nat) by (subst j; lia).
    unfold exchange_step.
    destruct (Z.gtb_spec (rank (nth j l' d)) (rank (nth i l' d)))
      as [Hgt|Hle].
    + split; [now rewrite swap_length|].
      split; [eapply Permutation_trans;
              [exact Hperm|apply swap_Permutation; assumption]|].
      split.
      { intros p Hp. rewrite nth_swap by assumption.
        destruct (Nat.eqb_spec p j); [subst j; lia|].
        destruct (Nat.eqb_spec p i); [lia|]. apply Hlow, Hp. }
      split.
      { intros q Hq. rewrite !nth_swap by assumption.
        rewrite Nat.eqb_refl.
        destruct (Nat.eqb_spec i j); [subst j; lia|].
        destruct (Nat.eqb_spec q j); [lia|].
        destruct (Nat.eqb_spec q i); [lia|].
        assert (rank (nth q l' d) <= rank (nth i l' d))
          by (apply Htop; subst j; lia).
        lia. }
      intros q Hq. rewrite nth_swap by assumption.
      destruct (Nat.eqb_spec q j); [apply Hfrom; lia|].
      destruct (Nat.eqb_spec q i); [apply Hfrom; subst j; lia|].
      apply Hfrom, Hq.
    + split; [exact Hlen|]. split; [exact Hperm|]. split; [exact Hlow|].
      split; [|exact Hfrom].
      intros q Hq. destruct (Nat.eq_dec q j) as [->|Hne]; [lia|].
      apply Htop. subst j. lia.
Qed.

Lemma exchange_sort_prefix (l : list A) (m : nat) :
  (m <= List.length l)%nat ->
  let l' := fold_left (exchange_inner rank d (List.length l)) (seq 0 m) l in
  List.length l' = List.length l
  /\ Permutation l l'
  /\ (forall p q, (p < m)%nat -> (p < q < List.length l)%nat ->
        rank (nth q l' d) <= rank (nth p l' d)).
Proof.
  induction m as [|m IH]; intros Hm; cbn zeta.
  - simpl. split; [reflexivity|]. split; [apply Permutation_refl|].
    intros p q Hp. lia.
  - rewrite seq_S, fold_left_app. cbn [fold_left]. rewrite Nat.add_0_l.
    destruct IH as (Hlen & Hperm & Hsorted); [lia|].
    set (l' := fold_left (exchange_inner rank d (List.length l))
                 (seq 0 m) l) in *.
    destruct (exchange_inner_prefix l' m (List.length l - S m))
      as (Hlen' & Hperm' & Hlow & Htop & Hfrom); [lia|].
    fold (exchange_inner rank d (List.length l) l' m) in *.
    set (l'' := exchange_inner rank d (List.length l) l' m) in *.
    split; [lia|].
    split; [eapply Permutation_trans; eassumption|].
    intros p q Hp Hq.
    destruct (Nat.eq_dec p m) as [->|Hne].
    + apply Htop. lia.
    + rewrite (Hlow p) by lia.
      destruct (Nat.lt_ge_cases q m) as [Hqm|Hqm].
      * rewrite (Hlow q) by lia. apply Hsorted; lia.
      * destruct (Hfrom q) as (q' & Hq' & ->); [lia|].
        apply Hsorted; lia.
Qed.

Lemma pairwise_StronglySorted (R : A -> A -> Prop) (l : list A) :
  (forall p q, (p < q < List.length l)%nat -> R (nth p l d) (nth q l d)) ->
  StronglySorted R l.
Proof.
  induction l as [|a l IH]; intros H; constructor.
  - apply IH. intros p q Hpq. apply (H (S p) (S q)). simpl. lia.
  - apply Forall_forall. intros x Hx.
    destruct (In_nth l x d Hx) as (q & Hq & <-).
    apply (H 0%nat (S q)). simpl. lia.
Qed.

(** The exchange sort gives a permutation in descending order of rank. *)
Lemma exchange_sort_sorted (l : list A) :
  Permutation l (exchange_sort rank d (List.length l) l)
  /\ StronglySorted (fun a b => rank b <= rank a)
       (exchange_sort rank d (List.length l) l).
Proof.
  destruct (exchange_sort_prefix l (List.length l) (Nat.le_refl _))
    as (Hlen & Hperm & Hsorted).
  fold (exchange_sort rank d (List.length l) l) in *.
  split; [exact Hperm|].
  apply pairwise_StronglySorted. intros p q Hpq.
  apply Hsorted; lia.
Qed.

End Exchange.

Lemma fold_left_agree {S X : Type} (P : S -> Prop) (f g : S -> X -> S)
    (l : list X) (s0 : S) :
  P s0 ->
  (forall s x, In x l -> P s -> f s x = g s x /\ P (g s x)) ->
  fold_left f l s0 = fold_left g l s0 /\ P (fold_left g l s0).
Proof.
  revert s0; induction l as [|x l IH]; intros s0 H0 Hstep; simpl; [auto|].
  destruct (Hstep s0 x (or_introl eq_refl) H0) as [-> HP].
  apply IH; [exact HP|]. intros s y Hy. apply Hstep. now right.
Qed.

Lemma StronglySorted_impl {A : Type} (R R' : A -> A -> Prop) (l : list A) :
  (forall a b, R a b -> R' a b) -> StronglySorted R l -> StronglySorted R' l.
Proof.
  intros Himp H. induction H as [|a l Hs IH Hall]; constructor; auto.
  eapply Forall_impl; [|exact Hall]. apply Himp.
Qed.

Lemma Forall_set_nth {A : Type} (P : A -> Prop) (n : nat) (x : A)
    (l : list A) :
  Forall P l -> P x -> Forall P (set_nth n x l).
Proof.
  intros Hl Hx. revert n; induction Hl as [|y l Hy Hl IH]; intros [|n];
    simpl; constructor; auto.
Qed.

Lemma cell_set_cell (arr : array) (i x r y : nat) (v : string) :
  cell (set_cell arr i x v) r y
  = if (r =? i)%nat && (i <? List.length arr)%nat
       && ((y =? x)%nat && (x <? List.length (nth i arr []))%nat)
    then v else cell arr r y.
Proof.
  unfold cell, set_cell. rewrite nth_set_nth.
  destruct ((r =? i)%nat && (i <? List.length arr)%nat) eqn:E; cbn [andb].
  - rewrite nth_set_nth.
    apply andb_true_iff in E. destruct E as [E _].
    apply Nat.eqb_eq in E. subst r. reflexivity.
  - reflexivity.
Qed.

Lemma set_cell_shape (arr : array) (n_rows n_cols : Z) (i x : nat)
    (v : string) :
  shape arr n_rows n_cols -> (i < Z.to_nat n_rows)%nat ->
  shape (set_cell arr i x v) n_rows n_cols.
Proof.
  intros Hs Hi. pose proof (shape_nth arr n_rows n_cols i Hs Hi) as Hrow.
  destruct Hs as [Hlen Hrows]. unfold set_cell. split.
  - now rewrite set_nth_length.
  - apply Forall_set_nth; [exact Hrows|]. now rewrite set_nth_length.
Qed.

Lemma swap_shape (arr : array) (n_rows n_cols : Z) (i j : nat) :
  shape arr n_rows n_cols ->
  (i < Z.to_nat n_rows)%nat -> (j < Z.to_nat n_rows)%nat ->
  shape (swap [] arr i j) n_rows n_cols.
Proof.
  intros [Hlen Hrows] Hi Hj. split.
  - now rewrite swap_length.
  - eapply Permutation_Forall; [|exact Hrows].
    apply swap_Permutation; lia.
Qed.

Lemma cell_swap (arr : array) (i j r y : nat) :
  (i < List.length arr)%nat -> (j < List.length arr)%nat ->
  cell (swap [] arr i j) r y
  = if (r =? j)%nat then cell arr i y
    else if (r =? i)%nat then cell arr j y else cell arr r y.
Proof.
  intros Hi Hj. unfold cell. rewrite nth_swap by assumption.
  destruct (r =? j)%nat; [reflexivity|].
  destruct (r =? i)%nat; reflexivity.
Qed.

(** Column by column, the three copies exchange the two rows. *)
Lemma swap_cells_prefix (arr : array) (n_rows n_cols : Z) (i j m : nat) :
  shape arr n_rows n_cols ->
  (i < Z.to_nat n_rows)%nat -> (j < Z.to_nat n_rows)%nat -> i <> j ->
  (m <= Z.to_nat n_cols)%nat ->
  let step := fun a x =>
                let temp := cell a i x in
                let a := set_cell a i x (cell a j x) in
                set_cell a j x temp in
  let arr' := fold_left step (seq 0 m) arr in
  shape arr' n_rows n_cols
  /\ (forall r y,
        cell arr' r y
        = if (y <? m)%nat then cell (swap [] arr i j) r y else cell arr r y).
Proof.
  intros Hs Hi Hj Hij. induction m as [|m IH]; intros Hm; cbn zeta.
  - simpl. split; [exact Hs|reflexivity].
  - rewrite seq_S, fold_left_app. cbn [fold_left]. rewrite Nat.add_0_l.
    destruct IH as [Hs' Hcell]; [lia|].
    set (a := fold_left _ (seq 0 m) arr) in *.
    split; [apply set_cell_shape; [apply set_cell_shape|]; assumption|].
    intros r y. rewrite !cell_set_cell.
    assert (Hla : List.length a = Z.to_nat n_rows) by (destruct Hs'; auto).
    assert (Hlarr : List.length arr = Z.to_nat n_rows)
      by (destruct Hs; auto).
    assert (Hla' : List.length (set_cell a i m (cell a j m))
                   = Z.to_nat n_rows)
      by (unfold set_cell; now rewrite set_nth_length).
    rewrite Hla', Hla.
    assert (Hrow_j : List.length (nth j (set_cell a i m (cell a j m)) [])
                     = Z.to_nat n_cols).
    { apply (shape_nth _ n_rows n_cols); [|exact Hj].
      apply set_cell_shape; assumption. }
    rewrite Hrow_j, (shape_nth a n_rows n_cols i Hs' Hi).
    replace (i <? Z.to_nat n_rows)%nat with true
      by (symmetry; apply Nat.ltb_lt; lia).
    replace (j <? Z.to_nat n_rows)%nat with true
      by (symmetry; apply Nat.ltb_lt; lia).
    replace (m <? Z.to_nat n_cols)%nat with true
      by (symmetry; apply Nat.ltb_lt; lia).
    rewrite !andb_true_r, !Hcell, !Nat.ltb_irrefl.
    rewrite !cell_swap by lia.
    destruct (Nat.eqb_spec y m) as [->|Hym].
    + replace (m <? S m)%nat with true by (symmetry; apply Nat.ltb_lt; lia).
      rewrite ?Nat.ltb_irrefl.
      destruct (Nat.eqb_spec r j) as [->|Hrj]; cbn [andb]; [reflexivity|].
      destruct (Nat.eqb_spec r i) as [->|Hri]; cbn [andb]; reflexivity.
    + rewrite !andb_false_r.
      destruct (Nat.ltb_spec y m), (Nat.ltb_spec y (S m)); try lia;
        reflexivity.
Qed.

Lemma swap_cells_rows (arr : array) (n_rows n_cols : Z) (i j : nat) :
  shape arr n_rows n_cols ->
  (i < Z.to_nat n_rows)%nat -> (j < Z.to_nat n_rows)%nat -> i <> j ->
  swap_cells arr i j n_cols = swap [] arr i j.
Proof.
  intros Hs Hi Hj Hij.
  destruct (swap_cells_prefix arr n_rows n_cols i j (Z.to_nat n_cols)
              Hs Hi Hj Hij (Nat.le_refl _)) as [Hs' Hcell].
  apply (array_ext _ _ n_rows n_cols).
  - exact Hs'.
  - apply swap_shape; assumption.
  - intros r y Hr Hy. unfold swap_cells. rewrite Hcell.
    destruct (Nat.ltb_spec y (Z.to_nat n_cols)); [reflexivity|lia].
Qed.

Lemma sort_step_rows (desc : bool) (k : nat) (arr : array)
    (n_rows n_cols : Z) (i j : nat) :
  shape arr n_rows n_cols ->
  (i < j)%nat -> (j < Z.to_nat n_rows)%nat ->
  sort_step desc k n_cols i arr j
  = exchange_step (row_rank desc k) [] i arr j
  /\ shape (exchange_step (row_rank desc k) [] i arr j) n_rows n_cols.
Proof.
  intros Hs Hij Hj.
  assert (Hswap : swap_cells arr i j n_cols = swap [] arr i j)
    by (apply (swap_cells_rows arr n_rows n_cols); auto; lia).
  assert (Hshape : shape (swap [] arr i j) n_rows n_cols)
    by (apply swap_shape; auto; lia).
  unfold sort_step, exchange_step, row_rank, row_key, cell.
  destruct desc; cbn [negb]; cbv zeta;
    set (kj := Libc.atoll (nth k (nth j arr []) ""));
    set (ki := Libc.atoll (nth k (nth i arr []) "")).
  - destruct (kj >? ki); rewrite ?Hswap;
      split; (reflexivity || assumption).
  - destruct (Z.gtb_spec ki kj), (Z.gtb_spec (- kj) (- ki)); try lia;
      rewrite ?Hswap; split; (reflexivity || assumption).
Qed.

Lemma sort_rows_rows (desc : bool) (k : nat) (arr : array)
    (n_rows n_cols : Z) :
  shape arr n_rows n_cols ->
  sort_rows desc k (Z.to_nat n_rows) n_cols arr
  = exchange_sort (row_rank desc k) [] (List.length arr) arr.
Proof.
  intros Hs. assert (Hlen : List.length arr = Z.to_nat n_rows)
    by (destruct Hs; auto).
  rewrite Hlen. unfold sort_rows, exchange_sort.
  apply (fold_left_agree (fun a => shape a n_rows n_cols)); [exact Hs|].
  intros a i Hi Ha. apply in_seq in Hi. unfold exchange_inner.
  apply (fold_left_agree (fun a => shape a n_rows n_cols)); [exact Ha|].
  intros b j Hj Hb. apply in_seq in Hj.
  apply (sort_step_rows desc k b n_rows n_cols i j); auto; lia.
Qed.

(** C6, as the claim states it, fails on the user-functions view: the key
    is column 1, not [-1], the direction is descending, and the rows come
    back as they were, the smaller number first. *)
Lemma sort_array_counterexample :
  lookup_order functions_screen = Some (1, true)
  /\ 1 <> INVALID_ORDER_KEY example_h
  /\ shape functions_rows 2 2
  /\ sort_array example_h functions_rows 2 2 functions_screen
     = Some functions_rows
  /\ ~ StronglySorted (in_order true 1) functions_rows.
Proof.
  split; [reflexivity|]. split; [discriminate|].
  split; [split; [reflexivity|repeat constructor]|].
  split; [reflexivity|].
  intros H. inversion H as [|row rest _ Hall]; subst.
  inversion Hall as [|row' rest' Hord _]; subst.
  vm_compute in Hord. apply Hord. reflexivity.
Qed.

(** C6, amended.  On every view but user-functions (where [sort_array]
    returns at once, the server having sorted), and with an order key that
    is not [-1] ([INVALID_ORDER_KEY]), [sort_array] leaves the rows of the
    array, each one whole, in another order: the [atoll] of the cell in the
    order-key column goes down along the rows when the direction is
    descending and up otherwise.  With the order key [INVALID_ORDER_KEY],
    and on the user-functions view, the array is left as it is. *)
Theorem sort_array_sorts (h : pgcenter_h) (res_arr : array)
    (n_rows n_cols : Z) (s : screen_s) :
  shape res_arr n_rows n_cols ->
  (current_context s = pg_stat_user_functions ->
   sort_array h res_arr n_rows n_cols s = Some res_arr)
  /\ (forall k d, lookup_order s = Some (k, d) ->
        k = INVALID_ORDER_KEY h ->
        sort_array h res_arr n_rows n_cols s = Some res_arr)
  /\ (forall k d,
        current_context s <> pg_stat_user_functions ->
        lookup_order s = Some (k, d) ->
        k <> INVALID_ORDER_KEY h ->
        0 <= k < n_cols ->
        exists sorted,
          sort_array h res_arr n_rows n_cols s = Some sorted
          /\ Permutation res_arr sorted
          /\ shape sorted n_rows n_cols
          /\ StronglySorted (in_order d (Z.to_nat k)) sorted).
Proof.
  intros Hs. unfold sort_array. split; [|split].
  - intros ->. reflexivity.
  - intros k d Hl ->. rewrite Hl. cbn [bind].
    rewrite Z.eqb_refl. destruct (context_eqb _ _); reflexivity.
  - intros k d Hctx Hl Hk Hcol. rewrite Hl. cbn [bind].
    destruct (context_eqb (current_context s) pg_stat_user_functions) eqn:E;
      [apply context_eqb_eq in E; contradiction|].
    destruct (Z.eqb_spec k (INVALID_ORDER_KEY h)); [contradiction|].
    destruct (Z.ltb_spec k 0); [lia|].
    destruct (Z.leb_spec n_cols k); [lia|].
    rewrite andb_false_r.
    rewrite (sort_rows_rows d (Z.to_nat k) res_arr n_rows n_cols Hs).
    destruct (exchange_sort_sorted (row_rank d (Z.to_nat k)) [] res_arr)
      as [Hperm Hsorted].
    eexists. split; [reflexivity|]. split; [exact Hperm|]. split.
    + destruct Hs as [Hlen Hrows]. split.
      * rewrite <- Hlen. symmetry. apply Permutation_length, Hperm.
      * eapply Permutation_Forall; eassumption.
    + eapply StronglySorted_impl; [|exact Hsorted].
      intros a b. unfold in_order, row_rank. destruct d; simpl; lia.
Qed.

Lemma sort_array_sorts_witness :
  shape unsorted_rows 3 2
  /\ lookup_order (init_screen example_h 0) = Some (1, true)
  /\ sort_array example_h unsorted_rows 3 2 (init_screen example_h 0)
     = Some [["b"; "30"]; ["c"; "12"]; ["a"; "5"]]
  /\ exists sorted,
       sort_array example_h unsorted_rows 3 2 (init_screen example_h 0)
       = Some sorted
       /\ Permutation unsorted_rows sorted
       /\ StronglySorted (in_order true 1) sorted.
Proof.
  assert (Hs : shape unsorted_rows 3 2)
    by (split; [reflexivity|repeat constructor]).
  split; [exact Hs|]. split; [reflexivity|].
  split; [vm_compute; reflexivity|].
  destruct (sort_array_sorts example_h unsorted_rows 3 2
              (init_screen example_h 0) Hs) as (_ & _ & Hsort).
  destruct (Hsort 1 true) as (sorted & Heq & Hperm & _ & Hsorted).
  - discriminate.
  - reflexivity.
  - discriminate.
  - lia.
  - exists sorted. auto.
Defined.

(** ** The turn that diffs, sorts and draws *)

Lemma mapM_Some {A B : Type} (f : A -> option B) (g : A -> B) (l : list A) :
  (forall a, In a l -> f a = Some (g a)) -> mapM f l = Some (map g l).
Proof.
  induction l as [|a l IH]; intros H; simpl; [reflexivity|].
  rewrite (H a) by now left. cbn [bind].
  rewrite IH by (intros b Hb; apply H; now right). reflexivity.
Qed.

Lemma mapM_None {A B : Type} (f : A -> option B) (l : list A) (a : A) :
  In a l -> f a = None -> mapM f l = None.
Proof.
  induction l as [|x l IH]; intros Hin Hf; [contradiction|]. simpl.
  destruct Hin as [->|Hin].
  - rewrite Hf. reflexivity.
  - destruct (f x); [|reflexivity]. cbn [bind]. rewrite IH by assumption.
    reflexivity.
Qed.

Lemma Forall_prefix {A : Type} (P : A -> Prop) (n : nat) (l : list A) :
  Forall P l -> Forall P (firstn n l).
Proof.
  intros H. revert n. induction H as [|a l Ha Hl IH]; intros [|n];
    cbn [firstn]; constructor; auto.
Qed.

Lemma in_prefix {A : Type} (x : A) (n : nat) (l : list A) :
  In x (firstn n l) -> In x l.
Proof.
  intros H. rewrite <- (firstn_skipn n l). apply in_or_app. now left.
Qed.

Lemma cells_fit_check (arr : array) :
  forallb (forallb (fun v => (String.length v <? CELL_SIZE)%nat)) arr = true ->
  cells_fit arr.
Proof.
  intros H. unfold cells_fit. apply Forall_forall. intros row Hrow.
  rewrite forallb_forall in H. specialize (H row Hrow).
  apply Forall_forall. intros v Hv.
  rewrite forallb_forall in H. apply Nat.ltb_lt, H, Hv.
Qed.

Lemma cells_fit_prefix (arr : array) (n m : nat) :
  cells_fit arr -> cells_fit (map (firstn m) (firstn n arr)).
Proof.
  unfold cells_fit. intros H. apply Forall_map.
  apply Forall_prefix. eapply Forall_impl; [|exact H].
  intros row Hrow. apply Forall_prefix, Hrow.
Qed.

Lemma firstn_rows (n : nat) (arr : array) :
  Forall (fun row => (List.length row <= n)%nat) arr ->
  map (firstn n) arr = arr.
Proof.
  intros H. rewrite <- (map_id arr) at 2. apply map_ext_in.
  intros row Hrow. rewrite Forall_forall in H.
  apply firstn_all2, H, Hrow.
Qed.

(** The cells asked for are there and fit: the copy is the prefix of the
    tuples, each cut to [n_cols] values. *)
Lemma pgrescpy_firstn (r : PGresult) (n_rows n_cols : Z) :
  well_formed r ->
  n_rows <= PQntuples (Some r) -> n_cols <= PQnfields (Some r) ->
  cells_fit (map (firstn (Z.to_nat n_cols))
               (firstn (Z.to_nat n_rows) (tuples r))) ->
  pgrescpy (Some r) n_rows n_cols
  = Some (map (firstn (Z.to_nat n_cols))
            (firstn (Z.to_nat n_rows) (tuples r))).
Proof.
  intros Hwf. unfold pgrescpy, PQntuples, PQnfields. intros Hr Hc Hfit.
  set (rows := firstn (Z.to_nat n_rows) (tuples r)) in *.
  assert (Hlen : List.length rows = Z.to_nat n_rows)
    by (subst rows; rewrite length_firstn; lia).
  assert (E : map (firstn (Z.to_nat n_cols)) rows
              = map (fun i => map (fun j => nth j (nth i rows []) "")
                                (seq 0 (Z.to_nat n_cols)))
                  (seq 0 (Z.to_nat n_rows))).
  { rewrite <- Hlen. rewrite <- (map_nth_seq_id rows []) at 1.
    rewrite map_map. apply map_ext_in. intros i Hi. apply in_seq in Hi.
    assert (Hw : List.length (nth i rows []) = List.length (fnames r)).
    { unfold well_formed in Hwf. rewrite Forall_forall in Hwf.
      apply Hwf. apply (in_prefix _ (Z.to_nat n_rows)).
      fold rows. apply nth_In. lia. }
    rewrite <- (map_nth_seq_id (firstn (Z.to_nat n_cols) (nth i rows []))
                  "").
    rewrite length_firstn, Hw, Nat.min_l by lia.
    apply map_ext_in. intros j Hj. apply in_seq in Hj.
    rewrite nth_firstn.
    destruct (Nat.ltb_spec j (Z.to_nat n_cols)); [reflexivity|lia]. }
  rewrite E. apply mapM_Some. intros i Hi. apply in_seq in Hi.
  apply mapM_Some. intros j Hj. apply in_seq in Hj.
  assert (Hrow : nth_error (tuples r) i = Some (nth i rows [])).
  { assert (E' : nth_error rows i = nth_error (tuples r) i).
    { subst rows. rewrite nth_error_firstn.
      destruct (Nat.ltb_spec i (Z.to_nat n_rows)); [reflexivity|lia]. }
    rewrite <- E'. apply nth_error_nth'. lia. }
  assert (Hw : List.length (nth i rows []) = List.length (fnames r)).
  { unfold well_formed in Hwf. rewrite Forall_forall in Hwf.
    apply Hwf. eapply nth_error_In; exact Hrow. }
  unfold PQgetvalue. rewrite Hrow.
  destruct (Nat.ltb_spec j (List.length (fnames r))); [|lia].
  rewrite (nth_error_nth' (nth i rows []) "") by lia.
  unfold strcpy_cell.
  assert (Hshort : (String.length (nth j (nth i rows []) "") < CELL_SIZE)%nat).
  { unfold cells_fit in Hfit. rewrite Forall_forall in Hfit.
    assert (Hin : In (firstn (Z.to_nat n_cols) (nth i rows []))
                    (map (firstn (Z.to_nat n_cols)) rows))
      by (apply in_map, nth_In; lia).
    specialize (Hfit _ Hin). rewrite Forall_forall in Hfit.
    apply Hfit.
    replace (nth j (nth i rows []) "")
      with (nth j (firstn (Z.to_nat n_cols) (nth i rows [])) "").
    - apply nth_In. rewrite length_firstn. lia.
    - rewrite nth_firstn.
      destruct (Nat.ltb_spec j (Z.to_nat n_cols)); [reflexivity|lia]. }
  destruct (Nat.ltb_spec (String.length (nth j (nth i rows []) ""))
              CELL_SIZE); [reflexivity|lia].
Qed.

(** The whole of a result. *)
Lemma pgrescpy_all (r : PGresult) :
  well_formed r -> cells_fit (tuples r) ->
  pgrescpy (Some r) (PQntuples (Some r)) (PQnfields (Some r))
  = Some (tuples r).
Proof.
  intros Hwf Hfit.
  assert (E : map (firstn (Z.to_nat (PQnfields (Some r))))
                (firstn (Z.to_nat (PQntuples (Some r))) (tuples r))
              = tuples r).
  { unfold PQntuples, PQnfields. rewrite !Nat2Z.id, firstn_all.
    apply firstn_rows. eapply Forall_impl; [|exact Hwf].
    intros row Hrow. cbv beta in Hrow. lia. }
  rewrite pgrescpy_firstn; try assumption; try lia.
  - now rewrite E.
  - now rewrite E.
Qed.

(** A cell asked for that [strcpy] cannot fill. *)
Lemma pgrescpy_bad_cell (res : option PGresult) (n_rows n_cols : Z)
    (i j : nat) :
  (i < Z.to_nat n_rows)%nat -> (j < Z.to_nat n_cols)%nat ->
  strcpy_cell (PQgetvalue res i j) = None ->
  pgrescpy res n_rows n_cols = None.
Proof.
  intros Hi Hj Hbad. unfold pgrescpy.
  apply (mapM_None _ _ i); [apply in_seq; lia|].
  apply (mapM_None _ _ j); [apply in_seq; lia|exact Hbad].
Qed.

(** What [print_data] shows of a result and of an array of its shape. *)
Lemma print_data_shown (r : PGresult) (arr : array) (s : screen_s) :
  shape arr (PQntuples (Some r)) (PQnfields (Some r)) ->
  print_data (Some r) arr (PQntuples (Some r)) (PQnfields (Some r)) s
  = PrintData (map Some (fnames r)) (lookup_order s) arr.
Proof.
  intros Hs. unfold print_data. f_equal.
  - unfold PQnfields, PQfname. rewrite Nat2Z.id.
    induction (fnames r) as [|f fs IH]; [reflexivity|].
    cbn [List.length seq map nth_error]. f_equal.
    rewrite <- seq_shift, map_map. exact IH.
  - apply (array_ext _ _ (PQntuples (Some r)) (PQnfields (Some r)));
      [|exact Hs|].
    + split; [now rewrite length_map, length_seq|].
      apply Forall_forall. intros row Hrow.
      apply in_map_iff in Hrow. destruct Hrow as [i [<- _]].
      now rewrite length_map, length_seq.
    + intros i j Hi Hj. unfold cell at 1.
      rewrite (nth_map_seq _ _ _ []) by exact Hi.
      rewrite (nth_map_seq _ _ _ "") by exact Hj. reflexivity.
Qed.

(** [sort_array] on an array of the shape it is told. *)
Lemma sort_array_outcome (h : pgcenter_h) (arr : array) (n_rows n_cols : Z)
    (s : screen_s) (k : Z) (d : bool) :
  shape arr n_rows n_cols ->
  lookup_order s = Some (k, d) ->
  sort_defined h s n_rows n_cols ->
  exists sorted,
    sort_array h arr n_rows n_cols s = Some sorted
    /\ shape sorted n_rows n_cols
    /\ sort_result h s k d arr sorted.
Proof.
  intros Hs Hl Hdef. unfold sort_array, sort_result.
  destruct (context_eqb (current_context s) pg_stat_user_functions) eqn:E.
  { apply context_eqb_eq in E. exists arr.
    split; [reflexivity|]. split; [exact Hs|].
    split; [apply Permutation_refl|]. split; [reflexivity|].
    intros Hne. contradiction. }
  assert (Hctx : current_context s <> pg_stat_user_functions).
  { intros Hc. rewrite Hc in E. discriminate E. }
  rewrite Hl. cbn [bind].
  destruct (Z.eqb_spec k (INVALID_ORDER_KEY h)) as [Hk|Hk].
  { exists arr. split; [reflexivity|]. split; [exact Hs|].
    split; [apply Permutation_refl|]. split; [reflexivity|].
    intros _ Hne. contradiction. }
  assert (Hcol : n_rows < 2 \/ 0 <= k < n_cols).
  { destruct Hdef as [Hf | (k' & d' & Hl' & Hk')]; [contradiction|].
    rewrite Hl in Hl'. inversion Hl'; subst k' d'.
    destruct Hk' as [Hk' | Hk']; [contradiction|exact Hk']. }
  assert (Hgo : (2 <=? n_rows) && ((k <? 0) || (n_cols <=? k)) = false).
  { destruct Hcol as [Hr | Hc].
    - destruct (Z.leb_spec 2 n_rows); [lia|reflexivity].
    - destruct (Z.ltb_spec k 0); [lia|].
      destruct (Z.leb_spec n_cols k); [lia|].
      apply andb_false_r. }
  rewrite Hgo.
  rewrite (sort_rows_rows d (Z.to_nat k) arr n_rows n_cols Hs).
  destruct (exchange_sort_sorted (row_rank d (Z.to_nat k)) [] arr)
    as [Hperm Hsorted].
  eexists. split; [reflexivity|]. split.
  { destruct Hs as [Hlen Hrows]. split.
    - rewrite <- Hlen. symmetry. apply Permutation_length, Hperm.
    - eapply Permutation_Forall; eassumption. }
  split; [exact Hperm|]. split.
  - intros [Hc | Hc]; contradiction.
  - intros _ _. eapply StronglySorted_impl; [|exact Hsorted].
    intros a b. unfold in_order, row_rank. destruct d; simpl; lia.
Qed.

(** A turn with [first_iter] false and an answer of no more rows than the
    stored count, over a snapshot that has a value for every cell of the
    answer: the copy, the diff, the sort, the drawing and the new
    baseline. *)
Lemma main_refresh_diffs (h : pgcenter_h) (st : main_state) (s : screen_s)
    (server : Z -> string -> PQexec_result) (b r : PGresult) (prev k : Z)
    (d : bool) :
  first_iter st = false ->
  current_screen st = Some s ->
  answers h server (console_index st) s r ->
  p_res st = Some b ->
  n_prev_rows st = Some prev ->
  well_formed b -> well_formed r ->
  cells_fit (tuples b) -> cells_fit (tuples r) ->
  PQntuples (Some r) <= prev ->
  PQntuples (Some r) <= PQntuples (Some b) ->
  PQnfields (Some r) <= PQnfields (Some b) ->
  lookup_order s = Some (k, d) ->
  sort_defined h s (PQntuples (Some r)) (PQnfields (Some r)) ->
  exists sorted,
    main_refresh h st server
    = Some (set_baseline st false (Some r) (Some (PQntuples (Some r))),
            [PrintData (map Some (fnames r)) (Some (k, d)) sorted; Sleep 1])
    /\ sort_result h s k d
         (diff_arrays h
            (map (firstn (Z.to_nat (PQnfields (Some r))))
               (firstn (Z.to_nat (PQntuples (Some r))) (tuples b)))
            (tuples r) (current_context s)
            (PQntuples (Some r)) (PQnfields (Some r)))
         sorted.
Proof.
  intros Hfi Hs Hans Hp Hprev Hwfb Hwfr Hfb Hfr Hle Hrows Hcols Hl Hdef.
  destruct (sort_array_outcome h
              (diff_arrays h
                 (map (firstn (Z.to_nat (PQnfields (Some r))))
                    (firstn (Z.to_nat (PQntuples (Some r))) (tuples b)))
                 (tuples r) (current_context s)
                 (PQntuples (Some r)) (PQnfields (Some r)))
              (PQntuples (Some r)) (PQnfields (Some r)) s k d
              (diff_arrays_shape _ _ _ _ _ _) Hl Hdef)
    as (sorted & Hsort & Hshape & Hres).
  exists sorted. split; [|exact Hres].
  unfold main_refresh, answers in *.
  rewrite Hs. cbn [bind]. rewrite Hans, do_query_ok, Hfi, Hprev. cbn [bind].
  destruct (Z.ltb_spec prev (PQntuples (Some r))); [lia|].
  rewrite Hp.
  rewrite (pgrescpy_firstn b _ _ Hwfb Hrows Hcols
             (cells_fit_prefix _ _ _ Hfb)).
  cbn [bind]. rewrite (pgrescpy_all r Hwfr Hfr). cbn [bind].
  rewrite Hsort. cbn [bind].
  rewrite (print_data_shown r sorted s Hshape), Hl. reflexivity.
Qed.

(** C4, as the claim states it, fails: after a turn that returned two
    rows and a turn that returned three and only made them the baseline,
    a third turn returns three rows again, one of its values 255
    characters long; the copy of the answer into the array writes past
    the 255 bytes of the cell, and no diff is drawn. *)
Lemma rebase_on_row_growth_counterexample :
  exists st1 ev1 st2 ev2,
    main_refresh example_h settled_state (steady_server two_rows)
    = Some (st1, ev1)
    /\ main_refresh example_h st1 (steady_server three_rows)
       = Some (st2, ev2)
    /\ PQntuples (Some two_rows) < PQntuples (Some three_rows)
    /\ renders ev2 = false
    /\ p_res st2 = Some three_rows
    /\ n_prev_rows st2 = Some 3
    /\ well_formed three_rows_long
    /\ PQntuples (Some three_rows_long) = PQntuples (Some three_rows)
    /\ PQnfields (Some three_rows_long) = PQnfields (Some three_rows)
    /\ main_refresh example_h st2 (steady_server three_rows_long) = None.
Proof.
  eexists _, _, _, _.
  split; [vm_compute; reflexivity|].
  split; [vm_compute; reflexivity|].
  split; [reflexivity|]. split; [reflexivity|].
  split; [reflexivity|]. split; [reflexivity|].
  split; [repeat constructor|].
  split; [reflexivity|]. split; [reflexivity|].
  vm_compute. reflexivity.
Qed.

(** C4, amended.  After a turn with [first_iter] false that returned [r1]
    rows, a turn that returns [r2 > r1] rows draws nothing and makes that
    larger result the baseline, with the previous row count [r2]; the
    turn after it, returning [r2] rows again with the same columns, every
    value of the baseline and of the answer being shorter than the 255
    bytes of a cell, diffs its answer against that baseline, sorts the
    diff and draws it: the data window shows the rows of the diff, in the
    order of the sort key of the view (a column of the answer). *)
Theorem rebase_on_row_growth (h : pgcenter_h) (st st1 : main_state)
    (s : screen_s) (server1 server2 server3 : Z -> string -> PQexec_result)
    (t1 t2 t3 : PGresult) (ev1 : list event) (k : Z) (d : bool) :
  first_iter st = false ->
  current_screen st = Some s ->
  answers h server1 (console_index st) s t1 ->
  answers h server2 (console_index st) s t2 ->
  answers h server3 (console_index st) s t3 ->
  well_formed t2 -> well_formed t3 ->
  cells_fit (tuples t2) -> cells_fit (tuples t3) ->
  PQntuples (Some t1) < PQntuples (Some t2) ->
  PQntuples (Some t3) = PQntuples (Some t2) ->
  PQnfields (Some t3) = PQnfields (Some t2) ->
  lookup_order s = Some (k, d) ->
  sort_defined h s (PQntuples (Some t3)) (PQnfields (Some t3)) ->
  main_refresh h st server1 = Some (st1, ev1) ->
  exists st2 ev2 st3 ev3 sorted,
    main_refresh h st1 server2 = Some (st2, ev2)
    /\ renders ev2 = false
    /\ p_res st2 = Some t2
    /\ n_prev_rows st2 = Some (PQntuples (Some t2))
    /\ main_refresh h st2 server3 = Some (st3, ev3)
    /\ renders ev3 = true
    /\ ev3 = [PrintData (map Some (fnames t3)) (Some (k, d)) sorted; Sleep 1]
    /\ sort_result h s k d
         (diff_arrays h (tuples t2) (tuples t3) (current_context s)
            (PQntuples (Some t3)) (PQnfields (Some t3)))
         sorted
    /\ p_res st3 = Some t3
    /\ n_prev_rows st3 = Some (PQntuples (Some t3)).
Proof.
  intros Hfi Hs H1 H2 H3 Hwf2 Hwf3 Hfit2 Hfit3 Hlt Hrows Hcols Hl Hsort
    Hturn1.
  pose proof (main_refresh_settled h st st1 s server1 t1 ev1
                Hfi Hs H1 Hturn1) as ->.
  set (st2 := set_baseline st false (Some t2) (Some (PQntuples (Some t2)))).
  assert (Hturn2 : main_refresh h
                     (set_baseline st false (Some t1)
                        (Some (PQntuples (Some t1)))) server2
                   = Some (st2, [Usleep 10000])).
  { unfold main_refresh, answers in *.
    change (current_screen (set_baseline st false (Some t1)
                              (Some (PQntuples (Some t1)))))
      with (current_screen st).
    rewrite Hs. cbn [bind]. cbn [console_index set_baseline].
    rewrite H2, do_query_ok.
    cbn [first_iter n_prev_rows set_baseline bind].
    destruct (Z.ltb_spec (PQntuples (Some t1)) (PQntuples (Some t2)));
      [reflexivity|lia]. }
  destruct (main_refresh_diffs h st2 s server3 t2 t3
              (PQntuples (Some t2)) k d)
    as (sorted & Hturn3 & Hres);
    try assumption; try reflexivity; try lia.
  assert (E : map (firstn (Z.to_nat (PQnfields (Some t3))))
                (firstn (Z.to_nat (PQntuples (Some t3))) (tuples t2))
              = tuples t2).
  { rewrite Hrows, Hcols. unfold PQntuples, PQnfields.
    rewrite !Nat2Z.id, firstn_all. apply firstn_rows.
    eapply Forall_impl; [|exact Hwf2].
    intros row Hrow. cbv beta in Hrow. lia. }
  rewrite E in Hres.
  exists st2, [Usleep 10000],
    (set_baseline st2 false (Some t3) (Some (PQntuples (Some t3)))),
    [PrintData (map Some (fnames t3)) (Some (k, d)) sorted; Sleep 1],
    sorted.
  split; [exact Hturn2|]. split; [reflexivity|]. split; [reflexivity|].
  split; [reflexivity|]. split; [exact Hturn3|]. split; [reflexivity|].
  split; [reflexivity|]. split; [exact Hres|]. split; reflexivity.
Qed.

Lemma rebase_on_row_growth_witness :
  let st1 := set_baseline settled_state false (Some two_rows) (Some 2) in
  let st2 := set_baseline settled_state false (Some three_rows) (Some 3) in
  let diff := [["a"; "3"]; ["b"; "40"]; ["c"; "1"]] in
  PQntuples (Some two_rows) < PQntuples (Some three_rows)
  /\ PQntuples (Some three_rows_later) = PQntuples (Some three_rows)
  /\ main_refresh example_h st1 (steady_server three_rows)
     = Some (st2, [Usleep 10000])
  /\ exists sorted,
       main_refresh example_h st2 (steady_server three_rows_later)
       = Some (set_baseline st2 false (Some three_rows_later) (Some 3),
               [PrintData [Some "datname"; Some "commits"] (Some (1, true))
                  sorted; Sleep 1])
       /\ sort_result example_h (init_screen example_h 0) 1 true diff sorted
       /\ sorted = [["b"; "40"]; ["a"; "3"]; ["c"; "1"]].
Proof.
  intros st1 st2 diff.
  split; [reflexivity|]. split; [reflexivity|].
  assert (Hturn1 : main_refresh example_h settled_state
                     (steady_server two_rows)
                   = Some (st1, [PrintData [Some "datname"; Some "commits"]
                                   (Some (1, true))
                                   [["a"; "0"]; ["b"; "0"]]; Sleep 1]))
    by (vm_compute; reflexivity).
  assert (Hdef : sort_defined example_h (init_screen example_h 0)
                   (PQntuples (Some three_rows_later))
                   (PQnfields (Some three_rows_later))).
  { right. exists 1, true. split; [reflexivity|]. right; right.
    change (PQnfields (Some three_rows_later)) with 2. lia. }
  destruct (rebase_on_row_growth example_h settled_state st1
              (init_screen example_h 0)
              (steady_server two_rows) (steady_server three_rows)
              (steady_server three_rows_later)
              two_rows three_rows three_rows_later
              [PrintData [Some "datname"; Some "commits"] (Some (1, true))
                 [["a"; "0"]; ["b"; "0"]]; Sleep 1] 1 true
              eq_refl eq_refl eq_refl eq_refl eq_refl
              ltac:(repeat constructor) ltac:(repeat constructor)
              ltac:(apply cells_fit_check; reflexivity)
              ltac:(apply cells_fit_check; reflexivity)
              eq_refl eq_refl eq_refl eq_refl Hdef Hturn1)
    as (st2' & ev2 & st3 & ev3 & sorted & H2 & _ & _ & _ & H3 & _ & Hev
        & Hres & _).
  assert (H2c : main_refresh example_h st1 (steady_server three_rows)
                = Some (st2, [Usleep 10000]))
    by (vm_compute; reflexivity).
  split; [exact H2c|].
  rewrite H2c in H2. inversion H2; subst st2' ev2. subst ev3.
  assert (H3c : main_refresh example_h st2
                  (steady_server three_rows_later)
                = Some (set_baseline st2 false (Some three_rows_later)
                          (Some 3),
                        [PrintData [Some "datname"; Some "commits"]
                           (Some (1, true))
                           [["b"; "40"]; ["a"; "3"]; ["c"; "1"]];
                         Sleep 1]))
    by (vm_compute; reflexivity).
  assert (Hd : diff_arrays example_h (tuples three_rows)
                 (tuples three_rows_later)
                 (current_context (init_screen example_h 0))
                 (PQntuples (Some three_rows_later))
                 (PQnfields (Some three_rows_later)) = diff)
    by (vm_compute; reflexivity).
  rewrite Hd in Hres.
  rewrite H3 in H3c. inversion H3c; subst st3 sorted.
  exists [["b"; "40"]; ["a"; "3"]; ["c"; "1"]].
  split; [exact H3|]. split; [exact Hres|reflexivity].
Defined.

(** C9, as the claim states it, fails.  From two consoles on the
    databases view, the keys ['2'] and ['t'], two refreshes, the key ['1']
    and a refresh leave the second console on the user-tables view and
    the first one active, with its answer of two rows and two columns as
    the baseline.  After the key ['2'] the answer of one row and three
    columns meets the stored row count [2], but the copy of the previous
    snapshot asks [PQgetvalue] for a third column and hands the [NULL] to
    [strcpy]. *)
Lemma console_switch_counterexample :
  (exists st1 ev1 st2 ev2 st3 ev3 st4 ev4 st5 ev5 ev6,
     main_key example_h on_first_console 50 [] = Some (st1, ev1, [])
     /\ main_key example_h st1 (Libc.code "t") [] = Some (st2, ev2, [])
     /\ main_refresh example_h st2 view_server = Some (st3, ev3)
     /\ main_refresh example_h st3 view_server = Some (st4, ev4)
     /\ main_key example_h st4 49 [] = Some (st5, ev5, [])
     /\ main_refresh example_h st5 view_server
        = Some (before_switch, ev6))
  /\ exists st' s,
       main_key example_h before_switch 50 []
       = Some (st', [Wprintw
                 "Switch to another pgbouncer connection (console 2)"], [])
       /\ first_iter st' = false
       /\ p_res st' = Some two_rows
       /\ n_prev_rows st' = Some 2
       /\ current_screen st' = Some s
       /\ answers example_h view_server (console_index st') s one_wide_row
       /\ PQntuples (Some one_wide_row) <= 2
       /\ main_refresh example_h st' view_server = None.
Proof.
  split.
  - eexists _, _, _, _, _, _, _, _, _, _, _.
    split; [vm_compute; reflexivity|].
    split; [vm_compute; reflexivity|].
    split; [vm_compute; reflexivity|].
    split; [vm_compute; reflexivity|].
    split; [vm_compute; reflexivity|].
    vm_compute. reflexivity.
  - eexists _, _. split; [vm_compute; reflexivity|].
    split; [reflexivity|]. split; [reflexivity|]. split; [reflexivity|].
    split; [vm_compute; reflexivity|].
    split; [vm_compute; reflexivity|].
    split; [vm_compute; discriminate|].
    vm_compute. reflexivity.
Qed.

(** C9, amended.  [first_iter], [p_res] and [n_prev_rows] are variables
    of [main], one of each for all consoles.  A key from ['1'] to ['8']
    changes the console index and number and nothing else; so, with
    [first_iter] false, the next refresh asks the newly active console
    and, when the row count of its answer does not exceed the stored
    previous row count and the snapshot left by the console active before
    has at least as many rows and as many columns as the answer (the
    values of both fitting the 255 bytes of a cell), diffs the answer
    against that snapshot, sorts and draws the diff.  When the snapshot
    has fewer columns than an answer of at least one row, the copy of the
    snapshot reads a value that is not there. *)
Theorem console_switch_keeps_baseline (h : pgcenter_h) (st st' : main_state)
    (ch : Z) (keys keys' : list Z) (ev : list event) :
  Libc.code "1" <= ch <= Libc.code "8" ->
  main_key h st ch keys = Some (st', ev, keys') ->
  (screens st' = screens st
   /\ first_iter st' = first_iter st
   /\ p_res st' = p_res st
   /\ n_prev_rows st' = n_prev_rows st
   /\ console_no st' = console_index st' + 1
   /\ (console_index st' = ch - Libc.code "1"
       \/ console_index st' = console_index st))
  /\ (forall server s r b prev k d,
        first_iter st = false ->
        p_res st = Some b ->
        n_prev_rows st = Some prev ->
        current_screen st' = Some s ->
        answers h server (console_index st') s r ->
        well_formed b -> well_formed r ->
        cells_fit (tuples b) -> cells_fit (tuples r) ->
        PQntuples (Some r) <= prev ->
        PQntuples (Some r) <= PQntuples (Some b) ->
        PQnfields (Some r) <= PQnfields (Some b) ->
        lookup_order s = Some (k, d) ->
        sort_defined h s (PQntuples (Some r)) (PQnfields (Some r)) ->
        exists sorted,
          main_refresh h st' server
          = Some (set_baseline st' false (Some r)
                    (Some (PQntuples (Some r))),
                  [PrintData (map Some (fnames r)) (Some (k, d)) sorted;
                   Sleep 1])
          /\ sort_result h s k d
               (diff_arrays h
                  (map (firstn (Z.to_nat (PQnfields (Some r))))
                     (firstn (Z.to_nat (PQntuples (Some r))) (tuples b)))
                  (tuples r) (current_context s)
                  (PQntuples (Some r)) (PQnfields (Some r)))
               sorted)
  /\ (forall server s r b prev,
        first_iter st = false ->
        p_res st = Some b ->
        n_prev_rows st = Some prev ->
        current_screen st' = Some s ->
        answers h server (console_index st') s r ->
        0 < PQntuples (Some r) <= prev ->
        PQnfields (Some b) < PQnfields (Some r) ->
        main_refresh h st' server = None).
Proof.
  intros Hch Hkey. unfold main_key in Hkey.
  destruct (Z.leb_spec (Libc.code "1") ch); [|lia].
  destruct (Z.leb_spec ch (Libc.code "8")); [|lia].
  cbn [andb] in Hkey. unfold switch_conn in Hkey.
  destruct (nth_error (screens st) _) as [target|]; [|discriminate].
  cbn [bind] in Hkey.
  assert (Hst' : (st' = set_console st (ch - 48 - 1)
                  \/ st' = set_console st (console_index st))).
  { destruct (conn_used target); cbn [bind] in Hkey; inversion Hkey; auto. }
  assert (Hframe : screens st' = screens st
                   /\ first_iter st' = first_iter st
                   /\ p_res st' = p_res st
                   /\ n_prev_rows st' = n_prev_rows st
                   /\ console_no st' = console_index st' + 1
                   /\ (console_index st' = ch - Libc.code "1"
                       \/ console_index st' = console_index st)).
  { destruct Hst' as [-> | ->]; cbn [set_console screens first_iter p_res
      n_prev_rows console_no console_index]; repeat split; auto.
    left. change (Libc.code "1") with 49. lia. }
  split; [exact Hframe|].
  destruct Hframe as (_ & Hfi & Hp & Hn & _).
  split.
  - intros server s r b prev k d Hfalse Hpb Hprev Hs Hans Hwfb Hwfr Hfb Hfr
      Hle Hrows Hcols Hl Hdef.
    apply (main_refresh_diffs h st' s server b r prev k d);
      try assumption; congruence.
  - intros server s r b prev Hfalse Hpb Hprev Hs Hans [Hpos Hle] Hcols.
    unfold main_refresh, answers in *.
    rewrite Hs. cbn [bind].
    rewrite Hans, do_query_ok, Hfi, Hfalse, Hn, Hprev. cbn [bind].
    destruct (Z.ltb_spec prev (PQntuples (Some r))); [lia|].
    rewrite Hp, Hpb.
    rewrite (pgrescpy_bad_cell (Some b) _ _ 0 (List.length (fnames b)));
      [reflexivity|lia|unfold PQnfields in *; lia|].
    unfold PQgetvalue. rewrite Nat.ltb_irrefl. reflexivity.
Qed.

Lemma console_switch_keeps_baseline_witness :
  Libc.code "1" <= 50 <= Libc.code "8"
  /\ exists st',
       main_key example_h on_first_console 50 [] = Some (st', [Wprintw
         "Switch to another pgbouncer connection (console 2)"], [])
       /\ console_index st' = 1
       /\ p_res st' = Some two_rows
       /\ exists sorted,
            main_refresh example_h st' per_console_server
            = Some (set_baseline st' false (Some other_console_row)
                      (Some 1),
                    [PrintData [Some "datname"; Some "commits"]
                       (Some (1, true)) sorted; Sleep 1])
            /\ sorted = [["x"; "90"]].
Proof.
  assert (Hch : Libc.code "1" <= 50 <= Libc.code "8")
    by (vm_compute; split; discriminate).
  split; [exact Hch|].
  assert (Hkey : exists st',
             main_key example_h on_first_console 50 []
             = Some (st', [Wprintw
                 "Switch to another pgbouncer connection (console 2)"], [])
             /\ console_index st' = 1
             /\ current_screen st'
                = Some (set_conn (init_screen example_h 1) "beta" "5433"
                          "db" "u" "secret" 1))
    by (eexists; split; [vm_compute; reflexivity|
                         split; vm_compute; reflexivity]).
  destruct Hkey as (st' & Hkey & Hidx & Hscr).
  exists st'. split; [exact Hkey|]. split; [exact Hidx|].
  destruct (console_switch_keeps_baseline example_h on_first_console st'
              50 [] [] _ Hch Hkey)
    as [(_ & _ & Hp & _) [Hdiff _]].
  split; [exact Hp|].
  assert (Hans : answers example_h per_console_server (console_index st')
                   (set_conn (init_screen example_h 1) "beta" "5433" "db"
                      "u" "secret" 1) other_console_row)
    by (unfold answers; rewrite Hidx; vm_compute; reflexivity).
  assert (Hdef : sort_defined example_h
                   (set_conn (init_screen example_h 1) "beta" "5433" "db"
                      "u" "secret" 1)
                   (PQntuples (Some other_console_row))
                   (PQnfields (Some other_console_row))).
  { right. exists 1, true. split; [vm_compute; reflexivity|].
    right; left. vm_compute. reflexivity. }
  destruct (Hdiff per_console_server
              (set_conn (init_screen example_h 1) "beta" "5433" "db" "u"
                 "secret" 1) other_console_row two_rows 2 1 true
              eq_refl eq_refl eq_refl Hscr Hans
              ltac:(repeat constructor) ltac:(repeat constructor)
              ltac:(apply cells_fit_check; reflexivity)
              ltac:(apply cells_fit_check; reflexivity)
              ltac:(vm_compute; discriminate)
              ltac:(vm_compute; discriminate)
              ltac:(vm_compute; discriminate)
              ltac:(vm_compute; reflexivity) Hdef)
    as (sorted & Hturn & (Hperm & _)).
  exists sorted. split; [exact Hturn|].
  assert (Hd : diff_arrays example_h
                 (map (firstn (Z.to_nat (PQnfields (Some other_console_row))))
                    (firstn (Z.to_nat (PQntuples (Some other_console_row)))
                       (tuples two_rows)))
                 (tuples other_console_row)
                 (current_context
                    (set_conn (init_screen example_h 1) "beta" "5433" "db"
                       "u" "secret" 1))
                 (PQntuples (Some other_console_row))
                 (PQnfields (Some other_console_row))
               = [["x"; "90"]])
    by (vm_compute; reflexivity).
  rewrite Hd in Hperm.
  apply Permutation_length_1_inv, Hperm.
Defined.

(* ================================================================== *)
(** * Further properties of the code *)

(** ** Printing a number and reading it back *)

Lemma read_digits_step (acc : Z) (n : nat) (c : ascii) (r : string) :
  Libc.isdigit c = true ->
  Libc.read_digits acc n (String c r)
  = Libc.read_digits (acc * 10 + (Libc.code c - 48)) (S n) r.
Proof. intros H. cbn [Libc.read_digits]. rewrite H. reflexivity. Qed.

Ltac digit_value :=
  match goal with
  | |- context [Libc.code ?c] =>
      let v := eval vm_compute in (Libc.code c) in
      change (Libc.code c) with v
  end.

Lemma read_digits_uint_acc (d : Decimal.uint) (p : positive) (n : nat) :
  Libc.read_digits (Z.pos p) n (NilEmpty.string_of_uint d)
  = (Z.pos (Pos.of_uint_acc d p), (n + Decimal.nb_digits d)%nat, "").
Proof.
  revert p n; induction d; intros p n;
    cbn [NilEmpty.string_of_uint Pos.of_uint_acc Decimal.nb_digits];
    [cbn [Libc.read_digits]; rewrite Nat.add_0_r; reflexivity|..];
    rewrite read_digits_step by reflexivity;
    match goal with
    | |- Libc.read_digits ?a _ _ = (Z.pos (Pos.of_uint_acc _ ?q), _, _) =>
        replace a with (Z.pos q) by (digit_value; lia)
    end;
    rewrite IHd, Nat.add_succ_r; reflexivity.
Qed.

Lemma read_digits_uint (d : Decimal.uint) (n : nat) :
  Libc.read_digits 0 n (NilEmpty.string_of_uint d)
  = (Z.of_N (Pos.of_uint d), (n + Decimal.nb_digits d)%nat, "").
Proof.
  revert n; induction d; intros n;
    cbn [NilEmpty.string_of_uint Pos.of_uint Decimal.nb_digits];
    [cbn [Libc.read_digits]; rewrite Nat.add_0_r; reflexivity|..];
    rewrite read_digits_step by reflexivity.
  1: { change (0 * 10 + (Libc.code "0" - 48)) with 0.
       rewrite IHd, Nat.add_succ_r. reflexivity. }
  all: match goal with
       | |- Libc.read_digits ?a _ _ = (Z.of_N (N.pos (Pos.of_uint_acc _ ?q)), _, _) =>
           replace a with (Z.pos q) by (digit_value; lia)
       end;
       rewrite read_digits_uint_acc, Nat.add_succ_r; reflexivity.
Qed.

(** The text of a positive number starts with a digit: [atoll] finds no
    white space and no sign to skip. *)
Lemma skip_sign_uint (d : Decimal.uint) :
  d <> Decimal.Nil ->
  Libc.read_sign (Libc.skip_spaces (NilEmpty.string_of_uint d))
  = (false, NilEmpty.string_of_uint d).
Proof. destruct d; intros H; [contradiction|..]; reflexivity. Qed.

Lemma atoll_of_pos (p : positive) :
  Libc.read_digits 0 0 (NilZero.string_of_uint (Pos.to_uint p))
  = (Z.pos p, Decimal.nb_digits (Pos.to_uint p), "")
  /\ Libc.read_sign (Libc.skip_spaces
                       (NilZero.string_of_uint (Pos.to_uint p)))
     = (false, NilZero.string_of_uint (Pos.to_uint p)).
Proof.
  pose proof (Unsigned.to_uint_nonnil p) as Hnil.
  assert (E : NilZero.string_of_uint (Pos.to_uint p)
              = NilEmpty.string_of_uint (Pos.to_uint p))
    by (destruct (Pos.to_uint p); [contradiction|..]; reflexivity).
  rewrite E. split; [|apply skip_sign_uint, Hnil].
  rewrite read_digits_uint, DecimalPos.Unsigned.of_to. reflexivity.
Qed.

(** ["%lli"] and then [atoll] give the number back. *)
Lemma atoll_inverts_format (z : Z) :
  Libc.LLONG_MIN <= z <= Libc.LLONG_MAX ->
  Libc.atoll (Libc.format_lli z) = z.
Proof.
  intros Hz. unfold Libc.atoll, Libc.strtoll, Libc.format_lli.
  destruct z as [|p|p]; cbn [Z.to_int NilZero.string_of_int].
  - reflexivity.
  - destruct (atoll_of_pos p) as [Hd Hs]. rewrite Hs, Hd.
    unfold Libc.LLONG_MIN, Libc.LLONG_MAX in *. lia.
  - destruct (atoll_of_pos p) as [Hd Hs].
    assert (Hminus : Libc.read_sign
                       (Libc.skip_spaces
                          (String "-"
                             (NilZero.string_of_uint (Pos.to_uint p))))
                     = (true, NilZero.string_of_uint (Pos.to_uint p)))
      by reflexivity.
    rewrite Hminus, Hd.
    unfold Libc.LLONG_MIN, Libc.LLONG_MAX in *. lia.
Qed.


Lemma wrap_s64_range (z : Z) :
  Libc.LLONG_MIN <= Libc.wrap_s64 z <= Libc.LLONG_MAX.
Proof.
  unfold Libc.wrap_s64, Libc.LLONG_MIN, Libc.LLONG_MAX, Libc.ULLONG_MODULUS.
  pose proof (Z.mod_pos_bound (z + 2 ^ 63) (2 ^ 64) eq_refl). lia.
Qed.

(** X1.  What [sort_array] reads in a diffed column is the difference
    itself: in a row of the array that [diff_arrays] fills, the [atoll] of
    a cell of the diff range is the [long long] difference of the current
    and the previous cell. *)
Theorem diff_then_sort_key (h : pgcenter_h) (p_arr c_arr : array)
    (c : context) (n_rows n_cols : Z) (i j : nat) :
  (i < Z.to_nat n_rows)%nat -> (j < Z.to_nat n_cols)%nat ->
  fst (diff_range h c) <= Z.of_nat j <= snd (diff_range h c) ->
  row_key j (nth i (diff_arrays h p_arr c_arr c n_rows n_cols) [])
  = Libc.wrap_s64 (Libc.atoll (cell c_arr i j) - Libc.atoll (cell p_arr i j)).
Proof.
  intros Hi Hj Hin. unfold row_key.
  change (nth j (nth i (diff_arrays h p_arr c_arr c n_rows n_cols) []) "")
    with (cell (diff_arrays h p_arr c_arr c n_rows n_cols) i j).
  rewrite diff_arrays_cell by assumption.
  destruct (Z.ltb_spec (Z.of_nat j) (fst (diff_range h c))); [lia|].
  destruct (Z.gtb_spec (Z.of_nat j) (snd (diff_range h c))); [lia|].
  cbn [orb]. unfold diff_cell. apply atoll_inverts_format, wrap_s64_range.
Qed.

Lemma diff_then_sort_key_witness :
  row_key 1 (nth 0 (diff_arrays example_h [["db"; "10"; "x"]]
                      [["db"; "25"; "y"]] pg_stat_database 1 3) [])
  = Libc.wrap_s64 (Libc.atoll "25" - Libc.atoll "10").
Proof.
  apply (diff_then_sort_key example_h [["db"; "10"; "x"]]
           [["db"; "25"; "y"]] pg_stat_database 1 3 0 1);
    simpl; lia.
Defined.

(** X2.  A snapshot diffed against itself shows ["0"] in every column of
    the diff range and its own cells elsewhere. *)
Theorem diff_arrays_unchanged (h : pgcenter_h) (arr : array) (c : context)
    (n_rows n_cols : Z) (i j : nat) :
  (i < Z.to_nat n_rows)%nat -> (j < Z.to_nat n_cols)%nat ->
  cell (diff_arrays h arr arr c n_rows n_cols) i j
  = if (fst (diff_range h c) <=? Z.of_nat j)
       && (Z.of_nat j <=? snd (diff_range h c))
    then "0" else cell arr i j.
Proof.
  intros Hi Hj. rewrite diff_arrays_cell by assumption.
  destruct (Z.ltb_spec (Z.of_nat j) (fst (diff_range h c))),
    (Z.gtb_spec (Z.of_nat j) (snd (diff_range h c))),
    (Z.leb_spec (fst (diff_range h c)) (Z.of_nat j)),
    (Z.leb_spec (Z.of_nat j) (snd (diff_range h c)));
    try lia; cbn [orb andb]; try reflexivity.
  unfold diff_cell. rewrite Z.sub_diag. reflexivity.
Qed.

Lemma diff_arrays_unchanged_witness :
  cell (diff_arrays example_h [["db"; "10"; "x"]] [["db"; "10"; "x"]]
          pg_stat_database 1 3) 0 1 = "0".
Proof.
  rewrite (diff_arrays_unchanged example_h [["db"; "10"; "x"]]
             pg_stat_database 1 3 0 1) by (simpl; lia).
  reflexivity.
Defined.

(** ** An array that is in order already *)

Lemma StronglySorted_pairwise {A : Type} (R : A -> A -> Prop) (d : A)
    (l : list A) :
  StronglySorted R l ->
  forall p q, (p < q < List.length l)%nat -> R (nth p l d) (nth q l d).
Proof.
  induction 1 as [|a l Hs IH Hall]; intros p q Hpq; simpl in Hpq; [lia|].
  destruct q as [|q]; [lia|]. destruct p as [|p]; simpl.
  - rewrite Forall_forall in Hall. apply Hall, nth_In. lia.
  - apply IH. lia.
Qed.

Lemma fold_left_fixed {S X : Type} (f : S -> X -> S) (l : list X) (s : S) :
  (forall x, In x l -> f s x = s) -> fold_left f l s = s.
Proof.
  induction l as [|x l IH]; intros H; simpl; [reflexivity|].
  rewrite (H x) by now left. apply IH. intros y Hy. apply H. now right.
Qed.

Lemma exchange_sort_fixed {A : Type} (rank : A -> Z) (d : A) (l : list A) :
  StronglySorted (fun a b => rank b <= rank a) l ->
  exchange_sort rank d (List.length l) l = l.
Proof.
  intros Hs. unfold exchange_sort. apply fold_left_fixed.
  intros i Hi. apply in_seq in Hi. unfold exchange_inner.
  apply fold_left_fixed. intros j Hj. apply in_seq in Hj.
  unfold exchange_step.
  pose proof (StronglySorted_pairwise _ d l Hs i j) as Hord.
  destruct (Z.gtb_spec (rank (nth j l d)) (rank (nth i l d)));
    [|reflexivity].
  assert (rank (nth j l d) <= rank (nth i l d)) by (apply Hord; lia). lia.
Qed.

(** X3.  [sort_array] makes no exchange in an array whose rows are in the
    order asked for: the array comes back as it was, rows with equal keys
    included. *)
Theorem sort_array_ordered (h : pgcenter_h) (res_arr : array)
    (n_rows n_cols : Z) (s : screen_s) (k : Z) (d : bool) :
  shape res_arr n_rows n_cols ->
  lookup_order s = Some (k, d) ->
  0 <= k < n_cols ->
  StronglySorted (in_order d (Z.to_nat k)) res_arr ->
  sort_array h res_arr n_rows n_cols s = Some res_arr.
Proof.
  intros Hs Hl Hk Hsorted. unfold sort_array. rewrite Hl. cbn [bind].
  destruct (context_eqb _ _); [reflexivity|].
  destruct (k =? INVALID_ORDER_KEY h); [reflexivity|].
  destruct (Z.ltb_spec k 0); [lia|].
  destruct (Z.leb_spec n_cols k); [lia|].
  rewrite andb_false_r.
  rewrite (sort_rows_rows d (Z.to_nat k) res_arr n_rows n_cols Hs).
  rewrite exchange_sort_fixed; [reflexivity|].
  eapply StronglySorted_impl; [|exact Hsorted].
  intros a b. unfold in_order, row_rank. destruct d; simpl; lia.
Qed.

Lemma sort_array_ordered_witness :
  shape [["b"; "30"]; ["c"; "12"]; ["d"; "12"]; ["a"; "5"]] 4 2
  /\ sort_array example_h
       [["b"; "30"]; ["c"; "12"]; ["d"; "12"]; ["a"; "5"]] 4 2
       (init_screen example_h 0)
     = Some [["b"; "30"]; ["c"; "12"]; ["d"; "12"]; ["a"; "5"]].
Proof.
  assert (Hs : shape [["b"; "30"]; ["c"; "12"]; ["d"; "12"]; ["a"; "5"]]
                 4 2) by (split; [reflexivity|repeat constructor]).
  split; [exact Hs|].
  apply (sort_array_ordered example_h _ 4 2 _ 1 true Hs).
  - reflexivity.
  - lia.
  - repeat constructor; vm_compute; discriminate.
Defined.

(** ** Copying a result into an array *)

(** X4.  [pgrescpy] asked for [n_rows] by [n_cols] cells of a result takes
    the first [n_rows] tuples and the first [n_cols] values of each, when
    the result has that many and each of these values is shorter than the
    255 bytes of a cell.  Asked for a row or a column that the result does
    not have (at least one cell being asked for), it copies from the
    [NULL] that [PQgetvalue] returns; and a value of 255 bytes or more
    among those asked for is copied past the end of its cell. *)
Theorem pgrescpy_prefix (r : PGresult) (n_rows n_cols : Z) :
  well_formed r ->
  (n_rows <= PQntuples (Some r) -> n_cols <= PQnfields (Some r) ->
   cells_fit (map (firstn (Z.to_nat n_cols))
                (firstn (Z.to_nat n_rows) (tuples r))) ->
   pgrescpy (Some r) n_rows n_cols
   = Some (map (firstn (Z.to_nat n_cols))
             (firstn (Z.to_nat n_rows) (tuples r))))
  /\ (PQntuples (Some r) < n_rows -> 0 < n_cols ->
      pgrescpy (Some r) n_rows n_cols = None)
  /\ (PQnfields (Some r) < n_cols -> 0 < n_rows ->
      pgrescpy (Some r) n_rows n_cols = None)
  /\ (0 < n_rows -> 0 < n_cols -> pgrescpy None n_rows n_cols = None)
  /\ (forall i j v,
        (i < Z.to_nat n_rows)%nat -> (j < Z.to_nat n_cols)%nat ->
        PQgetvalue (Some r) i j = Some v ->
        (CELL_SIZE <= String.length v)%nat ->
        pgrescpy (Some r) n_rows n_cols = None).
Proof.
  intros Hwf. split; [apply pgrescpy_firstn, Hwf|].
  split; [|split; [|split]].
  - intros Hr Hc. unfold PQntuples in Hr.
    apply (pgrescpy_bad_cell _ _ _ (List.length (tuples r)) 0); try lia.
    unfold PQgetvalue.
    destruct (0 <? List.length (fnames r))%nat; [|reflexivity].
    replace (nth_error (tuples r) (List.length (tuples r))) with
      (@None (list string)); [reflexivity|].
    symmetry. apply nth_error_None. lia.
  - intros Hc Hr. unfold PQnfields in Hc.
    apply (pgrescpy_bad_cell _ _ _ 0 (List.length (fnames r))); try lia.
    unfold PQgetvalue. rewrite Nat.ltb_irrefl. reflexivity.
  - intros Hr Hc.
    apply (pgrescpy_bad_cell _ _ _ 0 0); try lia. reflexivity.
  - intros i j v Hi Hj Hv Hlong.
    apply (pgrescpy_bad_cell _ _ _ i j Hi Hj). rewrite Hv.
    unfold strcpy_cell.
    destruct (Nat.ltb_spec (String.length v) CELL_SIZE); [lia|reflexivity].
Qed.

Lemma pgrescpy_prefix_witness :
  well_formed three_rows
  /\ pgrescpy (Some three_rows) 2 1 = Some [["a"]; ["b"]]
  /\ pgrescpy (Some three_rows) 4 2 = None
  /\ well_formed long_row
  /\ pgrescpy (Some long_row) 1 2 = None.
Proof.
  assert (Hwf : well_formed three_rows) by repeat constructor.
  assert (Hwl : well_formed long_row) by repeat constructor.
  destruct (pgrescpy_prefix three_rows 2 1 Hwf) as (Hok & _).
  destruct (pgrescpy_prefix three_rows 4 2 Hwf) as (_ & Hfail & _).
  destruct (pgrescpy_prefix long_row 1 2 Hwl) as (_ & _ & _ & _ & Hlong).
  split; [exact Hwf|]. split; [|split; [|split; [exact Hwl|]]].
  - rewrite Hok; [reflexivity|vm_compute; discriminate
                  |vm_compute; discriminate
                  |apply cells_fit_check; reflexivity].
  - apply Hfail; [vm_compute; reflexivity|lia].
  - apply (Hlong 0%nat 0%nat long_value);
      [vm_compute; lia|vm_compute; lia|reflexivity|vm_compute; lia].
Defined.

(** X5.  When the answer has no more rows than the baseline and as many
    columns (the values of both fitting the 255 bytes of a cell, and the
    sort key being a column of the answer), the turn is not skipped: the
    answer is diffed row by row against the first rows of the baseline,
    the rows of the diff are put in the order of the sort key and drawn
    under the column names of the answer, and the answer becomes the
    baseline. *)
Theorem refresh_on_shrink (h : pgcenter_h) (st : main_state) (s : screen_s)
    (server : Z -> string -> PQexec_result) (b r : PGresult) (k : Z)
    (d : bool) :
  first_iter st = false ->
  current_screen st = Some s ->
  answers h server (console_index st) s r ->
  well_formed b -> well_formed r ->
  cells_fit (tuples b) -> cells_fit (tuples r) ->
  p_res st = Some b ->
  n_prev_rows st = Some (PQntuples (Some b)) ->
  PQntuples (Some r) <= PQntuples (Some b) ->
  PQnfields (Some r) = PQnfields (Some b) ->
  lookup_order s = Some (k, d) ->
  sort_defined h s (PQntuples (Some r)) (PQnfields (Some r)) ->
  exists sorted,
    main_refresh h st server
    = Some (set_baseline st false (Some r) (Some (PQntuples (Some r))),
            [PrintData (map Some (fnames r)) (Some (k, d)) sorted; Sleep 1])
    /\ sort_result h s k d
         (diff_arrays h (firstn (Z.to_nat (PQntuples (Some r))) (tuples b))
            (tuples r) (current_context s)
            (PQntuples (Some r)) (PQnfields (Some r)))
         sorted.
Proof.
  intros Hfi Hs Hans Hwfb Hwfr Hfb Hfr Hp Hn Hrows Hcols Hl Hdef.
  destruct (main_refresh_diffs h st s server b r (PQntuples (Some b)) k d)
    as (sorted & Hturn & Hres); try assumption; try lia.
  exists sorted. split; [exact Hturn|].
  assert (E : map (firstn (Z.to_nat (PQnfields (Some r))))
                (firstn (Z.to_nat (PQntuples (Some r))) (tuples b))
              = firstn (Z.to_nat (PQntuples (Some r))) (tuples b)).
  { apply firstn_rows, Forall_prefix.
    eapply Forall_impl; [|exact Hwfb].
    intros row Hrow. cbv beta in Hrow. rewrite Hcols.
    unfold PQnfields. lia. }
  rewrite E in Hres. exact Hres.
Qed.

Lemma refresh_on_shrink_witness :
  let st := {| screens := init_screens example_h; first_iter := false;
               console_no := 1; console_index := 0;
               p_res := Some three_rows; n_prev_rows := Some 3 |} in
  PQntuples (Some two_rows_later) <= PQntuples (Some three_rows)
  /\ diff_arrays example_h (firstn 2 (tuples three_rows))
       (tuples two_rows_later) pg_stat_database 2 2
     = [["a"; "1"]; ["b"; "10"]]
  /\ exists sorted,
       main_refresh example_h st (steady_server two_rows_later)
       = Some (set_baseline st false (Some two_rows_later) (Some 2),
               [PrintData [Some "datname"; Some "commits"] (Some (1, true))
                  sorted; Sleep 1])
       /\ sorted = [["b"; "10"]; ["a"; "1"]].
Proof.
  intros st. split; [vm_compute; discriminate|].
  split; [vm_compute; reflexivity|].
  assert (Hdef : sort_defined example_h (init_screen example_h 0)
                   (PQntuples (Some two_rows_later))
                   (PQnfields (Some two_rows_later))).
  { right. exists 1, true. split; [reflexivity|]. right; right.
    vm_compute. split; [discriminate|reflexivity]. }
  destruct (refresh_on_shrink example_h st (init_screen example_h 0)
              (steady_server two_rows_later) three_rows two_rows_later
              1 true eq_refl eq_refl eq_refl
              ltac:(repeat constructor) ltac:(repeat constructor)
              ltac:(apply cells_fit_check; reflexivity)
              ltac:(apply cells_fit_check; reflexivity)
              eq_refl eq_refl ltac:(vm_compute; discriminate) eq_refl
              eq_refl Hdef)
    as (sorted & Hturn & _).
  exists sorted. split; [exact Hturn|].
  assert (Hc : main_refresh example_h st (steady_server two_rows_later)
               = Some (set_baseline st false (Some two_rows_later) (Some 2),
                       [PrintData [Some "datname"; Some "commits"]
                          (Some (1, true)) [["b"; "10"]; ["a"; "1"]];
                        Sleep 1]))
    by (vm_compute; reflexivity).
  rewrite Hturn in Hc. inversion Hc. reflexivity.
Defined.

(** ** The variables of the main loop *)

(** X6.  After a refresh that found [first_iter] false, whatever the
    server answered, the stored row count is the row count of the stored
    snapshot and [first_iter] is still false; the screens and the active
    console are as before. *)
Theorem refresh_keeps_count (h : pgcenter_h) (st st' : main_state)
    (server : Z -> string -> PQexec_result) (ev : list event) :
  first_iter st = false ->
  main_refresh h st server = Some (st', ev) ->
  n_prev_rows st' = Some (PQntuples (p_res st'))
  /\ first_iter st' = false
  /\ screens st' = screens st
  /\ console_index st' = console_index st
  /\ console_no st' = console_no st.
Proof.
  intros Hfi. unfold main_refresh.
  destruct (current_screen st) as [s|]; [|discriminate]. cbn [bind].
  destruct (do_query h _) as [c_res ev0]. rewrite Hfi.
  destruct (n_prev_rows st) as [prev|]; [|discriminate]. cbn [bind].
  destruct (prev <? PQntuples c_res).
  - intros H; inversion H; subst. repeat split; reflexivity.
  - destruct (pgrescpy (p_res st) _ _); [|discriminate]. cbn [bind].
    destruct (pgrescpy c_res _ _); [|discriminate]. cbn [bind].
    destruct (sort_array _ _ _ _ _); [|discriminate]. cbn [bind].
    intros H; inversion H; subst. repeat split; reflexivity.
Qed.

Lemma refresh_keeps_count_witness :
  exists st' ev,
    main_refresh example_h settled_state failing_server = Some (st', ev)
    /\ n_prev_rows st' = Some (PQntuples (p_res st')).
Proof.
  assert (H : exists st' ev,
             main_refresh example_h settled_state failing_server
             = Some (st', ev))
    by (eexists _, _; vm_compute; reflexivity).
  destruct H as (st' & ev & H). exists st', ev. split; [exact H|].
  exact (proj1 (refresh_keeps_count example_h settled_state st'
                  failing_server ev eq_refl H)).
Defined.

Lemma current_screen_set (st : main_state) (s s' : screen_s) (fi : bool) :
  current_screen st = Some s ->
  current_screen (set_current_screen st s' fi) = Some s'.
Proof.
  unfold current_screen. cbn [screens console_index set_current_screen].
  intros H. rewrite nth_error_set_nth, Nat.eqb_refl.
  assert (Hlt : (Z.to_nat (console_index st) < List.length (screens st))%nat)
    by (apply nth_error_Some; congruence).
  destruct (Nat.ltb_spec (Z.to_nat (console_index st))
              (List.length (screens st))); [reflexivity|lia].
Qed.

Lemma change_min_age_frame (h : pgcenter_h) (s s' : screen_s)
    (keys rest : list Z) (ev : list event) :
  change_min_age h s keys = Some (s', ev, rest) ->
  s' = s \/ exists a, s' = set_min_age s a.
Proof.
  unfold change_min_age.
  destruct (cmd_readline (BUFFERSIZE_S h) keys "")
    as [[[[esc text] ev0] rest0]|];
    [|discriminate]. cbn [bind].
  destruct (negb (String.length text =? 0)%nat && negb esc).
  - destruct (min_age_rejected text) as [[|]|]; [| |discriminate];
      cbn [bind]; intros H; inversion H; subst; eauto.
  - destruct ((String.length text =? 0)%nat && negb esc);
      intros H; inversion H; subst; auto.
Qed.

Lemma change_sort_order_frame (h : pgcenter_h) (s : screen_s) (b fi : bool) :
  let s' := fst (change_sort_order h s b fi) in
  conn_used s' = conn_used s
  /\ current_context s' = current_context s
  /\ pg_stat_activity_min_age s' = pg_stat_activity_min_age s
  /\ host s' = host s /\ port s' = port s /\ user s' = user s
  /\ dbname s' = dbname s /\ password s' = password s.
Proof.
  unfold change_sort_order.
  destruct (sort_range h (current_context s)). cbn. repeat split.
Qed.

Lemma show_view_frame (st st' : main_state) (msg : string) (c : context)
    (keys keys' : list Z) (ev : list event) :
  show_view st msg c keys = Some (st', ev, keys') ->
  exists s,
    current_screen st = Some s
    /\ st' = set_current_screen st (set_current_context s c) true
    /\ ev = [Wprintw msg] /\ keys' = keys.
Proof.
  unfold show_view. destruct (current_screen st) as [s|]; [|discriminate].
  cbn [bind]. intros H; inversion H; subst. eauto.
Qed.

Lemma arrow_frame (h : pgcenter_h) (st st' : main_state) (b : bool)
    (keys keys' : list Z) (ev : list event) :
  arrow h st b keys = Some (st', ev, keys') ->
  exists s,
    current_screen st = Some s
    /\ st' = set_current_screen st
               (fst (change_sort_order h s b (first_iter st)))
               (snd (change_sort_order h s b (first_iter st)))
    /\ keys' = keys.
Proof.
  unfold arrow. destruct (current_screen st) as [s|]; [|discriminate].
  cbn [bind]. destruct (change_sort_order h s b (first_iter st)) eqn:E.
  intros H; inversion H; subst. exists s. rewrite E.
  repeat split; reflexivity.
Qed.

Lemma show_view_used (st st' : main_state) (msg : string) (c : context)
    (keys keys' : list Z) (ev : list event) :
  show_view st msg c keys = Some (st', ev, keys') ->
  exists s s' fi,
    current_screen st = Some s
    /\ st' = set_current_screen st s' fi /\ conn_used s' = conn_used s.
Proof.
  intros H. apply show_view_frame in H. destruct H as (s & Hs & -> & _).
  exists s, (set_current_context s c), true. auto.
Qed.

Lemma arrow_used (h : pgcenter_h) (st st' : main_state) (b : bool)
    (keys keys' : list Z) (ev : list event) :
  arrow h st b keys = Some (st', ev, keys') ->
  exists s s' fi,
    current_screen st = Some s
    /\ st' = set_current_screen st s' fi /\ conn_used s' = conn_used s.
Proof.
  intros H. apply arrow_frame in H. destruct H as (s & Hs & -> & _).
  eexists s, _, _. split; [exact Hs|]. split; [reflexivity|].
  apply change_sort_order_frame.
Qed.

(** What a key can do to the state: nothing, another console, or a new
    value of the active screen and of [first_iter]. *)
Lemma main_key_cases (h : pgcenter_h) (st st' : main_state) (ch : Z)
    (keys keys' : list Z) (ev : list event) :
  main_key h st ch keys = Some (st', ev, keys') ->
  st' = st
  \/ (exists target,
        nth_error (screens st) (Z.to_nat (ch - 48 - 1)) = Some target
        /\ conn_used target = true
        /\ st' = set_console st (ch - 48 - 1))
  \/ st' = set_console st (console_index st)
  \/ (exists s s' fi,
        current_screen st = Some s
        /\ st' = set_current_screen st s' fi
        /\ conn_used s' = conn_used s).
Proof.
  unfold main_key.
  destruct ((Libc.code "1" <=? ch) && (ch <=? Libc.code "8")).
  { unfold switch_conn.
    destruct (nth_error (screens st) (Z.to_nat (ch - 48 - 1)))
      as [target|] eqn:Ht; [|discriminate]. cbn [bind].
    destruct (conn_used target) eqn:Hu; cbn [bind];
      intros H; inversion H; subst.
    - right; left. exists target. auto.
    - right; right; left. reflexivity. }
  destruct (ch =? 27).
  { destruct (getch keys) as [c1 k1]. destruct (getch k1) as [c2 k2].
    destruct (is_key c2 "C").
    { intros H. apply arrow_used in H. auto. }
    destruct (is_key c2 "D").
    { intros H. apply arrow_used in H. auto. }
    intros H; inversion H; subst. now left. }
  repeat match goal with
  | |- (if is_key ch ?c then show_view _ _ _ _ else _) = _ -> _ =>
      destruct (is_key ch c);
      [intros H; apply show_view_used in H; auto|]
  end.
  destruct (is_key ch "l").
  { destruct (current_screen st) as [s|] eqn:Hs; [|discriminate].
    cbn [bind]. rewrite <- Hs.
    intros H; apply show_view_used in H. auto. }
  destruct (is_key ch "m").
  { destruct (current_screen st) as [s|] eqn:Hs; [|discriminate].
    cbn [bind]. destruct (context_eqb _ _).
    - destruct (change_min_age h s keys) as [[[s' ev0] k0]|] eqn:Hm;
        [|discriminate]. cbn [bind].
      intros H; inversion H; subst. right; right; right.
      exists s, s', true. split; [reflexivity|]. split; [reflexivity|].
      apply change_min_age_frame in Hm.
      destruct Hm as [->|(a & ->)]; reflexivity.
    - intros H; inversion H; subst. now left. }
  destruct (is_key ch "f").
  { intros H; apply show_view_used in H. auto. }
  intros H; inversion H; subst. now left.
Qed.

(** X7.  No key touches the baseline: whatever key is handled, the
    previous snapshot and the previous row count are as before, and there
    are as many screens as before. *)
Theorem keys_keep_baseline (h : pgcenter_h) (st st' : main_state) (ch : Z)
    (keys keys' : list Z) (ev : list event) :
  main_key h st ch keys = Some (st', ev, keys') ->
  p_res st' = p_res st
  /\ n_prev_rows st' = n_prev_rows st
  /\ List.length (screens st') = List.length (screens st).
Proof.
  intros H. apply main_key_cases in H.
  destruct H as [-> | [(t & _ & _ & ->) | [-> | (s & s' & fi & _ & -> & _)]]];
    repeat split; try reflexivity.
  cbn [screens set_current_screen]. apply set_nth_length.
Qed.

Lemma keys_keep_baseline_witness :
  exists st' ev keys',
    main_key example_h settled_state (Libc.code "r") [] = Some (st', ev, keys')
    /\ p_res st' = Some two_rows /\ n_prev_rows st' = Some 2.
Proof.
  assert (H : exists st' ev keys',
             main_key example_h settled_state (Libc.code "r") []
             = Some (st', ev, keys'))
    by (eexists _, _, _; vm_compute; reflexivity).
  destruct H as (st' & ev & keys' & H). exists st', ev, keys'.
  destruct (keys_keep_baseline example_h settled_state st' _ [] keys' ev H)
    as (Hp & Hn & _).
  split; [exact H|]. split; [rewrite Hp|rewrite Hn]; reflexivity.
Defined.
(** X8.  The active console keeps its connection: when the active screen
    has [conn_used] set, it still has after any key, the keys from ['1']
    to ['8'] included, which never make a console without a connection
    the active one. *)
Theorem keys_keep_connection (h : pgcenter_h) (st st' : main_state) (ch : Z)
    (keys keys' : list Z) (ev : list event) (s : screen_s) :
  current_screen st = Some s ->
  conn_used s = true ->
  main_key h st ch keys = Some (st', ev, keys') ->
  exists s', current_screen st' = Some s' /\ conn_used s' = true.
Proof.
  intros Hs Hused H. apply main_key_cases in H.
  destruct H as [-> | [(t & Ht & Hu & ->) | [-> | (s0 & s' & fi & Hs0 & -> & Hc)]]].
  - eauto.
  - exists t. split; [|exact Hu].
    unfold current_screen. cbn [screens console_index set_console].
    exact Ht.
  - exists s. split; [exact Hs|exact Hused].
  - exists s'. split; [eapply current_screen_set; exact Hs0|].
    rewrite Hc. congruence.
Qed.

Lemma keys_keep_connection_witness :
  exists st' ev keys' s',
    main_key example_h on_first_console (Libc.code "3") []
    = Some (st', ev, keys')
    /\ current_screen st' = Some s' /\ conn_used s' = true.
Proof.
  assert (H : exists st' ev keys',
             main_key example_h on_first_console (Libc.code "3") []
             = Some (st', ev, keys'))
    by (eexists _, _, _; vm_compute; reflexivity).
  destruct H as (st' & ev & keys' & H).
  assert (Hs : exists s, current_screen on_first_console = Some s
                         /\ conn_used s = true)
    by (eexists; split; vm_compute; reflexivity).
  destruct Hs as (s & Hs & Hu).
  destruct (keys_keep_connection example_h on_first_console st' _ [] keys'
              ev s Hs Hu H) as (s' & Hs' & Hu').
  exists st', ev, keys', s'. auto.
Defined.

Lemma main_key_view (h : pgcenter_h) (st : main_state) (c : context)
    (s : screen_s) (keys : list Z) :
  current_screen st = Some s ->
  main_key h st (Libc.code (view_key c)) keys
  = show_view st (view_message c s) c keys.
Proof.
  intros Hs. destruct c; cbn [view_key view_message];
    try match goal with
    | |- main_key h st ?k keys = show_view st ?m ?c keys =>
        change (main_key h st k keys) with (show_view st m c keys);
        reflexivity
    end.
  change (main_key h st (Libc.code "l") keys)
    with (s0 <- current_screen st ;;
          show_view st
            ("Show long transactions (transactions and queries threshold: "
             ++ pg_stat_activity_min_age s0 ++ ")")%string
            pg_stat_activity_long keys).
  rewrite Hs. reflexivity.
Qed.

(** X9.  A view key makes its view the current one on the active screen
    and sets [first_iter]; the sort key and direction kept for every view
    and the minimum age stay as they were, no further key is read. *)
Theorem view_key_selects (h : pgcenter_h) (st st' : main_state)
    (c : context) (s : screen_s) (keys keys' : list Z) (ev : list event) :
  current_screen st = Some s ->
  main_key h st (Libc.code (view_key c)) keys = Some (st', ev, keys') ->
  first_iter st' = true
  /\ keys' = keys
  /\ exists s',
       current_screen st' = Some s'
       /\ current_context s' = c
       /\ context_list s' = context_list s
       /\ pg_stat_activity_min_age s' = pg_stat_activity_min_age s
       /\ conn_used s' = conn_used s.
Proof.
  intros Hs. rewrite (main_key_view h st c s keys Hs).
  intros H. apply show_view_frame in H.
  destruct H as (s0 & Hs0 & -> & _ & ->).
  rewrite Hs in Hs0. inversion Hs0; subst s0.
  split; [reflexivity|]. split; [reflexivity|].
  exists (set_current_context s c).
  split; [eapply current_screen_set; exact Hs|]. repeat split.
Qed.

Lemma view_key_selects_witness :
  exists st' ev keys' s',
    main_key example_h settled_state (Libc.code (view_key pg_tables_size)) []
    = Some (st', ev, keys')
    /\ first_iter st' = true
    /\ current_screen st' = Some s'
    /\ current_context s' = pg_tables_size.
Proof.
  assert (H : exists st' ev keys',
             main_key example_h settled_state
               (Libc.code (view_key pg_tables_size)) []
             = Some (st', ev, keys'))
    by (eexists _, _, _; vm_compute; reflexivity).
  destruct H as (st' & ev & keys' & H).
  destruct (view_key_selects example_h settled_state st' pg_tables_size
              (init_screen example_h 0) [] keys' ev eq_refl H)
    as (Hfi & _ & s' & Hs' & Hc & _).
  exists st', ev, keys', s'. auto.
Defined.

(** X10.  The key ['m'] outside the long-activity view changes nothing
    and reads no key; on the long-activity view it sets [first_iter]
    whether the new minimum age is taken, refused or the entry cancelled,
    and leaves the view and the sort keys as they were. *)
Theorem min_age_key (h : pgcenter_h) (st : main_state) (s : screen_s)
    (keys : list Z) :
  current_screen st = Some s ->
  (current_context s <> pg_stat_activity_long ->
   main_key h st (Libc.code "m") keys
   = Some (st, [Wprintw "Not allowed here."], keys))
  /\ (current_context s = pg_stat_activity_long ->
      forall st' ev keys',
        main_key h st (Libc.code "m") keys = Some (st', ev, keys') ->
        first_iter st' = true
        /\ exists s',
             current_screen st' = Some s'
             /\ current_context s' = pg_stat_activity_long
             /\ context_list s' = context_list s).
Proof.
  intros Hs.
  assert (E : main_key h st (Libc.code "m") keys
              = (if context_eqb (current_context s) pg_stat_activity_long
                 then '(s', ev, keys) <- change_min_age h s keys ;;
                      Some (set_current_screen st s' true, ev, keys)
                 else Some (st, [Wprintw "Not allowed here."], keys))).
  { change (main_key h st (Libc.code "m") keys)
      with (s0 <- current_screen st ;;
            if context_eqb (current_context s0) pg_stat_activity_long
            then '(s', ev, keys) <- change_min_age h s0 keys ;;
                 Some (set_current_screen st s' true, ev, keys)
            else Some (st, [Wprintw "Not allowed here."], keys)).
    rewrite Hs. reflexivity. }
  rewrite E. split.
  - intros Hne.
    destruct (context_eqb _ _) eqn:Hc; [|reflexivity].
    apply context_eqb_eq in Hc. contradiction.
  - intros Hlong st' ev keys'. rewrite Hlong. cbn [context_eqb].
    destruct (change_min_age h s keys) as [[[s' ev0] k0]|] eqn:Hm;
      [|discriminate]. cbn [bind].
    intros H; inversion H; subst. split; [reflexivity|].
    exists s'. split; [eapply current_screen_set; exact Hs|].
    apply change_min_age_frame in Hm.
    destruct Hm as [->|(a & ->)]; split; auto.
Qed.

Lemma min_age_key_witness :
  main_key example_h settled_state (Libc.code "m") [55]
  = Some (settled_state, [Wprintw "Not allowed here."], [55]).
Proof.
  apply (proj1 (min_age_key example_h settled_state
                  (init_screen example_h 0) [55] eq_refl)).
  discriminate.
Defined.

(** X11.  A key from ['1'] to ['8'] whose console has no connection leaves
    every variable as it was and says so; when the console has a
    connection it becomes the active one, with its number. *)
Theorem digit_key (h : pgcenter_h) (st : main_state) (ch : Z)
    (keys : list Z) (target : screen_s) :
  Libc.code "1" <= ch <= Libc.code "8" ->
  nth_error (screens st) (Z.to_nat (ch - Libc.code "1")) = Some target ->
  (conn_used target = false ->
   console_no st = console_index st + 1 ->
   main_key h st ch keys
   = Some (st,
           [Wprintw ("Do not switch because no connection associated "
                     ++ "(stay on console "
                     ++ Libc.format_d (console_no st) ++ ")")%string],
           keys))
  /\ (conn_used target = true ->
      main_key h st ch keys
      = Some (set_console st (ch - Libc.code "1"),
              [Wprintw ("Switch to another pgbouncer connection (console "
                        ++ Libc.format_d (ch - Libc.code "0") ++ ")")%string],
              keys)).
Proof.
  intros Hch Ht. unfold main_key.
  destruct (Z.leb_spec (Libc.code "1") ch); [|lia].
  destruct (Z.leb_spec ch (Libc.code "8")); [|lia]. cbn [andb].
  unfold switch_conn.
  change (Libc.code "1") with 49 in Ht. change (Libc.code "0") with 48.
  change (Libc.code "1") with 49.
  replace (ch - 48 - 1) with (ch - 49) by lia. rewrite Ht. cbn [bind].
  split; intros Hu; rewrite Hu; cbn [bind]; [|reflexivity].
  intros Hno. destruct st as [scr fi no idx pr np].
  cbn [console_no console_index] in Hno. subst no. reflexivity.
Qed.

Lemma digit_key_witness :
  Libc.code "1" <= Libc.code "3" <= Libc.code "8"
  /\ main_key example_h on_first_console (Libc.code "3") []
     = Some (on_first_console,
             [Wprintw "Do not switch because no connection associated (stay on console 1)"],
             []).
Proof.
  assert (Hr : Libc.code "1" <= Libc.code "3" <= Libc.code "8")
    by (split; discriminate).
  split; [exact Hr|].
  assert (Ht : nth_error (screens on_first_console)
                 (Z.to_nat (Libc.code "3" - Libc.code "1"))
               = Some (init_screen example_h 2))
    by (vm_compute; reflexivity).
  rewrite (proj1 (digit_key example_h on_first_console (Libc.code "3") []
                    (init_screen example_h 2) Hr Ht) eq_refl eq_refl).
  vm_compute. reflexivity.
Defined.

(** ** The line editor *)

(** X12.  A text typed with keys that the editor stores, followed by
    Enter, comes back as typed, as a commit, when the buffer has room for
    it and for the end of the string; the keys after Enter are left
    unread.  A text as long as the buffer or longer is written past its
    end. *)
Theorem cmd_readline_commit (size : nat) (t : string) (rest : list Z) :
  plain_text t = true ->
  ((String.length t < size)%nat ->
   cmd_readline size (keys_of t ++ 10 :: rest) ""
   = Some (false, t, [], rest))
  /\ ((size <= String.length t)%nat ->
      cmd_readline size (keys_of t ++ 10 :: rest) "" = None).
Proof.
  intros Ht. split.
  - intros Hlen. apply cmd_readline_enter; assumption.
  - intros Hlen. apply cmd_readline_full; [exact Ht|].
    cbn [String.length]. lia.
Qed.

Lemma cmd_readline_commit_witness :
  plain_text "00:05:00" = true
  /\ cmd_readline 16 (keys_of "00:05:00" ++ [10; 100]) ""
     = Some (false, "00:05:00", [], [100])
  /\ cmd_readline 8 (keys_of "00:05:00" ++ [10; 100]) "" = None.
Proof.
  split; [reflexivity|].
  destruct (cmd_readline_commit 16 "00:05:00" [100] eq_refl) as [Hok _].
  destruct (cmd_readline_commit 8 "00:05:00" [100] eq_refl) as [_ Hfull].
  split; [apply Hok; vm_compute; lia|apply Hfull; vm_compute; lia].
Defined.

(** X13.  Escape cancels the entry whatever was typed or erased before
    it, as long as the keys before it are no more than the buffer has
    bytes: the text comes back empty with the cancel flag, the keys after
    Escape are left unread, and [change_min_age] then keeps the minimum
    age of the screen. *)
Theorem cmd_readline_escape (h : pgcenter_h) (s : screen_s) (size : nat)
    (pre rest : list Z) (typed : string) :
  no_end_key pre = true ->
  (0 < size)%nat ->
  (String.length typed + List.length pre <= size)%nat ->
  (List.length pre <= BUFFERSIZE_S h)%nat ->
  (0 < BUFFERSIZE_S h)%nat ->
  cmd_readline size (pre ++ 27 :: rest) typed
  = Some (true, "", [cancelled], rest)
  /\ change_min_age h s (pre ++ 27 :: rest)
     = Some (s, [min_age_prompt; cancelled], rest).
Proof.
  intros Hpre Hsize Hfit Hbuf Hpos.
  assert (Hline : forall size typed,
             (0 < size)%nat ->
             (String.length typed + List.length pre <= size)%nat ->
             cmd_readline size (pre ++ 27 :: rest) typed
             = Some (true, "", [cancelled], rest)).
  { clear typed size Hsize Hfit. unfold no_end_key in Hpre.
    induction pre as [|ch pre IH]; intros size typed Hsize Hfit.
    - cbn [app cmd_readline Z.eqb].
      destruct (Nat.ltb_spec 0 size); [reflexivity|lia].
    - cbn [forallb] in Hpre. apply andb_true_iff in Hpre.
      destruct Hpre as [Hch Hpre]. apply andb_true_iff in Hch.
      destruct Hch as [H27 H10]. apply negb_true_iff in H27, H10.
      cbn [List.length] in Hfit, Hbuf.
      cbn [app cmd_readline]. rewrite H27, H10.
      destruct (_ || _).
      + apply IH; [exact Hpre|lia|exact Hsize|].
        assert (String.length (remove_last typed) <= String.length typed)%nat.
        { clear. induction typed as [|c t IHt]; [cbn; lia|].
          destruct t; cbn [remove_last String.length] in *; lia. }
        lia.
      + destruct (Nat.ltb_spec (String.length typed) size); [|lia].
        apply IH; [exact Hpre|lia|exact Hsize|].
        rewrite length_append_char. lia. }
  split; [apply Hline; assumption|].
  unfold change_min_age. rewrite Hline by (cbn [String.length]; lia).
  reflexivity.
Qed.

Lemma cmd_readline_escape_witness :
  no_end_key (keys_of "12:3" ++ [127]) = true
  /\ change_min_age example_h (init_screen example_h 0)
       ((keys_of "12:3" ++ [127]) ++ 27 :: [100])
     = Some (init_screen example_h 0, [min_age_prompt; cancelled], [100]).
Proof.
  split; [reflexivity|].
  apply (cmd_readline_escape example_h (init_screen example_h 0) 16
           (keys_of "12:3" ++ [127]) [100] "");
    [reflexivity|vm_compute; lia..].
Defined.

Lemma remove_last_append (a : string) (c : ascii) :
  remove_last (append_char a c) = a.
Proof.
  unfold append_char. induction a as [|x a IH]; [reflexivity|].
  cbn [append remove_last]. rewrite IH.
  destruct a; reflexivity.
Qed.

(** X14.  An erasing key (Backspace, Delete, or 127) takes back the last
    key stored, the buffer having had room for it, and does nothing when
    nothing is stored: the entry goes on as if neither key had been
    pressed. *)
Theorem cmd_readline_erase (size : nat) (t : string) (ch bs : Z)
    (keys : list Z) :
  plain_text t = true -> plain_key ch = true -> erasing_key bs = true ->
  (String.length t < size)%nat ->
  cmd_readline size (keys_of t ++ ch :: bs :: keys) ""
  = cmd_readline size (keys_of t ++ keys) ""
  /\ cmd_readline size (bs :: keys) "" = cmd_readline size keys "".
Proof.
  intros Ht Hch Hbs Hlen.
  assert (Hstep : forall typed,
             cmd_readline size (bs :: keys) typed
             = cmd_readline size keys (remove_last typed)).
  { intros typed. unfold erasing_key in Hbs. cbn [cmd_readline].
    rewrite Hbs.
    destruct (Z.eqb_spec bs 27) as [->|_]; [discriminate Hbs|].
    destruct (Z.eqb_spec bs 10) as [->|_]; [discriminate Hbs|].
    reflexivity. }
  split; [|apply Hstep].
  rewrite !cmd_readline_plain by (try exact Ht; cbn [String.length]; lia).
  rewrite cmd_readline_plain_key by exact Hch.
  cbn [append].
  destruct (Nat.ltb_spec (String.length t) size); [|lia].
  rewrite Hstep, remove_last_append. reflexivity.
Qed.

Lemma cmd_readline_erase_witness :
  cmd_readline 16 (keys_of "00:05:0" ++ Libc.code "7" :: KEY_BACKSPACE
                     :: keys_of "0" ++ [10]) ""
  = Some (false, "00:05:00", [], []).
Proof.
  rewrite (proj1 (cmd_readline_erase 16 "00:05:0" (Libc.code "7")
                    KEY_BACKSPACE (keys_of "0" ++ [10])
                    eq_refl eq_refl eq_refl ltac:(vm_compute; lia))).
  reflexivity.
Defined.

(** ** The arrows *)


Lemma next_key_inverse (min max k : Z) :
  min <= k <= max ->
  next_key min max false (next_key min max true k) = k
  /\ next_key min max true (next_key min max false k) = k.
Proof.
  intros Hk. unfold next_key. split.
  - destruct (Z.gtb_spec (k + 1) max).
    + destruct (Z.ltb_spec (min - 1) min); lia.
    + destruct (Z.ltb_spec (k + 1 - 1) min); lia.
  - destruct (Z.ltb_spec (k - 1) min).
    + destruct (Z.gtb_spec (max + 1) max); lia.
    + destruct (Z.gtb_spec (k - 1 + 1) max); lia.
Qed.

(** X15.  The left arrow undoes the right arrow and the right arrow the
    left one: with the sort key of the view within its range, one arrow
    after the other leaves the key and the direction as they were. *)
Theorem arrows_undo (h : pgcenter_h) (s : screen_s) (k : Z) (d b : bool) :
  lookup_order s = Some (k, d) ->
  fst (sort_range h (current_context s)) <= k
    <= snd (sort_range h (current_context s)) ->
  lookup_order (press h (negb b) (press h b s)) = Some (k, d).
Proof.
  intros Hl Hk.
  rewrite lookup_order_press, press_current_context, lookup_order_press, Hl.
  destruct (next_key_inverse _ _ k Hk) as [Hrl Hlr].
  destruct b; cbn [negb]; [rewrite Hrl|rewrite Hlr]; reflexivity.
Qed.

Lemma arrows_undo_witness :
  lookup_order (press example_h false (press example_h true
                  (init_screen example_h 0)))
  = Some (1, true)
  /\ lookup_order (press example_h true (press example_h false
                     (init_screen example_h 0)))
     = Some (1, true).
Proof.
  split.
  - apply (arrows_undo example_h (init_screen example_h 0) 1 true true);
      [reflexivity|simpl; lia].
  - apply (arrows_undo example_h (init_screen example_h 0) 1 true false);
      [reflexivity|simpl; lia].
Defined.

Lemma lookup_other_view (cur c' : context) (f : context_s -> context_s)
    (l : list context_s) (acc : option (Z * bool)) :
  c' <> cur ->
  (forall e, ctx (f e) = ctx e) ->
  (forall e, ctx e <> cur -> f e = e) ->
  fold_left
    (fun acc e =>
       if context_eqb c' (ctx e) then Some (order_key e, order_desc e)
       else acc) (map f l) acc
  = fold_left
      (fun acc e =>
         if context_eqb c' (ctx e) then Some (order_key e, order_desc e)
         else acc) l acc.
Proof.
  intros Hne Hctx Hid. revert acc.
  induction l as [|e l IH]; intros acc; simpl; [reflexivity|].
  rewrite Hctx.
  destruct (context_eqb c' (ctx e)) eqn:E.
  - apply context_eqb_eq in E. rewrite Hid by congruence. apply IH.
  - apply IH.
Qed.

(** X16.  An arrow key changes the sort key of the current view and of no
    other: the key and direction kept for any other view, the direction of
    the current view, the view itself and, the view not being
    user-functions, the query and [first_iter] are as before; on
    user-functions [first_iter] is set. *)
Theorem arrow_changes_one_key (h : pgcenter_h) (s : screen_s) (b fi : bool) :
  let s' := fst (change_sort_order h s b fi) in
  let fi' := snd (change_sort_order h s b fi) in
  (forall c', c' <> current_context s ->
     lookup_order (set_current_context s' c')
     = lookup_order (set_current_context s c'))
  /\ (forall k d, lookup_order s = Some (k, d) ->
        exists k', lookup_order s' = Some (k', d))
  /\ current_context s' = current_context s
  /\ (current_context s = pg_stat_user_functions -> fi' = true)
  /\ (current_context s <> pg_stat_user_functions ->
      fi' = fi /\ prepare_query h s' = prepare_query h s).
Proof.
  intros s' fi'.
  assert (Hs' : s' = press h b s).
  { subst s'. unfold press, change_sort_order.
    destruct (sort_range h (current_context s)). reflexivity. }
  assert (Hfi : fi' = match current_context s with
                      | pg_stat_user_functions => true
                      | _ => fi
                      end).
  { subst fi'. unfold change_sort_order.
    destruct (sort_range h (current_context s)). reflexivity. }
  split; [|split; [|split; [|split]]].
  - intros c' Hne. rewrite Hs'. unfold lookup_order.
    cbn [current_context context_list set_current_context].
    rewrite press_context_list.
    apply (lookup_other_view (current_context s)); [exact Hne| |].
    + intros e. destruct (context_eqb _ _); reflexivity.
    + intros e He. destruct (context_eqb _ _) eqn:E; [|reflexivity].
      apply context_eqb_eq in E. congruence.
  - intros k d Hl. rewrite Hs', lookup_order_press, Hl. eauto.
  - rewrite Hs'. apply press_current_context.
  - intros Hc. rewrite Hfi, Hc. reflexivity.
  - intros Hc. split.
    + rewrite Hfi. destruct (current_context s); try reflexivity.
      contradiction.
    + unfold prepare_query.
      replace (current_context s') with (current_context s)
        by (rewrite Hs'; symmetry; apply press_current_context).
      replace (pg_stat_activity_min_age s')
        with (pg_stat_activity_min_age s)
        by (symmetry; apply (change_sort_order_frame h s b fi)).
      destruct (current_context s); try reflexivity. contradiction.
Qed.

Lemma arrow_changes_one_key_witness :
  lookup_order (set_current_context
                  (fst (change_sort_order example_h
                          (init_screen example_h 0) true false))
                  pg_tables_size)
  = Some (4, true)
  /\ snd (change_sort_order example_h (init_screen example_h 0) true false)
     = false.
Proof.
  destruct (arrow_changes_one_key example_h (init_screen example_h 0)
              true false) as (Hother & _ & _ & _ & Hq).
  split.
  - rewrite Hother by discriminate. reflexivity.
  - apply Hq. discriminate.
Defined.

Lemma init_context_list_nth (h : pgcenter_h) (c : context) :
  nums_ok h = true ->
  nth_error (init_context_list h) (context_num h c)
  = Some (initial_entry h c).
Proof.
  unfold nums_ok. intros Hok.
  apply andb_true_iff in Hok. destruct Hok as [Hok _].
  apply andb_true_iff in Hok. destruct Hok as [Hdistinct Hbound].
  apply distinct_NoDup in Hdistinct.
  rewrite forallb_forall in Hbound.
  rewrite init_context_list_writes.
  apply (writes_last (context_num h) (initial_entry h)).
  - exact Hdistinct.
  - destruct c; simpl; tauto.
  - rewrite repeat_length. apply Nat.ltb_lt, Hbound.
    apply in_map. destruct c; simpl; tauto.
Qed.

Lemma next_key_within (min max : Z) (b : bool) (k : Z) :
  min <= k <= max -> min <= next_key min max b k <= max.
Proof.
  intros Hk. unfold next_key. destruct b.
  - destruct (Z.gtb_spec (k + 1) max); lia.
  - destruct (Z.ltb_spec (k - 1) min); lia.
Qed.

(** X17.  On the user-functions view, whatever arrows were pressed since
    the start, the number that [prepare_query] puts between the two parts
    of the query is the current sort key plus one, the key being within
    the range of the view; the range is taken within 0 to 8, so that the
    number is the one digit that [tmp] has room for. *)
Theorem functions_query_order (h : pgcenter_h) (i : nat) (bs : list bool) :
  nums_ok h = true ->
  PG_STAT_USER_FUNCTIONS_ORDER_MIN h <= PG_STAT_USER_FUNCTIONS_ORDER_MAX h ->
  0 <= PG_STAT_USER_FUNCTIONS_ORDER_MIN h ->
  PG_STAT_USER_FUNCTIONS_ORDER_MAX h <= 8 ->
  let s := arrows h bs (set_current_context (init_screen h i)
                          pg_stat_user_functions) in
  exists key,
    current_order_key s = Some key
    /\ PG_STAT_USER_FUNCTIONS_ORDER_MIN h <= key
       <= PG_STAT_USER_FUNCTIONS_ORDER_MAX h
    /\ prepare_query h s
       = (PG_STAT_USER_FUNCTIONS_QUERY_P1 h ++ Libc.format_d (key + 1)
          ++ PG_STAT_USER_FUNCTIONS_QUERY_P2 h)%string.
Proof.
  intros Hok Hrange Hlow Hhigh s.
  set (inv := fun s : screen_s =>
         current_context s = pg_stat_user_functions
         /\ exists e,
              nth_error (context_list s) (PG_STAT_USER_FUNCTIONS_NUM h)
              = Some e
              /\ ctx e = pg_stat_user_functions
              /\ PG_STAT_USER_FUNCTIONS_ORDER_MIN h <= order_key e
                 <= PG_STAT_USER_FUNCTIONS_ORDER_MAX h
              /\ lookup_order s = Some (order_key e, order_desc e)).
  assert (Hinv : inv s).
  { subst s. unfold arrows.
    assert (H0 : inv (set_current_context (init_screen h i)
                        pg_stat_user_functions)).
    { split; [reflexivity|].
      exists (initial_entry h pg_stat_user_functions).
      split; [exact (init_context_list_nth h pg_stat_user_functions Hok)|].
      split; [reflexivity|]. split; [simpl; lia|].
      apply lookup_order_init, Hok. }
    revert H0. generalize (set_current_context (init_screen h i)
                             pg_stat_user_functions) as s0.
    induction bs as [|b bs IH]; intros s0 H0; [exact H0|].
    cbn [fold_left]. apply IH.
    destruct H0 as (Hc & e & Hn & He & Hk & Hl).
    split; [rewrite press_current_context; exact Hc|].
    exists (set_order_key e
              (next_key (PG_STAT_USER_FUNCTIONS_ORDER_MIN h)
                 (PG_STAT_USER_FUNCTIONS_ORDER_MAX h) b (order_key e))).
    split.
    { rewrite press_context_list, nth_error_map, Hn. cbn [option_map].
      rewrite Hc, He. reflexivity. }
    split; [exact He|].
    split; [apply next_key_within; exact Hk|].
    rewrite lookup_order_press, Hl, Hc. reflexivity. }
  destruct Hinv as (Hc & e & Hn & He & Hk & Hl).
  exists (order_key e). split; [unfold current_order_key; now rewrite Hl|].
  split; [exact Hk|].
  unfold prepare_query. rewrite Hc.
  rewrite (nth_error_nth _ _ zeroed_context_s Hn). reflexivity.
Qed.

Lemma functions_query_order_witness :
  exists key,
    current_order_key
      (arrows example_h [true; true; false; true]
         (set_current_context (init_screen example_h 0)
            pg_stat_user_functions)) = Some key
    /\ prepare_query example_h
         (arrows example_h [true; true; false; true]
            (set_current_context (init_screen example_h 0)
               pg_stat_user_functions))
       = ("SELECT f ORDER BY " ++ Libc.format_d (key + 1) ++ " DESC")%string.
Proof.
  destruct (functions_query_order example_h 0 [true; true; false; true]
              eq_refl ltac:(discriminate) ltac:(discriminate)
              ltac:(discriminate)) as (key & Hk & _ & Hq).
  exists key. split; [exact Hk|exact Hq].
Defined.

(** ** Column widths *)

Lemma fold_max_spec {X : Type} (g : X -> Z) (l : list X) (w0 : Z) :
  let m := fold_left (fun w x => if g x >=? w then g x else w) l w0 in
  w0 <= m
  /\ (forall x, In x l -> g x <= m)
  /\ (m = w0 \/ exists x, In x l /\ m = g x).
Proof.
  revert w0; induction l as [|x l IH]; intros w0; cbn zeta; simpl.
  - split; [lia|]. split; [intros x []|now left].
  - destruct (IH (if g x >=? w0 then g x else w0)) as (Hge & Hall & Hatt).
    destruct (Z.geb_spec (g x) w0) as [Hx|Hx].
    + split; [lia|]. split.
      * intros y [<-|Hy]; [exact Hge|apply Hall, Hy].
      * right. destruct Hatt as [->|(y & Hy & ->)]; eauto.
    + split; [lia|]. split.
      * intros y [<-|Hy]; [lia|apply Hall, Hy].
      * destruct Hatt as [->|(y & Hy & ->)]; eauto.
Qed.

Lemma mapM_nth {A B : Type} (f : A -> option B) (l : list A) (r : list B) :
  mapM f l = Some r ->
  List.length r = List.length l
  /\ forall i a, nth_error l i = Some a ->
       exists b, nth_error r i = Some b /\ f a = Some b.
Proof.
  revert r; induction l as [|x l IH]; intros r; simpl.
  - intros H; inversion H; subst. split; [reflexivity|].
    intros [|i] a Ha; discriminate Ha.
  - destruct (f x) as [b|] eqn:Hf; [|discriminate]. cbn [bind].
    destruct (mapM f l) as [bs|]; [|discriminate]. cbn [bind].
    intros H; inversion H; subst.
    destruct (IH bs eq_refl) as [Hlen Hnth]. split; [simpl; lia|].
    intros [|i] a Ha; simpl in Ha.
    + inversion Ha; subst. exists b. auto.
    + apply Hnth, Ha.
Qed.

(** The columns that [calculate_width] fills, one by one. *)
Lemma calculate_width_nth (res : option PGresult) (arr : array)
    (n_rows n_cols : Z) (columns : list colAttrs) :
  calculate_width res arr n_rows n_cols = Some columns ->
  List.length columns = Z.to_nat n_cols
  /\ forall col, (col < Z.to_nat n_cols)%nat ->
       exists colname,
         PQfname res col = Some colname
         /\ nth_error columns col
            = Some {| name := colname;
                      width := column_width colname arr n_rows col |}.
Proof.
  intros H. unfold calculate_width in H.
  apply mapM_nth in H. destruct H as [Hlen Hnth].
  rewrite length_seq in Hlen. split; [exact Hlen|].
  intros col Hcol.
  destruct (Hnth col col) as (c & Hc & Hf).
  { rewrite nth_error_seq.
    destruct (Nat.ltb_spec col (Z.to_nat n_cols)); [reflexivity|lia]. }
  destruct (PQfname res col) as [colname|]; [|discriminate].
  cbn [bind] in Hf. inversion Hf; subst c. clear Hf.
  exists colname. split; [reflexivity|exact Hc].
Qed.

(** The width of a column: two more than the longest of the name and the
    cells. *)
Lemma column_width_spec (colname : string) (arr : array) (n_rows : Z)
    (col : nat) :
  strlen colname + 2 <= column_width colname arr n_rows col
  /\ (forall row, (row < Z.to_nat n_rows)%nat ->
        strlen (cell arr row col) + 2 <= column_width colname arr n_rows col)
  /\ (column_width colname arr n_rows col = strlen colname + 2
      \/ exists row, (row < Z.to_nat n_rows)%nat
                     /\ column_width colname arr n_rows col
                        = strlen (cell arr row col) + 2).
Proof.
  unfold column_width.
  destruct (fold_max_spec (fun row => strlen (cell arr row col))
              (seq 0 (Z.to_nat n_rows)) (strlen colname))
    as (Hge & Hall & Hatt).
  split; [lia|]. split.
  - intros row Hrow.
    assert (strlen (cell arr row col) <= fold_left
              (fun w x => if strlen (cell arr x col) >=? w
                          then strlen (cell arr x col) else w)
              (seq 0 (Z.to_nat n_rows)) (strlen colname))
      by (apply Hall, in_seq; lia).
    lia.
  - destruct Hatt as [E|(row & Hrow & E)].
    + left. lia.
    + right. exists row. apply in_seq in Hrow. split; [lia|]. lia.
Qed.

(** X18.  [calculate_width] gives every column of the result a width that
    exceeds by two the longest of its name and of its cells in the
    [n_rows] rows: no cell and no name is longer than the width less two,
    and one of them is exactly that long. *)
Theorem calculate_width_fits (res : option PGresult) (arr : array)
    (n_rows n_cols : Z) (columns : list colAttrs) :
  calculate_width res arr n_rows n_cols = Some columns ->
  List.length columns = Z.to_nat n_cols
  /\ forall col, (col < Z.to_nat n_cols)%nat ->
       exists c,
         nth_error columns col = Some c
         /\ PQfname res col = Some (name c)
         /\ strlen (name c) + 2 <= width c
         /\ (forall row, (row < Z.to_nat n_rows)%nat ->
               strlen (cell arr row col) + 2 <= width c)
         /\ (width c = strlen (name c) + 2
             \/ exists row, (row < Z.to_nat n_rows)%nat
                            /\ width c = strlen (cell arr row col) + 2).
Proof.
  intros H.
  destruct (calculate_width_nth res arr n_rows n_cols columns H)
    as [Hlen Hnth].
  split; [exact Hlen|]. intros col Hcol.
  destruct (Hnth col Hcol) as (colname & Hf & Hc).
  exists {| name := colname;
            width := column_width colname arr n_rows col |}.
  split; [exact Hc|]. split; [exact Hf|]. cbn [name width].
  apply column_width_spec.
Qed.

Lemma calculate_width_fits_witness :
  calculate_width (Some two_rows) [["a"; "10"]; ["bbbbbbbbbb"; "20"]] 2 2
  = Some [{| name := "datname"; width := 12 |};
          {| name := "commits"; width := 9 |}]
  /\ exists c, nth_error [{| name := "datname"; width := 12 |};
                          {| name := "commits"; width := 9 |}] 0 = Some c
               /\ strlen (name c) + 2 <= width c.
Proof.
  assert (H : calculate_width (Some two_rows)
                [["a"; "10"]; ["bbbbbbbbbb"; "20"]] 2 2
              = Some [{| name := "datname"; width := 12 |};
                      {| name := "commits"; width := 9 |}])
    by (vm_compute; reflexivity).
  split; [exact H|].
  destruct (calculate_width_fits _ _ _ _ _ H) as [_ Hcol].
  destruct (Hcol 0%nat ltac:(simpl; lia)) as (c & Hc & _ & Hn & _).
  exists c. split; assumption.
Defined.

(** ** The lines of the data window *)

Lemma strlen_append (a b : string) :
  strlen (a ++ b) = strlen a + strlen b.
Proof.
  unfold strlen. induction a as [|x a IH]; cbn [append String.length].
  - lia.
  - rewrite !Nat2Z.inj_succ. lia.
Qed.

Lemma strlen_spaces (n : nat) : strlen (spaces n) = Z.of_nat n.
Proof.
  unfold strlen. induction n as [|n IH]; [reflexivity|].
  cbn [spaces String.length]. rewrite !Nat2Z.inj_succ. lia.
Qed.

Lemma strlen_left_justified (w : Z) (s : string) :
  strlen s <= w -> strlen (left_justified w s) = w.
Proof.
  intros H. unfold left_justified.
  rewrite strlen_append, strlen_spaces. lia.
Qed.

Lemma strlen_join (l : list string) :
  strlen (join l) = fold_right (fun s acc => strlen s + acc) 0 l.
Proof.
  induction l as [|s l IH]; [reflexivity|].
  cbn [join fold_right]. fold (join l). now rewrite strlen_append, IH.
Qed.

Lemma sum_map_seq (f : nat -> Z) (columns : list colAttrs) (d : colAttrs) :
  (forall j, (j < List.length columns)%nat ->
             f j = width (nth j columns d)) ->
  fold_right (fun s acc => s + acc) 0
    (map f (seq 0 (List.length columns)))
  = total_width columns.
Proof.
  intros H.
  assert (E : map f (seq 0 (List.length columns)) = map width columns).
  { rewrite <- (map_nth_seq_id columns d) at 2. rewrite map_map.
    apply map_ext_in. intros j Hj. apply in_seq in Hj. apply H. lia. }
  rewrite E. clear. induction columns as [|c l IH]; [reflexivity|].
  cbn [map fold_right total_width]. fold (total_width l). now rewrite IH.
Qed.

Lemma strlen_join_map {X : Type} (g : X -> string) (l : list X) :
  strlen (join (map g l))
  = fold_right (fun s acc => s + acc) 0 (map (fun x => strlen (g x)) l).
Proof.
  rewrite strlen_join. induction l as [|x l IH]; [reflexivity|].
  cbn [map fold_right]. now rewrite IH.
Qed.

(** X19.  When [calculate_width] has its widths, [print_data] writes one
    header line and one line for each of the [n_rows] rows, and every one
    of these lines has the same number of characters: the sum of the
    column widths, and the newline. *)
Theorem print_data_aligned (res : option PGresult) (arr : array)
    (n_rows n_cols : Z) (columns : list colAttrs) :
  calculate_width res arr n_rows n_cols = Some columns ->
  exists lines,
    print_data_text res arr n_rows n_cols = Some lines
    /\ List.length lines = S (Z.to_nat n_rows)
    /\ forall line, In line lines ->
         strlen line = total_width columns + 1.
Proof.
  intros Hw.
  destruct (calculate_width_nth res arr n_rows n_cols columns Hw)
    as [Hlen Hcol].
  set (d := {| name := ""; width := 0 |}).
  set (w := fun x => width (nth x columns d)).
  assert (Hname : forall j, (j < Z.to_nat n_cols)%nat ->
             PQfname res j = Some (name (nth j columns d))
             /\ strlen (name (nth j columns d)) <= w j
             /\ forall i, (i < Z.to_nat n_rows)%nat ->
                  strlen (cell arr i j) <= w j).
  { intros j Hj. destruct (Hcol j Hj) as (colname & Hf & Hc).
    destruct (column_width_spec colname arr n_rows j) as (Hn & Hcells & _).
    subst w. cbv beta. rewrite (nth_error_nth _ _ d Hc). cbn [name width].
    split; [exact Hf|]. split; [lia|].
    intros i Hi. specialize (Hcells i Hi). lia. }
  assert (Hheader :
      mapM (fun j => colname <- PQfname res j ;;
                     Some (left_justified (w j) colname))
        (seq 0 (Z.to_nat n_cols))
      = Some (map (fun j => left_justified (w j) (name (nth j columns d)))
                (seq 0 (Z.to_nat n_cols)))).
  { apply mapM_Some. intros j Hj. apply in_seq in Hj.
    destruct (Hname j) as [-> _]; [lia|]. reflexivity. }
  assert (Hlines :
      print_data_text res arr n_rows n_cols
      = Some ((join (map (fun j => left_justified (w j)
                                     (name (nth j columns d)))
                       (seq 0 (Z.to_nat n_cols))) ++ newline)%string
              :: map (fun i =>
                        (join (map (fun j => left_justified (w j)
                                               (cell arr i j))
                                 (seq 0 (Z.to_nat n_cols)))
                         ++ newline)%string)
                   (seq 0 (Z.to_nat n_rows)))).
  { unfold print_data_text. rewrite Hw. cbn [bind]. cbv zeta.
    unfold w, d in Hheader. rewrite Hheader. reflexivity. }
  rewrite Hlines.
  eexists. split; [reflexivity|].
  split; [cbn [List.length]; now rewrite length_map, length_seq|].
  assert (Hsum : forall g : nat -> string,
             (forall j, (j < Z.to_nat n_cols)%nat -> strlen (g j) <= w j) ->
             strlen (join (map (fun j => left_justified (w j) (g j))
                             (seq 0 (Z.to_nat n_cols))) ++ newline)
             = total_width columns + 1).
  { intros g Hg. rewrite strlen_append, strlen_join_map.
    rewrite <- Hlen. rewrite (sum_map_seq _ columns d); [reflexivity|].
    intros j Hj. apply strlen_left_justified, Hg. lia. }
  intros line [<-|Hin].
  - apply Hsum. intros j Hj. apply (Hname j Hj).
  - apply in_map_iff in Hin. destruct Hin as (i & <- & Hi).
    apply in_seq in Hi.
    apply (Hsum (fun j => cell arr i j)).
    intros j Hj. apply (Hname j Hj). lia.
Qed.

Lemma print_data_aligned_witness :
  exists lines,
    print_data_text (Some two_rows) [["a"; "10"]; ["bbbbbbbbbb"; "20"]] 2 2
    = Some lines
    /\ List.length lines = 3%nat
    /\ forall line, In line lines -> strlen line = 22.
Proof.
  assert (H : calculate_width (Some two_rows)
                [["a"; "10"]; ["bbbbbbbbbb"; "20"]] 2 2
              = Some [{| name := "datname"; width := 12 |};
                      {| name := "commits"; width := 9 |}])
    by (vm_compute; reflexivity).
  destruct (print_data_aligned _ _ _ _ _ H) as (lines & Hl & Hn & Hall).
  exists lines. split; [exact Hl|]. split; [exact Hn|exact Hall].
Defined.

(** ** The two CPU samples *)

Lemma idle_guard (p c itv : Z) :
  (if c <? p then 0%float else ll_sp_value p c itv) = ll_sp_value p c itv.
Proof. unfold ll_sp_value. destruct (c <? p); reflexivity. Qed.

(** X20.  [print_cpu_usage] keeps the sample it read for the next call:
    of two calls in a row, the second prints the percentages of its sample
    against the sample of the first, over the difference of their totals,
    and leaves [curr] where it was before the first. *)
Theorem print_cpu_usage_pairs (s : cpu_state) (a b : stats_cpu_struct) :
  let s1 := fst (print_cpu_usage s a) in
  let s2 := fst (print_cpu_usage s1 b) in
  let line := snd (print_cpu_usage s1 b) in
  let itv := get_interval (cpu_total a) (cpu_total b) in
  curr s2 = curr s
  /\ pct_us line = ll_sp_value (cpu_user a) (cpu_user b) itv
  /\ pct_sy line = ll_sp_value (sys_time a) (sys_time b) itv
  /\ pct_ni line = ll_sp_value (cpu_nice a) (cpu_nice b) itv
  /\ pct_id line = ll_sp_value (cpu_idle a) (cpu_idle b) itv
  /\ pct_wa line = ll_sp_value (cpu_iowait a) (cpu_iowait b) itv
  /\ pct_hi line = ll_sp_value (cpu_hardirq a) (cpu_hardirq b) itv
  /\ pct_si line = ll_sp_value (cpu_softirq a) (cpu_softirq b) itv
  /\ pct_st line = ll_sp_value (cpu_steal a) (cpu_steal b) itv.
Proof.
  destruct s as [[st0 st1] [up0 up1] c].
  destruct c; cbn -[ll_sp_value get_interval cpu_total sys_time];
    rewrite idle_guard; repeat split.
Qed.


(** ** The lines of the connection file *)

Lemma scan_conn_line_frame (line : string) (s : screen_s) (i : Z) :
  let s' := scan_conn_line line s i in
  conn_used s' = true /\ screen s' = i
  /\ conninfo s' = conninfo s
  /\ current_context s' = current_context s
  /\ context_list s' = context_list s
  /\ pg_stat_activity_min_age s' = pg_stat_activity_min_age s.
Proof.
  unfold scan_conn_line.
  repeat match goal with
  | |- context [match ?x with Some _ => _ | None => _ end] =>
      destruct x as [[? ?]|]
  end; cbn; repeat split.
Qed.

(** X21.  The lines of the connection file fill the consoles from [pos]
    on, one line each: these consoles come out with a connection and
    their own number, their view and sort keys untouched; the other
    consoles are as before.  With more lines than consoles left, the loop
    writes past the last screen. *)
Theorem read_conn_lines_fills (lines : list string) (screens : list screen_s)
    (pos : nat) :
  ((pos + List.length lines <= List.length screens)%nat ->
   exists scr',
     read_conn_lines lines screens pos = Some scr'
     /\ List.length scr' = List.length screens
     /\ (forall i, (i < pos \/ pos + List.length lines <= i)%nat ->
           nth_error scr' i = nth_error screens i)
     /\ (forall i s, (pos <= i < pos + List.length lines)%nat ->
           nth_error screens i = Some s ->
           exists s',
             nth_error scr' i = Some s'
             /\ conn_used s' = true /\ screen s' = Z.of_nat i
             /\ current_context s' = current_context s
             /\ context_list s' = context_list s))
  /\ (lines <> [] ->
      (List.length screens < pos + List.length lines)%nat ->
      read_conn_lines lines screens pos = None).
Proof.
  revert screens pos.
  induction lines as [|line lines IH]; intros screens pos; split.
  - intros _. exists screens. cbn [read_conn_lines List.length].
    split; [reflexivity|]. split; [reflexivity|].
    split; [reflexivity|]. intros i s Hi. lia.
  - intros H. contradiction.
  - cbn [List.length]. intros Hlen.
    destruct (nth_error screens pos) as [s0|] eqn:Hs0.
    2: { apply nth_error_None in Hs0. lia. }
    cbn [read_conn_lines]. rewrite Hs0. cbn [bind].
    set (scr1 := set_nth pos (scan_conn_line line s0 (Z.of_nat pos))
                   screens).
    assert (Hl1 : List.length scr1 = List.length screens)
      by (subst scr1; apply set_nth_length).
    destruct (IH scr1 (S pos)) as [Hok _].
    destruct Hok as (scr' & Hr & Hl & Hout & Hin); [lia|].
    exists scr'. split; [exact Hr|]. split; [lia|]. split.
    + intros i Hi. rewrite Hout by lia. subst scr1.
      rewrite nth_error_set_nth.
      destruct (Nat.eqb_spec i pos); [lia|reflexivity].
    + intros i s Hi Hs.
      destruct (Nat.eq_dec i pos) as [->|Hne].
      * rewrite Hout by lia. subst scr1.
        rewrite nth_error_set_nth, Nat.eqb_refl.
        destruct (Nat.ltb_spec pos (List.length screens)); [|lia].
        cbn [andb]. rewrite Hs in Hs0. inversion Hs0; subst s0.
        eexists. split; [reflexivity|].
        destruct (scan_conn_line_frame line s (Z.of_nat pos))
          as (H1 & H2 & _ & H4 & H5 & _). auto.
      * apply (Hin i s); [lia|]. subst scr1.
        rewrite nth_error_set_nth.
        destruct (Nat.eqb_spec i pos); [lia|exact Hs].
  - cbn [List.length]. intros _ Hlen. cbn [read_conn_lines].
    destruct (nth_error screens pos) as [s0|] eqn:Hs0; [|reflexivity].
    cbn [bind].
    assert (Hpos : (pos < List.length screens)%nat)
      by (apply nth_error_Some; congruence).
    destruct (IH (set_nth pos (scan_conn_line line s0 (Z.of_nat pos))
                    screens) (S pos)) as [_ Hfail].
    apply Hfail; [|rewrite set_nth_length; lia].
    destruct lines; [cbn [List.length] in Hlen; lia|discriminate].
Qed.

Lemma read_conn_lines_fills_witness :
  (exists scr',
     read_conn_lines [rc_line; rc_line] (init_screens example_h) 1
     = Some scr'
     /\ nth_error scr' 0 = nth_error (init_screens example_h) 0
     /\ nth_error scr' 3 = nth_error (init_screens example_h) 3)
  /\ read_conn_lines [rc_line; rc_line] (init_screens example_h) 7 = None.
Proof.
  destruct (read_conn_lines_fills [rc_line; rc_line]
              (init_screens example_h) 1) as [Hok _].
  destruct (read_conn_lines_fills [rc_line; rc_line]
              (init_screens example_h) 7) as [_ Hfail].
  split.
  - destruct Hok as (scr' & Hr & _ & Hout & _); [simpl; lia|].
    exists scr'. split; [exact Hr|].
    split; apply Hout; simpl; lia.
  - apply Hfail; [discriminate|simpl; lia].
Defined.

Lemma read_until_field (stop : list ascii) (f rest : string) :
  forallb (fun c => negb (existsb (Ascii.eqb c) stop))
    (list_ascii_of_string f) = true ->
  match rest with
  | String c _ => existsb (Ascii.eqb c) stop = true
  | EmptyString => True
  end ->
  Libc.read_until stop (f ++ rest) = (f, rest).
Proof.
  intros Hf Hrest. induction f as [|c f IH].
  - cbn [append]. destruct rest as [|c r]; [reflexivity|].
    cbn [Libc.read_until]. rewrite Hrest. reflexivity.
  - cbn [list_ascii_of_string forallb] in Hf.
    apply andb_true_iff in Hf. destruct Hf as [Hc Hf].
    cbn [append Libc.read_until].
    apply negb_true_iff in Hc. rewrite Hc, (IH Hf). reflexivity.
Qed.

Lemma field_ok_stop (stop : list ascii) (f : string) :
  field_ok stop f = true ->
  f <> EmptyString
  /\ forallb (fun c => negb (existsb (Ascii.eqb c) stop))
       (list_ascii_of_string f) = true.
Proof.
  unfold field_ok. intros H. apply andb_true_iff in H.
  destruct H as [Hne Hall]. split.
  - intros ->. discriminate Hne.
  - rewrite forallb_forall in *. intros c Hc.
    specialize (Hall c Hc). cbn [existsb] in Hall.
    apply negb_true_iff in Hall. apply orb_false_iff in Hall.
    apply negb_true_iff. apply Hall.
Qed.

Lemma scan_field (stop : list ascii) (f rest : string) :
  field_ok stop f = true ->
  match rest with
  | String c _ => existsb (Ascii.eqb c) stop = true
  | EmptyString => True
  end ->
  Libc.scan_set_not stop (f ++ rest) = Some (f, rest).
Proof.
  intros Hf Hrest. destruct (field_ok_stop _ _ Hf) as [Hne Hall].
  unfold Libc.scan_set_not. rewrite (read_until_field _ _ _ Hall Hrest).
  destruct f; [contradiction|reflexivity].
Qed.

Lemma scan_next_field (stop : list ascii) (f rest : string) :
  field_ok stop f = true ->
  match rest with
  | String c _ => existsb (Ascii.eqb c) stop = true
  | EmptyString => True
  end ->
  bind (Libc.scan_lit ":"%char (":" ++ f ++ rest)) (Libc.scan_set_not stop)
  = Some (f, rest).
Proof.
  intros Hf Hrest. cbn [append Libc.scan_lit]. rewrite Ascii.eqb_refl.
  cbn [bind]. apply scan_field; assumption.
Qed.

Lemma field_ok_newline (f : string) :
  field_ok [":"%char] f = true ->
  field_ok [":"%char] (f ++ newline) = true.
Proof.
  unfold field_ok. intros H. apply andb_true_iff in H.
  destruct H as [Hne Hall]. apply andb_true_iff. split.
  - destruct f; [discriminate Hne|reflexivity].
  - clear Hne. induction f as [|c f IH]; [reflexivity|].
    cbn [list_ascii_of_string forallb append] in *.
    apply andb_true_iff in Hall. destruct Hall as [Hc Hall].
    rewrite Hc. exact (IH Hall).
Qed.

Lemma scan_full_line (ho po db us pw : string) (s : screen_s) (i : Z) :
  field_ok [":"%char] ho = true ->
  field_ok [":"%char] po = true ->
  field_ok [":"%char] db = true ->
  field_ok [":"%char] us = true ->
  field_ok [":"%char; "010"%char] pw = true ->
  scan_conn_line (conn_line ho po db us pw) s i
  = set_conn s ho po db us pw i.
Proof.
  intros Hho Hpo Hdb Hus Hpw. unfold scan_conn_line, conn_line.
  rewrite (scan_field _ ho _ Hho) by reflexivity.
  rewrite (scan_next_field _ po _ Hpo) by reflexivity.
  rewrite (scan_next_field _ db _ Hdb) by reflexivity.
  rewrite (scan_next_field _ us _ Hus) by reflexivity.
  rewrite (scan_next_field _ pw _ Hpw) by reflexivity.
  reflexivity.
Qed.

(** X22.  A line [host:port:dbname:user:password] of the connection
    file, each field a non-empty string without a colon and the password
    without a line end, is stored field for field.  When the password and
    its colon are missing, the password of the console is left as it was
    and the user name takes the line end with it. *)
Theorem scan_conn_line_fields (ho po db us pw : string) (s : screen_s)
    (i : Z) :
  field_ok [":"%char] ho = true ->
  field_ok [":"%char] po = true ->
  field_ok [":"%char] db = true ->
  field_ok [":"%char] us = true ->
  (field_ok [":"%char; "010"%char] pw = true ->
   scan_conn_line (conn_line ho po db us pw) s i
   = set_conn s ho po db us pw i)
  /\ scan_conn_line (conn_line_no_password ho po db us) s i
     = set_conn s ho po db (us ++ newline) (password s) i.
Proof.
  intros Hho Hpo Hdb Hus. split.
  - intros Hpw. apply scan_full_line; assumption.
  - unfold scan_conn_line, conn_line_no_password.
    rewrite (scan_field _ ho _ Hho) by reflexivity.
    rewrite (scan_next_field _ po _ Hpo) by reflexivity.
    rewrite (scan_next_field _ db _ Hdb) by reflexivity.
    replace (":" ++ us ++ newline)%string
      with (":" ++ (us ++ newline) ++ "")%string.
    2: { rewrite append_empty_r. reflexivity. }
    rewrite (scan_next_field _ (us ++ newline) ""
               (field_ok_newline _ Hus) I).
    reflexivity.
Qed.

Lemma scan_conn_line_fields_witness :
  scan_conn_line rc_line (init_screen example_h 1) 1
  = set_conn (init_screen example_h 1) "127.0.0.1" "5432" "db" "u"
      "secret" 1
  /\ user (scan_conn_line (conn_line_no_password "127.0.0.1" "5432" "db" "u")
             (init_screen example_h 1) 1)
     = ("u" ++ newline)%string.
Proof.
  destruct (scan_conn_line_fields "127.0.0.1" "5432" "db" "u" "secret"
              (init_screen example_h 1) 1) as [H1 H2];
    try (vm_compute; reflexivity).
  split.
  - apply H1. vm_compute. reflexivity.
  - rewrite H2. reflexivity.
Defined.

Lemma append_assoc (a b c : string) :
  ((a ++ b) ++ c)%string = (a ++ b ++ c)%string.
Proof.
  induction a as [|x a IH]; [reflexivity|]. cbn [append]. now rewrite IH.
Qed.

Lemma init_screens_nth (h : pgcenter_h) (i : nat) :
  (i < MAX_CONSOLE h)%nat ->
  nth_error (init_screens h) i = Some (init_screen h i).
Proof.
  intros Hi. unfold init_screens.
  rewrite nth_error_map, nth_error_seq.
  destruct (Nat.ltb_spec i (MAX_CONSOLE h)); [reflexivity|lia].
Qed.

Lemma init_screens_length (h : pgcenter_h) :
  List.length (init_screens h) = MAX_CONSOLE h.
Proof. unfold init_screens. now rewrite length_map, length_seq. Qed.

(** X23.  From the connection file to the connection string: a file with
    no group or other permission bit and one well-formed line fills
    console [pos], and [prepare_conninfo] then builds for it the string
    [host=... port=... user=... dbname=... password=...] from the fields
    of the line, the user before the database; the other consoles stay
    without a connection and without a string. *)
Theorem rc_line_conninfo (h : pgcenter_h) (pw_dir : string) (mode : Z)
    (ho po db us pw : string) (pos : nat) :
  Z.land mode (Z.lor S_IRWXG S_IRWXO) = 0 ->
  (pos < MAX_CONSOLE h)%nat ->
  field_ok [":"%char] ho = true ->
  field_ok [":"%char] po = true ->
  field_ok [":"%char] db = true ->
  field_ok [":"%char] us = true ->
  field_ok [":"%char; "010"%char] pw = true ->
  exists scr' s,
    create_pgcenterrc_conn h pw_dir
      (Some {| st_mode := mode;
               rc_lines := Some [conn_line ho po db us pw] |})
      (init_screens h) pos
    = Some (PGCENTERRC_READ_OK, scr', [])
    /\ nth_error (prepare_conninfo scr') pos = Some s
    /\ conninfo s
       = ("host=" ++ ho ++ " port=" ++ po ++ " user=" ++ us
          ++ " dbname=" ++ db ++ " password=" ++ pw)%string
    /\ forall i, i <> pos ->
         nth_error (prepare_conninfo scr') i = nth_error (init_screens h) i.
Proof.
  intros Hmode Hpos Hho Hpo Hdb Hus Hpw.
  set (s1 := set_conn (init_screen h pos) ho po db us pw (Z.of_nat pos)).
  exists (set_nth pos s1 (init_screens h)).
  exists (set_conninfo s1 (screen_conninfo s1)).
  split; [|split; [|split]].
  - unfold create_pgcenterrc_conn. cbn [st_mode rc_lines].
    rewrite Hmode. cbn [Z.eqb negb read_conn_lines].
    rewrite (init_screens_nth h pos Hpos). cbn [bind].
    rewrite scan_full_line by assumption. reflexivity.
  - unfold prepare_conninfo. rewrite nth_error_map, nth_error_set_nth.
    rewrite Nat.eqb_refl, init_screens_length.
    destruct (Nat.ltb_spec pos (MAX_CONSOLE h)); [|lia].
    reflexivity.
  - cbn [conninfo set_conninfo]. unfold screen_conninfo.
    subst s1. cbn [set_conn conninfo host port user dbname password
                   init_screen].
    destruct (field_ok_stop _ _ Hpw) as [Hne _].
    destruct pw as [|c pw]; [contradiction|].
    cbn [String.length Nat.eqb negb].
    change ("" ++ ?x)%string with x. now rewrite !append_assoc.
  - intros i Hi. unfold prepare_conninfo.
    rewrite nth_error_map, nth_error_set_nth.
    destruct (Nat.eqb_spec i pos); [contradiction|].
    destruct (nth_error (init_screens h) i) as [s|] eqn:Hs;
      [|reflexivity].
    cbn [option_map].
    assert (Hlt : (i < MAX_CONSOLE h)%nat).
    { rewrite <- init_screens_length. apply nth_error_Some. congruence. }
    rewrite init_screens_nth in Hs by exact Hlt.
    inversion Hs; subst s. reflexivity.
Qed.

Lemma rc_line_conninfo_witness :
  exists scr' s,
    create_pgcenterrc_conn example_h "/home/u" (Some rc_private)
      (init_screens example_h) 1
    = Some (PGCENTERRC_READ_OK, scr', [])
    /\ nth_error (prepare_conninfo scr') 1 = Some s
    /\ conninfo s
       = "host=127.0.0.1 port=5432 user=u dbname=db password=secret".
Proof.
  destruct (rc_line_conninfo example_h "/home/u" 33152 "127.0.0.1" "5432"
              "db" "u" "secret" 1)
    as (scr' & s & H1 & H2 & H3 & _);
    try (vm_compute; reflexivity); [vm_compute; lia|].
  exists scr', s. split; [exact H1|]. split; [exact H2|exact H3].
Defined.

(** ** The command line *)

Lemma strlen_zero (s : string) : (strlen s =? 0) = true <-> s = EmptyString.
Proof.
  unfold strlen. destruct s as [|c s]; cbn [String.length].
  - split; reflexivity.
  - split; [|discriminate]. intros H. apply Z.eqb_eq in H. lia.
Qed.

Lemma strlen_nonzero (s : string) :
  s <> EmptyString -> (strlen s =? 0) = false.
Proof.
  intros H. destruct (strlen s =? 0) eqn:E; [|reflexivity].
  apply strlen_zero in E. contradiction.
Qed.

Lemma take_arguments_ignored (argv0 : string) (args : list string)
    (s : screen_s) :
  dbname s <> EmptyString ->
  take_arguments argv0 args s = (s, map (extra_argument argv0) args).
Proof.
  intros Hdb. induction args as [|a args IH]; [reflexivity|].
  cbn [take_arguments map]. rewrite (strlen_nonzero _ Hdb).
  rewrite !andb_false_r. rewrite IH. reflexivity.
Qed.

(** X24.  Once the options have set the database name, every argument
    left on the command line is refused with a warning on the standard
    error stream and changes nothing, so a user name cannot be given
    after [-d]. *)
Theorem arguments_after_dbname (e : conn_env) (argv0 : string)
    (opts : list (ascii * string)) (args : list string)
    (s s1 : screen_s) (prompt_password : trivalue) :
  take_options opts (s, TRI_DEFAULT) = Some (s1, prompt_password) ->
  dbname s1 <> EmptyString ->
  create_initial_conn e argv0 opts args s
  = Started (fill_defaults e prompt_password s1)
      (map (extra_argument argv0) args).
Proof.
  intros Hopts Hdb. unfold create_initial_conn. rewrite Hopts.
  rewrite (take_arguments_ignored argv0 args s1 Hdb). reflexivity.
Qed.

Lemma arguments_after_dbname_witness :
  create_initial_conn example_env "pgcenter"
    [("d"%char, "shop"); ("W"%char, "")] ["bob"] (init_screen example_h 0)
  = Started
      (fill_defaults example_env TRI_YES
         (set_dbname (init_screen example_h 0) "shop"))
      [extra_argument "pgcenter" "bob"].
Proof.
  apply (arguments_after_dbname example_env "pgcenter"
           [("d"%char, "shop"); ("W"%char, "")] ["bob"]
           (init_screen example_h 0)
           (set_dbname (init_screen example_h 0) "shop") TRI_YES).
  - vm_compute. reflexivity.
  - vm_compute. discriminate.
Defined.

Ltac fields :=
  cbn [host port user dbname password conn_used screen conninfo
       current_context context_list pg_stat_activity_min_age
       set_host set_port set_user set_dbname set_password set_conn_used].

Lemma fill_defaults_user (e : conn_env) (t : trivalue) (s : screen_s) :
  user (fill_defaults e t s)
  = if strlen (user s) =? 0 then pw_name e else user s.
Proof.
  unfold fill_defaults.
  destruct (strlen (host s) =? 0); fields;
    destruct (strlen (port s) =? 0); fields;
    destruct (strlen (user s) =? 0) eqn:Eu; fields;
    destruct t; fields;
    match goal with
    | |- context [if ?b then _ else _] => destruct b
    end; fields; reflexivity.
Qed.

Lemma fill_defaults_dbname (e : conn_env) (t : trivalue) (s : screen_s) :
  dbname s <> EmptyString ->
  dbname (fill_defaults e t s) = dbname s.
Proof.
  intros Hdb. unfold fill_defaults.
  destruct (strlen (host s) =? 0); fields;
    destruct (strlen (port s) =? 0); fields;
    destruct (strlen (user s) =? 0) eqn:Eu; fields;
    destruct t; fields;
    rewrite (strlen_nonzero _ Hdb), andb_false_r; fields;
    reflexivity.
Qed.

(** X25.  With neither user nor database name set by the options, two
    arguments are taken as the user and then the database, and the
    arguments after them are refused with a warning; one argument alone
    is the database, and the user is then the login name. *)
Theorem positional_arguments (e : conn_env) (argv0 : string)
    (opts : list (ascii * string)) (a b : string) (rest : list string)
    (s s1 : screen_s) (prompt_password : trivalue) :
  take_options opts (s, TRI_DEFAULT) = Some (s1, prompt_password) ->
  user s1 = EmptyString ->
  dbname s1 = EmptyString ->
  a <> EmptyString ->
  b <> EmptyString ->
  (exists s',
     create_initial_conn e argv0 opts (a :: b :: rest) s
     = Started s' (map (extra_argument argv0) rest)
     /\ user s' = a /\ dbname s' = b)
  /\ (exists s',
        create_initial_conn e argv0 opts [a] s = Started s' []
        /\ user s' = pw_name e /\ dbname s' = a).
Proof.
  intros Hopts Hu Hd Ha Hb. split.
  - unfold create_initial_conn. rewrite Hopts.
    cbn [take_arguments]. rewrite Hu, Hd.
    replace (1 <? Z.of_nat (List.length (a :: b :: rest))) with true
      by (symmetry; apply Z.ltb_lt; cbn [List.length]; lia).
    cbn [strlen String.length Z.of_nat Z.eqb andb user set_user].
    rewrite (strlen_nonzero _ Ha), andb_false_r.
    replace (1 <=? Z.of_nat (List.length (b :: rest))) with true
      by (symmetry; apply Z.leb_le; cbn [List.length]; lia).
    cbn [dbname set_user andb]. rewrite Hd.
    cbn [strlen String.length Z.of_nat Z.eqb].
    rewrite (take_arguments_ignored argv0 rest
               (set_dbname (set_user s1 a) b)) by exact Hb.
    eexists. split; [reflexivity|]. split.
    + rewrite fill_defaults_user. cbn [user set_dbname set_user].
      now rewrite (strlen_nonzero _ Ha).
    + now rewrite fill_defaults_dbname by exact Hb.
  - unfold create_initial_conn. rewrite Hopts.
    cbn [take_arguments List.length]. rewrite Hu, Hd.
    cbn [Z.of_nat Pos.of_succ_nat Z.ltb Z.leb Z.compare Pos.compare
         strlen String.length Z.eqb andb].
    eexists. split; [reflexivity|]. split.
    + rewrite fill_defaults_user. cbn [user set_dbname]. rewrite Hu.
      reflexivity.
    + now rewrite fill_defaults_dbname by exact Ha.
Qed.

Lemma positional_arguments_witness :
  (exists s',
     create_initial_conn example_env "pgcenter" [("p"%char, "5433")]
       ["bob"; "shop"; "more"] (init_screen example_h 0)
     = Started s' [extra_argument "pgcenter" "more"]
     /\ user s' = "bob" /\ dbname s' = "shop")
  /\ (exists s',
        create_initial_conn example_env "pgcenter" [("p"%char, "5433")]
          ["bob"] (init_screen example_h 0)
        = Started s' []
        /\ user s' = "postgres" /\ dbname s' = "bob").
Proof.
  apply (positional_arguments example_env "pgcenter" [("p"%char, "5433")]
           "bob" "shop" ["more"] (init_screen example_h 0)
           (set_port (init_screen example_h 0) "5433") TRI_DEFAULT);
    try (vm_compute; reflexivity); vm_compute; discriminate.
Defined.

Lemma take_option_frame (param : ascii) (optarg : string)
    (s s' : screen_s) (t t' : trivalue) :
  take_option param optarg (s, t) = Some (s', t') ->
  screen s' = screen s /\ conninfo s' = conninfo s
  /\ current_context s' = current_context s
  /\ context_list s' = context_list s
  /\ pg_stat_activity_min_age s' = pg_stat_activity_min_age s.
Proof.
  unfold take_option.
  repeat match goal with
  | |- context [if ?b then _ else _] => destruct b
  end; intros H; inversion H; subst; cbn; repeat split.
Qed.

Lemma take_options_frame (opts : list (ascii * string)) (s s' : screen_s)
    (t t' : trivalue) :
  take_options opts (s, t) = Some (s', t') ->
  screen s' = screen s /\ conninfo s' = conninfo s
  /\ current_context s' = current_context s
  /\ context_list s' = context_list s
  /\ pg_stat_activity_min_age s' = pg_stat_activity_min_age s.
Proof.
  revert s t. induction opts as [|[p o] opts IH]; intros s t H.
  - inversion H; subst. repeat split.
  - cbn [take_options] in H.
    destruct (take_option p o (s, t)) as [[s1 t1]|] eqn:E;
      [|discriminate].
    cbn [bind] in H.
    destruct (take_option_frame _ _ _ _ _ _ E) as (A1 & A2 & A3 & A4 & A5).
    destruct (IH _ _ H) as (B1 & B2 & B3 & B4 & B5).
    repeat split; congruence.
Qed.

Lemma take_arguments_frame (argv0 : string) (args : list string)
    (s : screen_s) :
  let s' := fst (take_arguments argv0 args s) in
  screen s' = screen s /\ conninfo s' = conninfo s
  /\ current_context s' = current_context s
  /\ context_list s' = context_list s
  /\ pg_stat_activity_min_age s' = pg_stat_activity_min_age s.
Proof.
  revert s. induction args as [|a args IH]; intros s.
  - repeat split.
  - cbn [take_arguments].
    match goal with
    | |- context [let '(_, _) := ?x in _] => destruct x as [s1 ev1] eqn:E1
    end.
    specialize (IH s1).
    destruct (take_arguments argv0 args s1) as [s2 ev2].
    cbn [fst] in *.
    assert (F : screen s1 = screen s /\ conninfo s1 = conninfo s
                /\ current_context s1 = current_context s
                /\ context_list s1 = context_list s
                /\ pg_stat_activity_min_age s1 = pg_stat_activity_min_age s).
    { repeat match type of E1 with
      | context [if ?b then _ else _] => destruct b
      end; inversion E1; subst; cbn; repeat split. }
    destruct IH as (B1 & B2 & B3 & B4 & B5).
    destruct F as (A1 & A2 & A3 & A4 & A5).
    repeat split; congruence.
Qed.

Lemma fill_defaults_complete (e : conn_env) (t : trivalue) (s : screen_s) :
  DEFAULT_HOST e <> EmptyString ->
  DEFAULT_PORT e <> EmptyString ->
  pw_name e <> EmptyString ->
  let s' := fill_defaults e t s in
  conn_used s' = true
  /\ host s' <> EmptyString /\ port s' <> EmptyString
  /\ user s' <> EmptyString /\ dbname s' <> EmptyString
  /\ screen s' = screen s /\ conninfo s' = conninfo s
  /\ current_context s' = current_context s
  /\ context_list s' = context_list s
  /\ pg_stat_activity_min_age s' = pg_stat_activity_min_age s.
Proof.
  intros Hh Hp Hn. unfold fill_defaults.
  destruct (strlen (host s) =? 0) eqn:Eh; fields;
    destruct (strlen (port s) =? 0) eqn:Ep; fields;
    destruct (strlen (user s) =? 0) eqn:Eu; fields;
    destruct t; fields;
    rewrite ?(strlen_nonzero _ Hn), ?Eu; cbn [negb andb];
    destruct (strlen (dbname s) =? 0) eqn:Ed; fields;
    repeat split; try assumption;
    try (intros H0; apply strlen_zero in H0; congruence).
Qed.

(** X26.  Whatever the options and the arguments, a console that
    [create_initial_conn] hands over is marked as used and has a host, a
    port, a user and a database name, provided the two defaults of the
    header and the login name are not empty; its number, its view and its
    sort keys are those it had. *)
Theorem initial_conn_complete (e : conn_env) (argv0 : string)
    (opts : list (ascii * string)) (args : list string)
    (s s' : screen_s) (ev : list event) :
  DEFAULT_HOST e <> EmptyString ->
  DEFAULT_PORT e <> EmptyString ->
  pw_name e <> EmptyString ->
  create_initial_conn e argv0 opts args s = Started s' ev ->
  conn_used s' = true
  /\ host s' <> EmptyString /\ port s' <> EmptyString
  /\ user s' <> EmptyString /\ dbname s' <> EmptyString
  /\ screen s' = screen s
  /\ current_context s' = current_context s
  /\ context_list s' = context_list s.
Proof.
  intros Hh Hp Hn. unfold create_initial_conn.
  destruct (take_options opts (s, TRI_DEFAULT)) as [[s1 t]|] eqn:Eo;
    [|discriminate].
  pose proof (take_arguments_frame argv0 args s1) as Fa.
  destruct (take_arguments argv0 args s1) as [s2 ev2]. cbn [fst] in Fa.
  intros H. inversion H; subst s' ev.
  destruct (take_options_frame _ _ _ _ _ Eo) as (A1 & A2 & A3 & A4 & A5).
  destruct Fa as (B1 & B2 & B3 & B4 & B5).
  destruct (fill_defaults_complete e t s2 Hh Hp Hn)
    as (C0 & C1 & C2 & C3 & C4 & C5 & C6 & C7 & C8 & C9).
  repeat split; try assumption; congruence.
Qed.

Lemma initial_conn_complete_witness :
  let s' := fill_defaults example_env TRI_DEFAULT
              (init_screen example_h 0) in
  conn_used s' = true
  /\ host s' <> EmptyString /\ port s' <> EmptyString
  /\ user s' <> EmptyString /\ dbname s' <> EmptyString
  /\ screen s' = 0
  /\ current_context s' = DEFAULT_QUERY_CONTEXT example_h
  /\ context_list s' = init_context_list example_h.
Proof.
  apply (initial_conn_complete example_env "pgcenter" [] []
           (init_screen example_h 0)
           (fill_defaults example_env TRI_DEFAULT (init_screen example_h 0))
           []);
    try (vm_compute; discriminate); vm_compute; reflexivity.
Defined.

(** ** The activity line *)

Lemma count_of_defined (h : pgcenter_h) (r : PQexec_result) :
  has_count h r = true <-> exists n, count_of h r = Some n.
Proof.
  unfold has_count, count_of, do_query.
  destruct (ExecStatusType_eqb (exec_status r) (PG_TUP_OK h));
    cbn [negb fst andb PQgetvalue bind].
  2: { split; [discriminate|]. intros [n Hn]. discriminate Hn. }
  destruct (exec_data r) as [names rows]. cbn [fnames tuples].
  destruct rows as [|row rows]; cbn [nth_error].
  { destruct names; cbn; split; try discriminate;
      intros [n Hn]; discriminate Hn. }
  destruct row as [|v row], names as [|f names]; cbn;
    split; try discriminate; try (intros [n Hn]; discriminate Hn).
  - intros _. eexists. reflexivity.
  - reflexivity.
Qed.

(** X27.  The activity line is printed exactly when each of the six
    count queries is accepted and has a value in its first row and
    column; if one of them is refused or comes back empty, [atoi] is
    handed [NULL] and nothing is printed. *)
Theorem activity_line_defined (h : pgcenter_h)
    (total idle idle_in_t active waiting others : PQexec_result) :
  (exists line,
     print_postgres_activity h total idle idle_in_t active waiting others
     = Some line)
  <-> forallb (has_count h)
        [total; idle; idle_in_t; active; waiting; others] = true.
Proof.
  unfold print_postgres_activity. cbn [forallb]. rewrite !andb_true_iff.
  rewrite !count_of_defined. split.
  - intros [line H].
    destruct (count_of h total); [|discriminate H].
    destruct (count_of h idle); [|discriminate H].
    destruct (count_of h idle_in_t); [|discriminate H].
    destruct (count_of h active); [|discriminate H].
    destruct (count_of h waiting); [|discriminate H].
    destruct (count_of h others); [|discriminate H].
    repeat split; try (eexists; reflexivity).
  - intros ([n1 ->] & [n2 ->] & [n3 ->] & [n4 ->] & [n5 ->] & [n6 ->] & _).
    cbn [bind]. eexists. reflexivity.
Qed.

Lemma string_length_append (a b : string) :
  String.length (a ++ b) = (String.length a + String.length b)%nat.
Proof.
  induction a as [|x a IH]; cbn [append String.length]; [reflexivity|].
  now rewrite IH.
Qed.

Lemma spaces_length (n : nat) : String.length (spaces n) = n.
Proof. induction n as [|n IH]; [reflexivity|]. cbn. now rewrite IH. Qed.

Lemma format_3i_length (z : Z) :
  String.length (format_3i z)
  = Nat.max 3 (String.length (Libc.format_d z)).
Proof.
  unfold format_3i. cbv zeta. rewrite string_length_append, spaces_length.
  lia.
Qed.

Lemma format_d_short (z : Z) :
  -99 <= z <= 999 -> (String.length (Libc.format_d z) <= 3)%nat.
Proof.
  intros Hz.
  assert (Hall : forallb
            (fun n => (String.length
                         (Libc.format_d (Z.of_nat n - 99)) <=? 3)%nat)
            (seq 0 1099) = true) by (vm_compute; reflexivity).
  rewrite forallb_forall in Hall.
  specialize (Hall (Z.to_nat (z + 99))).
  replace (Z.of_nat (Z.to_nat (z + 99)) - 99) with z in Hall by lia.
  apply Nat.leb_le, Hall, in_seq. lia.
Qed.

(** X28.  The activity line is never shorter than 77 characters, and it
    is exactly 77 characters long when the six counts, as [atoi] reads
    them, are between -99 and 999: only a larger count moves the words
    after it to the right. *)
Theorem activity_line_width (h : pgcenter_h)
    (total idle idle_in_t active waiting others : PQexec_result)
    (line : string) :
  print_postgres_activity h total idle idle_in_t active waiting others
  = Some line ->
  (77 <= String.length line)%nat
  /\ ((forall r n,
         In r [total; idle; idle_in_t; active; waiting; others] ->
         count_of h r = Some n -> -99 <= n <= 999) ->
      String.length line = 77%nat).
Proof.
  unfold print_postgres_activity. intros H.
  destruct (count_of h total) as [n1|] eqn:E1; [|discriminate H].
  destruct (count_of h idle) as [n2|] eqn:E2; [|discriminate H].
  destruct (count_of h idle_in_t) as [n3|] eqn:E3; [|discriminate H].
  destruct (count_of h active) as [n4|] eqn:E4; [|discriminate H].
  destruct (count_of h waiting) as [n5|] eqn:E5; [|discriminate H].
  destruct (count_of h others) as [n6|] eqn:E6; [|discriminate H].
  cbn [bind] in H. inversion H; subst line; clear H.
  repeat (progress cbn [String.length] || rewrite string_length_append).
  rewrite !format_3i_length. split; [lia|].
  intros Hr.
  pose proof (format_d_short n1 (Hr total n1 (or_introl eq_refl) E1)).
  pose proof (format_d_short n2
                (Hr idle n2 (or_intror (or_introl eq_refl)) E2)).
  pose proof (format_d_short n3
                (Hr idle_in_t n3
                   (or_intror (or_intror (or_introl eq_refl))) E3)).
  pose proof (format_d_short n4
                (Hr active n4
                   (or_intror (or_intror (or_intror (or_introl eq_refl))))
                   E4)).
  pose proof (format_d_short n5
                (Hr waiting n5
                   (or_intror (or_intror (or_intror (or_intror
                      (or_introl eq_refl))))) E5)).
  pose proof (format_d_short n6
                (Hr others n6
                   (or_intror (or_intror (or_intror (or_intror
                      (or_intror (or_introl eq_refl)))))) E6)).
  lia.
Qed.

Lemma activity_line_width_witness :
  print_postgres_activity example_h
    (count_answer "12") (count_answer "7") (count_answer "0")
    (count_answer "4") (count_answer "1") (count_answer "0")
  = Some ("activity: 12 total,  7 idle,  0 idle_in_tnx,  4 active,"
          ++ "  1 waiting,  0 others")%string
  /\ String.length
       ("activity: 12 total,  7 idle,  0 idle_in_tnx,  4 active,"
        ++ "  1 waiting,  0 others")%string = 77%nat.
Proof.
  split; [vm_compute; reflexivity|].
  destruct (activity_line_width example_h
              (count_answer "12") (count_answer "7") (count_answer "0")
              (count_answer "4") (count_answer "1") (count_answer "0")
              ("activity: 12 total,  7 idle,  0 idle_in_tnx,  4 active,"
               ++ "  1 waiting,  0 others")%string)
    as [_ Hw]; [vm_compute; reflexivity|].
  apply Hw. intros r n Hin Hn.
  cbn [In] in Hin.
  repeat (destruct Hin as [<-|Hin];
          [vm_compute in Hn; inversion Hn; lia|]).
  contradiction.
Defined.

(** ** The consoles at the start *)

(** X29.  [init_screens] leaves every console without a connection, with
    its own number and on the default view, and, when the eight [*_NUM]
    constants index the context list one to one, with every view sorted
    in descending order on its [*_ORDER_MIN] column.  That column is the
    first one of the range that the arrows go through, except on the
    table-sizes view, where the range of the arrows begins three columns
    before it. *)
Theorem init_screens_state (h : pgcenter_h) (i : nat) :
  nums_ok h = true ->
  (i < MAX_CONSOLE h)%nat ->
  exists s,
    nth_error (init_screens h) i = Some s
    /\ screen s = Z.of_nat i
    /\ conn_used s = false
    /\ conninfo s = EmptyString
    /\ current_context s = DEFAULT_QUERY_CONTEXT h
    /\ forall c,
         lookup_order (set_current_context s c)
         = Some (initial_order_key h c, true)
         /\ initial_order_key h c
            = if context_eqb c pg_tables_size
              then fst (sort_range h c) + 3
              else fst (sort_range h c).
Proof.
  intros Hok Hi. exists (init_screen h i).
  split; [apply init_screens_nth, Hi|].
  repeat (split; [reflexivity|]).
  intros c. split; [apply lookup_order_init, Hok|].
  destruct c; cbn [context_eqb initial_order_key sort_range fst]; lia.
Qed.

Lemma init_screens_state_witness :
  exists s,
    nth_error (init_screens example_h) 3 = Some s
    /\ screen s = 3
    /\ conn_used s = false
    /\ current_context s = pg_stat_database
    /\ lookup_order (set_current_context s pg_tables_size)
       = Some (PG_TABLES_SIZE_ORDER_MIN example_h, true)
    /\ PG_TABLES_SIZE_ORDER_MIN example_h
       = fst (sort_range example_h pg_tables_size) + 3.
Proof.
  destruct (init_screens_state example_h 3)
    as (s & Hn & Hscr & Hu & _ & Hc & Hall);
    [vm_compute; reflexivity|vm_compute; lia|].
  exists s. split; [exact Hn|]. split; [exact Hscr|]. split; [exact Hu|].
  split; [exact Hc|]. exact (Hall pg_tables_size).
Defined.
